(** * NavCity analysis: the metric engine, the aggregator and the corrector

    A shallow embedding of [code/metrics.py] and of the correction step of
    [code/post_processing.py], with the properties of the per-destination
    statistics that the written specification states.

    Numbers.  The program computes on float64 columns.  Here a finite
    float is an exact rational in canonical form ([Qc], so that value
    equality is Leibniz equality and is decided by computation), a
    square root is a real number ([R]), and a missing value (NaN) of a
    column is [None].  Rounding is therefore outside that model, and a
    statement about it is a statement about exact arithmetic.  What
    rounding does to the time statistics is computed in the module
    [Float64], which runs the same steps on binary64 numbers with the
    order of additions of [numpy]. *)

From Stdlib Require Import String Ascii.
From Stdlib Require Import List Bool Arith Lia.
From Stdlib Require Import ZArith QArith Qcanon Qcabs.
From Stdlib Require Import Reals Qreals Lra.
From Stdlib Require Import Permutation Sorted.
From Stdlib Require Lqa.
From Stdlib Require PrimFloat.
Import ListNotations.

Set Implicit Arguments.

(* Numbers carry their scope explicitly: [%Qc], [%R]; bare numerals are [nat]. *)
Close Scope R_scope.
Close Scope Qc_scope.
Close Scope Q_scope.

(** ** Exceptions of the Python program that the model keeps *)

Inductive Error : Type :=
| ValueError   (* astype(float) on text that is not a number *)
| KeyError.    (* set_index on a frame that has no such column *)

Definition result (A : Type) : Type := (Error + A)%type.

Definition ret {A} (a : A) : result A := inr a.

Definition bind {A B} (m : result A) (f : A -> result B) : result B :=
  match m with
  | inl e => inl e
  | inr a => f a
  end.

Notation "x <- m ;; k" := (bind m (fun x => k))
  (at level 61, m at next level, right associativity).

Fixpoint mapM {A B} (f : A -> result B) (l : list A) : result (list B) :=
  match l with
  | [] => ret []
  | a :: t => b <- f a ;; bs <- mapM f t ;; ret (b :: bs)
  end.

(** ** Series operations (pandas / numpy) on columns *)

Module Series.

(** A cell of a float column: [None] is NaN. *)
Definition cell := option Qc.

Fixpoint diff_from (prev : Qc) (l : list Qc) : list cell :=
  match l with
  | [] => []
  | x :: t => Some (x - prev)%Qc :: diff_from x t
  end.

(** [Series.diff()]: the first entry has no predecessor and is NaN. *)
Definition diff (l : list Qc) : list cell :=
  match l with
  | [] => []
  | x :: t => None :: diff_from x t
  end.

(** [clip(lower=lo)] leaves NaN alone. *)
Definition clip_lower (lo : Qc) (c : cell) : cell :=
  option_map (fun x => if Qclt_le_dec x lo then lo else x) c.

Definition abs (c : cell) : cell := option_map Qcabs c.

Definition fillna (d : Qc) (c : cell) : Qc :=
  match c with
  | Some x => x
  | None => d
  end.

(** Non-NaN entries of a column, in order ([dropna]). *)
Fixpoint dropna (l : list cell) : list Qc :=
  match l with
  | [] => []
  | Some x :: t => x :: dropna t
  | None :: t => dropna t
  end.

Definition sum (l : list Qc) : Qc := fold_right Qcplus 0%Qc l.

Definition of_nat (n : nat) : Qc := Q2Qc (inject_Z (Z.of_nat n)).

(** [np.mean] of a list of finite numbers. *)
Definition mean (l : list Qc) : Qc := (sum l / of_nat (length l))%Qc.

(** [Series.mean()] with the default [skipna=True]: NaN entries are
    left out; a column without any number has mean NaN. *)
Definition mean_skipna (l : list cell) : cell :=
  match dropna l with
  | [] => None
  | v :: vs => Some (mean (v :: vs))
  end.

(** Real-valued columns (results of [np.sqrt]). *)
Definition rcell := option R.

Fixpoint rdropna (l : list rcell) : list R :=
  match l with
  | [] => []
  | Some x :: t => x :: rdropna t
  | None :: t => rdropna t
  end.

Definition rsum (l : list R) : R := fold_right Rplus 0%R l.

(** [Series.sum()] skips NaN. *)
Definition rsum_skipna (l : list rcell) : R := rsum (rdropna l).

Definition rmean (l : list R) : R := (rsum l / INR (length l))%R.

End Series.

(** ** Frames: keep-first de-duplication and sorted group-by *)

Section Frames.

Variables (A K : Type).
Variable eqb : K -> K -> bool.
Variable leb : K -> K -> bool.
Variable key : A -> K.

(** Rows whose key has not been seen before, in order: what
    [drop_duplicates(keep='first')] keeps, and what the loop with the
    [seen] set appends. *)
Fixpoint keep_first_from (seen : list K) (l : list A) : list A :=
  match l with
  | [] => []
  | a :: t =>
      if existsb (eqb (key a)) seen
      then keep_first_from seen t
      else a :: keep_first_from (key a :: seen) t
  end.

Definition drop_duplicates (l : list A) : list A := keep_first_from [] l.

Fixpoint insert_key (k : K) (l : list K) : list K :=
  match l with
  | [] => [k]
  | h :: t => if leb k h then k :: h :: t else h :: insert_key k t
  end.

Definition sort_keys (l : list K) : list K := fold_right insert_key [] l.

Definition rows_of (k : K) (l : list A) : list A :=
  filter (fun a => eqb (key a) k) l.

(** [groupby(key)] with the default [sort=True]: one group per
    distinct key, groups in ascending key order, rows of a group in
    their original order. *)
Definition groupby (l : list A) : list (K * list A) :=
  map (fun k => (k, rows_of k l))
      (sort_keys (map key (drop_duplicates l))).

(** Row [i] is kept when no row before it has the same key. *)
Definition first_occurrences (l : list A) : list A :=
  map snd
    (filter
       (fun ia =>
          negb (existsb (fun b => eqb (key b) (key (snd ia)))
                        (firstn (fst ia) l)))
       (combine (seq 0 (length l)) l)).

End Frames.

(** ** Sample Normalizer: [process_raw_data] *)

(** A row of the session file as [pd.read_csv] delivers it: the X and Z
    Euler angles still carry their stray bracket and are text. *)
Module Raw.
Record row : Type := mk {
  Lapsed_Time : Qc;
  Target_Name : string;
  X : Qc;
  Z : Qc;
  X_Euler_Angle : string;
  Y_Euler_Angle : Qc;
  Z_Euler_Angle : string
}.
End Raw.

(** A row of the frame that [process_raw_data] returns. *)
Module Sample.
Record row : Type := mk {
  Target_Name : string;
  X : Qc;
  Z : Qc;
  X_A : Qc; X_A_Rev : Qc; X_A_Rev_Diff : Qc;
  Y_A : Qc; Y_A_Rev : Qc; Y_A_Rev_Diff : Qc;
  Z_A : Qc; Z_A_Rev : Qc; Z_A_Rev_Diff : Qc;
  Time : Qc;
  Time_Diff : Qc
}.
End Sample.

Definition MISSION_COMPLETE : string := "Mission complete".

(** [s[1:]] *)
Definition str_drop_first (s : string) : string :=
  match s with
  | EmptyString => EmptyString
  | String _ t => t
  end.

(** [s[:-1]] *)
Fixpoint str_drop_last (s : string) : string :=
  match s with
  | EmptyString => EmptyString
  | String _ EmptyString => EmptyString
  | String c t => String c (str_drop_last t)
  end.

(** [-(360 - x) if x > 180 else x] *)
Definition revalue (x : Qc) : Qc :=
  if Qclt_le_dec (Q2Qc 180) x then (- (Q2Qc 360 - x))%Qc else x.

(** The three columns [col], [col_Rev] and [col_Rev_Diff] of one axis. *)
Definition angle_columns (a : list Qc) : list (Qc * Qc * Qc) :=
  let rev := map revalue a in
  let rev_diff :=
    map (fun c => Series.fillna 0%Qc (Series.abs c)) (Series.diff rev) in
  combine (combine a rev) rev_diff.

(** [df['Time'].diff().clip(lower=0).fillna(0)] *)
Definition time_diff (time : list Qc) : list Qc :=
  map (fun c => Series.fillna 0%Qc (Series.clip_lower 0%Qc c))
      (Series.diff time).

Definition assemble (df : list Raw.row) (td : list Qc)
    (xs ys zs : list (Qc * Qc * Qc)) : list Sample.row :=
  map (fun '(r, d, (xa, xr, xd), (ya, yr, yd), (za, zr, zd)) =>
         Sample.mk (Raw.Target_Name r) (Raw.X r) (Raw.Z r)
                   xa xr xd ya yr yd za zr zd
                   (Raw.Lapsed_Time r) d)
      (combine (combine (combine (combine df td) xs) ys) zs).

Section Normalizer.

(** [float(text)]: the number a text denotes, if it denotes one. *)
Variable parse_float : string -> option Qc.

Definition astype_float (s : string) : result Qc :=
  match parse_float s with
  | Some q => ret q
  | None => inl ValueError
  end.

Definition process_raw_data (csv : list Raw.row) : result (list Sample.row) :=
  (* skip the three metadata rows *)
  let df := skipn 3 csv in
  let td := time_diff (map Raw.Lapsed_Time df) in
  x_euler <- mapM (fun r => astype_float (str_drop_first (Raw.X_Euler_Angle r))) df ;;
  z_euler <- mapM (fun r => astype_float (str_drop_last (Raw.Z_Euler_Angle r))) df ;;
  let y_euler := map Raw.Y_Euler_Angle df in
  let rows :=
    assemble df td (angle_columns x_euler) (angle_columns y_euler)
             (angle_columns z_euler) in
  ret (filter (fun s => negb (String.eqb (Sample.Target_Name s) MISSION_COMPLETE))
              rows).

End Normalizer.

(** ** Metric Engine: [calculate_all_metrics] *)

Definition TARGET_ORDER : list string :=
  [ "Automobile shop"; "Police station "; "Fire Station"; "Bank";
    "Pawn Shop"; "Pizzeria"; "Quattroki Restaurant"; "High School" ]%string.

Definition START_X : Qc := 0%Qc.
Definition START_Z : Qc := Q2Qc (-41 # 10).

Definition pos : Type := (Qc * Qc)%type.

Definition pos_eqb (p q : pos) : bool :=
  Qc_eq_bool (fst p) (fst q) && Qc_eq_bool (snd p) (snd q).

Definition Qc_leb (a b : Qc) : bool :=
  if Qclt_le_dec b a then false else true.

(** Order of the group keys [(X, Z)]: by X, then by Z. *)
Definition pos_leb (p q : pos) : bool :=
  if Qc_eq_bool (fst p) (fst q) then Qc_leb (snd p) (snd q)
  else Qc_leb (fst p) (fst q).

Definition position (s : Sample.row) : pos := (Sample.X s, Sample.Z s).

Definition sqdist (p q : pos) : Qc :=
  let dx := (fst q - fst p)%Qc in
  let dz := (snd q - snd p)%Qc in
  (dx * dx + dz * dz)%Qc.

(** [np.sqrt((x2 - x1)**2 + (z2 - z1)**2)] *)
Definition dist (p q : pos) : R := sqrt (Q2R (sqdist p q)).

(** One row of the result frame. *)
Module Metrics.
Record row : Type := mk {
  Target_Name : string;
  Total_Time : Qc;
  Orientation_Time : Qc;
  Navigation_Time : Qc;
  Distance : R;
  Speed : R;
  Mean_Dwell : Qc;
  Teleportations : nat;
  Mean_Teleport_Distance : R
}.
End Metrics.

Definition at_start (s : Sample.row) : bool :=
  Qc_eq_bool (Sample.X s) START_X && Qc_eq_bool (Sample.Z s) START_Z.

(** [np.sqrt(dx**2 + dz**2)] on two columns; NaN where either is NaN. *)
Definition sqrt_sq_sum (dx dz : Series.cell) : Series.rcell :=
  match dx, dz with
  | Some a, Some b => Some (sqrt (Q2R (a * a + b * b)%Qc))
  | _, _ => None
  end.

Definition distance (group : list Sample.row) : R :=
  let unique_pos := drop_duplicates pos_eqb position group in
  let dx := Series.diff (map Sample.X unique_pos) in
  let dz := Series.diff (map Sample.Z unique_pos) in
  Series.rsum_skipna (map (fun '(a, b) => sqrt_sq_sum a b) (combine dx dz)).

Definition speed (distance : R) (navigation_time : Qc) : R :=
  if Qclt_le_dec 0%Qc navigation_time
  then (distance / Q2R navigation_time)%R
  else 0%R.

(** [pos_group['Time'].iloc[-1] - pos_group['Time'].iloc[0]] *)
Definition dwell (pos_group : list Sample.row) : Qc :=
  let t := map Sample.Time pos_group in
  (last t 0 - hd 0 t)%Qc.

Definition dwell_times (group : list Sample.row) : list Qc :=
  map (fun kg => dwell (snd kg)) (groupby pos_eqb pos_leb position group).

Definition mean_dwell (group : list Sample.row) : Qc :=
  let dwell_times := dwell_times group in
  if 1 <? length dwell_times
  then Series.mean (tl dwell_times)
  else 0%Qc.

Definition teleportations (group : list Sample.row) : nat :=
  length (drop_duplicates pos_eqb (fun p : pos => p) (map position group)).

(** The loop over [group.iterrows()] with the [seen] set. *)
Definition unique_positions (group : list Sample.row) : list pos :=
  map position (keep_first_from pos_eqb position [] group).

(** [dist] between entries [i-1] and [i], for [i] from 1. *)
Fixpoint teleport_distances (ps : list pos) : list R :=
  match ps with
  | p :: (q :: _) as t => dist p q :: teleport_distances t
  | _ => []
  end.

Definition mean_teleport_distance (group : list Sample.row) : R :=
  let unique_positions := unique_positions group in
  if 1 <? length unique_positions
  then Series.rmean (teleport_distances unique_positions)
  else 0%R.

(** The body of the loop over the destination groups. *)
Definition target_metrics (target_name : string) (group : list Sample.row)
  : Metrics.row :=
  let total_time := Series.sum (map Sample.Time_Diff group) in
  let orientation_time :=
    Series.sum (map Sample.Time_Diff (filter at_start group)) in
  let navigation_time := (total_time - orientation_time)%Qc in
  let distance := distance group in
  Metrics.mk target_name total_time orientation_time navigation_time
             distance (speed distance navigation_time)
             (mean_dwell group) (teleportations group)
             (mean_teleport_distance group).

(** A result frame indexed by destination; a row of [None] is a row
    that [reindex] filled with NaN. *)
Definition frame : Type := list (string * option Metrics.row).

Definition index_of (results : list Metrics.row) : list string :=
  map Metrics.Target_Name results.

(** [df.reindex(labels)] on a frame with a unique index. *)
Definition reindex (labels : list string) (results : list Metrics.row) : frame :=
  map (fun t =>
         (t, find (fun m => String.eqb (Metrics.Target_Name m) t) results))
      labels.

(** The list [results] after the loop over [data.groupby('Target_Name')]. *)
Definition per_target_results (data : list Sample.row) : list Metrics.row :=
  map (fun ng => target_metrics (fst ng) (snd ng))
      (groupby String.eqb String.leb Sample.Target_Name data).

(** The function with the canonical order as an argument;
    [calculate_all_metrics] below fixes it to [TARGET_ORDER]. *)
Definition calculate_all_metrics_in (order : list string)
    (data : list Sample.row) : result frame :=
  let results := per_target_results data in
  (* pd.DataFrame([]) has no column to index by *)
  df_results <- match results with
                | [] => inl KeyError
                | _ => ret results
                end ;;
  let available_targets :=
    filter (fun t => existsb (String.eqb t) (index_of df_results)) order in
  ret (reindex available_targets df_results).

Definition calculate_all_metrics (data : list Sample.row) : result frame :=
  calculate_all_metrics_in TARGET_ORDER data.

(** ** Result tables as the CSV files hold them *)

Module Table.

(** [metric_cols] *)
Inductive column : Type :=
| Total_Time | Orientation_Time | Navigation_Time
| Distance | Speed | Mean_Dwell
| Teleportations | Mean_Teleport_Distance.

Definition metric_cols : list column :=
  [ Total_Time; Orientation_Time; Navigation_Time;
    Distance; Speed; Mean_Dwell;
    Teleportations; Mean_Teleport_Distance ].

(** The statistics of one row; an empty CSV field reads as NaN. *)
Record cells : Type := mk {
  total_time : Series.cell;
  orientation_time : Series.cell;
  navigation_time : Series.cell;
  distance : Series.cell;
  speed : Series.cell;
  mean_dwell : Series.cell;
  teleportations : Series.cell;
  mean_teleport_distance : Series.cell
}.

Definition nan_cells : cells :=
  mk None None None None None None None None.

Definition get (c : column) (r : cells) : Series.cell :=
  match c with
  | Total_Time => total_time r
  | Orientation_Time => orientation_time r
  | Navigation_Time => navigation_time r
  | Distance => distance r
  | Speed => speed r
  | Mean_Dwell => mean_dwell r
  | Teleportations => teleportations r
  | Mean_Teleport_Distance => mean_teleport_distance r
  end.

Definition set (c : column) (v : Series.cell) (r : cells) : cells :=
  match c with
  | Total_Time =>
      mk v (orientation_time r) (navigation_time r) (distance r)
         (speed r) (mean_dwell r) (teleportations r) (mean_teleport_distance r)
  | Orientation_Time =>
      mk (total_time r) v (navigation_time r) (distance r)
         (speed r) (mean_dwell r) (teleportations r) (mean_teleport_distance r)
  | Navigation_Time =>
      mk (total_time r) (orientation_time r) v (distance r)
         (speed r) (mean_dwell r) (teleportations r) (mean_teleport_distance r)
  | Distance =>
      mk (total_time r) (orientation_time r) (navigation_time r) v
         (speed r) (mean_dwell r) (teleportations r) (mean_teleport_distance r)
  | Speed =>
      mk (total_time r) (orientation_time r) (navigation_time r) (distance r)
         v (mean_dwell r) (teleportations r) (mean_teleport_distance r)
  | Mean_Dwell =>
      mk (total_time r) (orientation_time r) (navigation_time r) (distance r)
         (speed r) v (teleportations r) (mean_teleport_distance r)
  | Teleportations =>
      mk (total_time r) (orientation_time r) (navigation_time r) (distance r)
         (speed r) (mean_dwell r) v (mean_teleport_distance r)
  | Mean_Teleport_Distance =>
      mk (total_time r) (orientation_time r) (navigation_time r) (distance r)
         (speed r) (mean_dwell r) (teleportations r) v
  end.

Definition column_eqb (a b : column) : bool :=
  match a, b with
  | Total_Time, Total_Time
  | Orientation_Time, Orientation_Time
  | Navigation_Time, Navigation_Time
  | Distance, Distance
  | Speed, Speed
  | Mean_Dwell, Mean_Dwell
  | Teleportations, Teleportations
  | Mean_Teleport_Distance, Mean_Teleport_Distance => true
  | _, _ => false
  end.

(** NaN-propagating subtraction of two cells. *)
Definition sub (a b : Series.cell) : Series.cell :=
  match a, b with
  | Some x, Some y => Some (x - y)%Qc
  | _, _ => None
  end.

End Table.

(** A row of [b<k>_results.csv]. *)
Module Block.
Record row : Type := mk {
  Target_Name : string;
  stats : Table.cells
}.
End Block.

(** A row of [merged_results.csv]. *)
Module Merged.
Record row : Type := mk {
  Participant : string;
  Block_Num : nat;
  Target_Name : string;
  stats : Table.cells
}.
End Merged.

(** A row of [averaged_results.csv]. *)
Module Averaged.
Record row : Type := mk {
  Participant : string;
  Block_Num : nat;
  stats : Table.cells
}.
End Averaged.

(** ** Aggregator: [average_metrics] *)

Section Aggregator.

(** [pd.read_csv] of [<data_folder>/<pid>/b<k>_results.csv]; [None]
    when the file does not exist. *)
Variable read_csv : string -> nat -> option (list Block.row).

(** [df[col].mean()] *)
Definition column_mean (col : Table.column) (df : list Block.row)
  : Series.cell :=
  Series.mean_skipna (map (fun r => Table.get col (Block.stats r)) df).

(** The dictionary [row] after the loop over [metric_cols]. *)
Definition average_row (pid : string) (block_num : nat)
    (df : list Block.row) : Averaged.row :=
  Averaged.mk pid block_num
    (fold_left (fun row col => Table.set col (column_mean col df) row)
               Table.metric_cols Table.nan_cells).

Definition average_metrics (participant_ids : list string)
  : list Averaged.row :=
  flat_map
    (fun pid =>
       flat_map
         (fun block_num =>
            match read_csv pid block_num with
            | Some df => [average_row pid block_num df]
            | None => []   (* FileNotFoundError: warning only *)
            end)
         [1; 2; 3])
    participant_ids.

End Aggregator.

(** ** Corrector: [fix_erroneous_data] *)

Definition condition (participant : string) (block_num : nat)
    (target_name : string) (r : Merged.row) : bool :=
  String.eqb (Merged.Participant r) participant
  && Nat.eqb (Merged.Block_Num r) block_num
  && String.eqb (Merged.Target_Name r) target_name.

Definition update_stats (f : Table.cells -> Table.cells) (r : Merged.row)
  : Merged.row :=
  Merged.mk (Merged.Participant r) (Merged.Block_Num r)
            (Merged.Target_Name r) (f (Merged.stats r)).

(** [df.loc[cond, ...] = ...]: the rows selected by [cond] are
    rewritten, the others are kept. *)
Definition loc_update (cond : Merged.row -> bool)
    (f : Table.cells -> Table.cells) (df : list Merged.row)
  : list Merged.row :=
  map (fun r => if cond r then update_stats f r else r) df.

(** The two files are the state: the function returns their new
    contents. *)
Definition fix_erroneous_data
    (df_merged : list Merged.row) (df_averaged : list Averaged.row)
    (participant : string) (block_num : nat) (target_name : string)
    (column_to_fix : Table.column)
  : list Merged.row * list Averaged.row :=
  let cond := condition participant block_num target_name in
  if negb (existsb cond df_merged) then (df_merged, df_averaged)
  else
    let df_merged :=
      if Table.column_eqb column_to_fix Table.Orientation_Time then
        let old_orientation :=
          match filter cond df_merged with
          | r :: _ => Table.orientation_time (Merged.stats r)
          | [] => None
          end in
        loc_update cond
          (fun s => Table.set Table.Total_Time
                      (Table.sub (Table.total_time s) old_orientation) s)
          df_merged
      else df_merged in
    let df_merged :=
      loc_update cond (Table.set column_to_fix None) df_merged in
    let participant_data :=
      filter (fun r => String.eqb (Merged.Participant r) participant)
             df_merged in
    let valid_values :=
      Series.dropna
        (map (fun r => Table.get column_to_fix (Merged.stats r))
             participant_data) in
    if 0 <? length valid_values then
      let new_avg := Series.mean valid_values in
      let participant_condition (a : Averaged.row) :=
        String.eqb (Averaged.Participant a) participant in
      if existsb participant_condition df_averaged then
        (df_merged,
         map (fun a =>
                if participant_condition a
                then Averaged.mk (Averaged.Participant a) (Averaged.Block_Num a)
                       (Table.set column_to_fix (Some new_avg) (Averaged.stats a))
                else a)
             df_averaged)
      else (df_merged, df_averaged)
    else (df_merged, df_averaged).

(** ** Metric Engine: [calculate_block_metrics] *)

Section BlockMetrics.

Variable parse_float : string -> option Qc.

(** [pd.read_csv] of [<data_folder>/<pid>/Saved_data_<pid>_t<k>.csv];
    [None] when the file does not exist. *)
Variable read_raw : string -> nat -> option (list Raw.row).

(** [None] is the [FileNotFoundError] of [pd.read_csv]. *)
Definition calculate_block_metrics (participant_id : string) (block_num : nat)
  : option (result frame) :=
  match read_raw participant_id block_num with
  | None => None
  | Some csv =>
      Some (data <- process_raw_data parse_float csv ;;
            calculate_all_metrics data)
  end.

End BlockMetrics.

(** The rows of a frame that hold statistics. *)
Definition frame_metrics (rows : frame) : list Metrics.row :=
  flat_map (fun r => match snd r with
                     | Some m => [m]
                     | None => []
                     end) rows.

(** Destination, position and time of a row, before and after
    normalization. *)
Definition raw_fields (r : Raw.row) : string * Qc * Qc * Qc :=
  (Raw.Target_Name r, Raw.X r, Raw.Z r, Raw.Lapsed_Time r).

Definition sample_fields (s : Sample.row) : string * Qc * Qc * Qc :=
  (Sample.Target_Name s, Sample.X s, Sample.Z s, Sample.Time s).

(** ** Notions of the specification *)

Definition pos_eq_dec (p q : pos) : {p = q} + {p <> q}.
Proof. decide equality; apply Qc_eq_dec. Defined.

(** Number of distinct elements of a list of positions. *)
Definition distinct_count (ps : list pos) : nat :=
  length (nodup pos_eq_dec ps).

(** Sum of the Euclidean distances between consecutive positions. *)
Fixpoint path_length (ps : list pos) : R :=
  match ps with
  | p :: (q :: _) as t => (dist p q + path_length t)%R
  | _ => 0%R
  end.

(** The destination group of a label: the samples that carry it, in
    their original order. *)
Definition destination_group (t : string) (data : list Sample.row)
  : list Sample.row :=
  filter (fun s => String.eqb (Sample.Target_Name s) t) data.

(** Dwell per bucket with the buckets in the order in which their
    positions are first met in the group. *)
Definition dwell_times_by_first_encounter (group : list Sample.row)
  : list Qc :=
  map (fun s => dwell (rows_of pos_eqb position (position s) group))
      (drop_duplicates pos_eqb position group).

(** The mean dwell as the specification words it: the first bucket met
    is left out, the others are averaged; 0 with fewer than two. *)
Definition mean_dwell_by_first_encounter (group : list Sample.row) : Qc :=
  let d := dwell_times_by_first_encounter group in
  if 1 <? length d then Series.mean (tl d) else 0%Qc.

(** ** Concrete sessions and tables *)

Definition sample_at (target : string) (p : pos) (time delta : Q)
  : Sample.row :=
  Sample.mk target (fst p) (snd p)
            0%Qc 0%Qc 0%Qc 0%Qc 0%Qc 0%Qc 0%Qc 0%Qc 0%Qc
            (Q2Qc time) (Q2Qc delta).

Definition start_position : pos := (START_X, START_Z).
Definition far_position : pos := (Q2Qc 5, Q2Qc 5).

(** Three samples at (0,-4.1), three at (5,5), one more at (0,-4.1);
    every time delta is 1. *)
Definition example_group : list Sample.row :=
  [ sample_at "Bank" start_position 0 1;
    sample_at "Bank" start_position 1 1;
    sample_at "Bank" start_position 2 1;
    sample_at "Bank" far_position 3 1;
    sample_at "Bank" far_position 4 1;
    sample_at "Bank" far_position 5 1;
    sample_at "Bank" start_position 6 1 ].

Definition west_position : pos := (Q2Qc (-5), Q2Qc 5).

(** A trial that starts at (0,-4.1) and then stays at (-5,5). *)
Definition dwell_group : list Sample.row :=
  [ sample_at "Bank" start_position 0 0;
    sample_at "Bank" start_position 1 1;
    sample_at "Bank" start_position 2 1;
    sample_at "Bank" west_position 3 1;
    sample_at "Bank" west_position 4 1;
    sample_at "Bank" west_position 10 6 ].

Definition still_group : list Sample.row :=
  [ sample_at "Bank" start_position 0 0;
    sample_at "Bank" start_position 1 1 ].

Definition shuffled_group : list Sample.row :=
  [ sample_at "Bank" far_position 0 0;
    sample_at "Bank" start_position 1 1;
    sample_at "Bank" far_position 2 1 ].

(** Destinations D3 then D1 in the data, canonical order D1, D2, D3. *)
Definition d3_d1_data : list Sample.row :=
  [ sample_at "D3" start_position 0 0;
    sample_at "D3" far_position 1 1;
    sample_at "D1" far_position 2 1;
    sample_at "D1" start_position 3 1 ].

Definition raw_row (time : Q) (target : string) (x z : Q) : Raw.row :=
  Raw.mk (Q2Qc time) target (Q2Qc x) (Q2Qc z) "(0.0" 0%Qc "0.0)".

(** Three metadata rows, then a session whose clock steps back once. *)
Definition glitch_csv : list Raw.row :=
  [ raw_row 0 "" 0 0; raw_row 0 "" 0 0; raw_row 0 "" 0 0;
    raw_row 1 "Bank" 0 (-41 # 10);
    raw_row 3 "Bank" 0 (-41 # 10);
    raw_row 2 "Bank" 5 5;
    raw_row 4 "Bank" 5 5;
    raw_row 5 "Mission complete" 5 5 ].

Definition parse_zero (s : string) : option Qc := Some 0%Qc.

Definition glitch_data : list Sample.row :=
  match process_raw_data parse_zero glitch_csv with
  | inr data => data
  | inl _ => []
  end.

Definition cells_of (total orientation : Series.cell) (others : Q)
  : Table.cells :=
  Table.mk total orientation (Some (Q2Qc others)) (Some (Q2Qc others))
           (Some (Q2Qc others)) (Some (Q2Qc others)) (Some (Q2Qc others))
           (Some (Q2Qc others)).

Definition block_table : list Block.row :=
  [ Block.mk "Bank" (cells_of (Some (Q2Qc 10)) (Some (Q2Qc 2)) 1);
    Block.mk "Pizzeria" (cells_of (Some (Q2Qc 20)) None 3);
    Block.mk "High School" (cells_of (Some (Q2Qc 30)) (Some (Q2Qc 4)) 5) ].

Definition merged_table : list Merged.row :=
  [ Merged.mk "BNC39" 1 "Bank" (cells_of (Some (Q2Qc 10)) (Some (Q2Qc 2)) 1);
    Merged.mk "BNC39" 1 "Pawn Shop" (cells_of (Some (Q2Qc 50)) (Some (Q2Qc 40)) 3);
    Merged.mk "BNC39" 2 "Pawn Shop" (cells_of (Some (Q2Qc 9)) (Some (Q2Qc 1)) 5) ].

(** A text is a number when it is not empty. *)
Definition parse_nonempty (s : string) : option Qc :=
  match s with
  | EmptyString => None
  | String _ _ => Some 0%Qc
  end.

(** A session without sentinel rows and with a steady clock. *)
Definition steady_csv : list Raw.row :=
  [ raw_row 0 "" 0 0; raw_row 0 "" 0 0; raw_row 0 "" 0 0;
    raw_row 1 "Bank" 0 (-41 # 10);
    raw_row 3 "Bank" 0 (-41 # 10);
    raw_row 4 "Pizzeria" 5 5;
    raw_row 6 "Pizzeria" 5 6 ].

Definition steady_data : list Sample.row :=
  match process_raw_data parse_nonempty steady_csv with
  | inr data => data
  | inl _ => []
  end.

Definition steady_first : Sample.row :=
  hd (sample_at "" start_position 0 0) steady_data.

(** ** Aggregator: [merge_block_results] *)

Section Merge.

(** [pd.read_csv] of [<data_folder>/<pid>/b<k>_results.csv]; [None]
    when the file does not exist. *)
Variable read_csv : string -> nat -> option (list Block.row).

(** [df.insert(0, 'Participant', pid)] and
    [df.insert(1, 'Block_Num', block_num)] *)
Definition tag_rows (pid : string) (block_num : nat) (df : list Block.row)
  : list Merged.row :=
  map (fun r => Merged.mk pid block_num (Block.Target_Name r) (Block.stats r))
      df.

(** The list [all_results] after the two loops. *)
Definition all_results (participant_ids : list string)
  : list (list Merged.row) :=
  flat_map
    (fun pid =>
       flat_map
         (fun block_num =>
            match read_csv pid block_num with
            | Some df => [tag_rows pid block_num df]
            | None => []   (* FileNotFoundError: warning only *)
            end)
         [1; 2; 3])
    participant_ids.

Definition merge_block_results (participant_ids : list string)
  : list Merged.row :=
  match all_results participant_ids with
  | [] => []                    (* pd.DataFrame() *)
  | frames => concat frames     (* pd.concat(all_results, ignore_index=True) *)
  end.

End Merge.

(** The rows of a merged table that carry a participant and a block. *)
Definition tagged (pid : string) (block_num : nat) (r : Merged.row) : bool :=
  String.eqb (Merged.Participant r) pid && Nat.eqb (Merged.Block_Num r) block_num.

(** A merged row without its two tags. *)
Definition untag (r : Merged.row) : Block.row :=
  Block.mk (Merged.Target_Name r) (Merged.stats r).

Definition block_of (read_csv : string -> nat -> option (list Block.row))
    (pid : string) (block_num : nat) : list Block.row :=
  match read_csv pid block_num with
  | Some df => df
  | None => []
  end.

Definition bucket_dwell (group : list Sample.row) (k : pos) : Qc :=
  dwell (rows_of pos_eqb position k group).

(** Two participants, one of them without the file of block 2. *)
Definition two_participants (pid : string) (k : nat)
  : option (list Block.row) :=
  if String.eqb pid "BNC01" then
    if Nat.eqb k 2 then None else Some block_table
  else if String.eqb pid "BNC02" then
    Some [ Block.mk "Bank" (cells_of (Some (Q2Qc 7)) None 2) ]
  else None.

(** What one participant contributes to the merged table. *)
Definition participant_rows
    (read_csv : string -> nat -> option (list Block.row)) (pid : string)
  : list Merged.row :=
  flat_map (fun k => tag_rows pid k (block_of read_csv pid k)) [1; 2; 3].

(** The key of a merged record. *)
Definition merged_key (r : Merged.row) : string * nat * string :=
  (Merged.Participant r, Merged.Block_Num r, Merged.Target_Name r).

(** The statistics of a record after its correction, when it is the
    only record with the key. *)
Definition corrected_cells (col : Table.column) (s : Table.cells)
  : Table.cells :=
  Table.set col None
    (if Table.column_eqb col Table.Orientation_Time
     then Table.set Table.Total_Time
            (Table.sub (Table.total_time s) (Table.orientation_time s)) s
     else s).

(** The row of the averaged table with one statistic replaced. *)
Definition with_average (col : Table.column) (v : Qc) (a : Averaged.row)
  : Averaged.row :=
  Averaged.mk (Averaged.Participant a) (Averaged.Block_Num a)
              (Table.set col (Some v) (Averaged.stats a)).

Definition averaged_table : list Averaged.row :=
  [ Averaged.mk "BNC39" 1 (cells_of (Some (Q2Qc 30)) (Some (Q2Qc 21)) 2);
    Averaged.mk "BNC39" 2 (cells_of (Some (Q2Qc 9)) (Some (Q2Qc 1)) 5);
    Averaged.mk "BNC40" 1 (cells_of (Some (Q2Qc 8)) (Some (Q2Qc 3)) 4) ].

(** ** Runner: [get_participant_ids] *)

(** [entries] are the names that [os.listdir(data_folder)] returns, each
    with the answer of [os.path.isdir] for it. *)
Definition get_participant_ids (entries : list (string * bool))
  : list string :=
  let participant_ids :=
    map fst
        (filter (fun e => snd e
                          && (String.prefix "BNC" (fst e)
                              || String.prefix "NAV" (fst e)))
                entries) in
  (* sorted(participant_ids) *)
  sort_keys String.leb participant_ids.

Definition listing : list (string * bool) :=
  [ ("NAV07", true); ("notes.txt", false); ("BNC12", true);
    ("BNC03", true); ("BNC99.zip", false); ("Target_Data", true) ]%string.

(** ** Trajectories: [extract_target_trajectories] *)

(** A row of a file of [Target_Data/]. *)
Module Trajectory.
Record row : Type := mk {
  Participant : string;
  Block_num : nat;
  X : Qc;
  Z : Qc;
  Target_Name : string
}.
End Trajectory.

Section KeepLast.

Variables (A K : Type).
Variable eqb : K -> K -> bool.
Variable key : A -> K.

(** [drop_duplicates(keep='last')]: a row is kept when no later row
    has its key. *)
Fixpoint drop_duplicates_last (l : list A) : list A :=
  match l with
  | [] => []
  | a :: t =>
      if existsb (fun b => eqb (key b) (key a)) t
      then drop_duplicates_last t
      else a :: drop_duplicates_last t
  end.

End KeepLast.

(** The subset [['X', 'Z', 'Target_Name']] as a key. *)
Definition trajectory_key (s : Sample.row) : pos * string :=
  (position s, Sample.Target_Name s).

Definition trajectory_key_eqb (a b : pos * string) : bool :=
  pos_eqb (fst a) (fst b) && String.eqb (snd a) (snd b).

(** [result_df] of one session and one target. *)
Definition target_rows (pid : string) (block_num : nat) (target : string)
    (data : list Sample.row) : list Trajectory.row :=
  let target_df :=
    filter (fun s => String.eqb (Sample.Target_Name s) target) data in
  let target_df :=
    drop_duplicates_last trajectory_key_eqb trajectory_key target_df in
  map (fun s => Trajectory.mk pid block_num (Sample.X s) (Sample.Z s)
                              (Sample.Target_Name s))
      target_df.

(** The two dictionaries of lists of frames.  They are total functions
    here; the program only ever looks up blocks 1 to 3 and the
    destinations of [TARGET_ORDER]. *)
Record containers : Type := mk_containers {
  block_data : nat -> string -> list (list Trajectory.row);
  all_data : string -> list (list Trajectory.row)
}.

Definition empty_containers : containers :=
  mk_containers (fun _ _ => []) (fun _ => []).

(** The body of the loop over [TARGET_ORDER] for one session. *)
Definition append_target (pid : string) (block_num : nat)
    (data : list Sample.row) (c : containers) (target : string)
  : containers :=
  match filter (fun s => String.eqb (Sample.Target_Name s) target) data with
  | [] => c   (* target_df.empty: continue *)
  | _ :: _ =>
      let result_df := target_rows pid block_num target data in
      mk_containers
        (fun k t =>
           if Nat.eqb k block_num && String.eqb t target
           then block_data c k t ++ [result_df]
           else block_data c k t)
        (fun t =>
           if String.eqb t target
           then all_data c t ++ [result_df]
           else all_data c t)
  end.

Fixpoint foldM {A S : Type} (f : S -> A -> result S) (l : list A) (s : S)
  : result S :=
  match l with
  | [] => ret s
  | a :: t => s' <- f s a ;; foldM f t s'
  end.

(** What is written to [Target_Data/]: nothing for an empty list. *)
Definition saved (frames : list (list Trajectory.row))
  : list (list Trajectory.row) :=
  match frames with
  | [] => []
  | _ :: _ => [concat frames]   (* pd.concat(..., ignore_index=True) *)
  end.

Section Trajectories.

Variable parse_float : string -> option Qc.

(** [pd.read_csv] of [<data_folder>/<pid>/Saved_data_<pid>_t<k>.csv];
    [None] when the file does not exist. *)
Variable read_raw : string -> nat -> option (list Raw.row).

(** One turn of the loop over the blocks: only [FileNotFoundError] is
    caught, an error of the Normalizer ends the function. *)
Definition session_step (pid : string) (c : containers) (block_num : nat)
  : result containers :=
  match read_raw pid block_num with
  | None => ret c
  | Some csv =>
      data <- process_raw_data parse_float csv ;;
      ret (fold_left (append_target pid block_num data) TARGET_ORDER c)
  end.

Definition collect_trajectories (participant_ids : list string)
  : result containers :=
  foldM (fun c pid => foldM (session_step pid) [1; 2; 3] c)
        participant_ids empty_containers.

(** The files [b<k>_<target>_results.csv] and [all_<target>_results.csv]
    that the function creates, with their rows. *)
Definition extract_target_trajectories (participant_ids : list string)
  : result (list (nat * string * list Trajectory.row)
            * list (string * list Trajectory.row)) :=
  c <- collect_trajectories participant_ids ;;
  ret (flat_map
         (fun block_num =>
            flat_map
              (fun target =>
                 map (fun combined => (block_num, target, combined))
                     (saved (block_data c block_num target)))
              TARGET_ORDER)
         [1; 2; 3],
       flat_map
         (fun target =>
            map (fun combined => (target, combined))
                (saved (all_data c target)))
         TARGET_ORDER).

(** The trajectory rows of one session and one target: none when the
    session has no file. *)
Definition session_rows (pid : string) (block_num : nat) (target : string)
  : list Trajectory.row :=
  match read_raw pid block_num with
  | None => []
  | Some csv =>
      match process_raw_data parse_float csv with
      | inr data => target_rows pid block_num target data
      | inl _ => []
      end
  end.

End Trajectories.

Definition trajectory_position (r : Trajectory.row) : pos :=
  (Trajectory.X r, Trajectory.Z r).

(** The frame that one session appends for one target: none when the
    session has no sample of the target. *)
Definition frames_of (data : list Sample.row) (pid : string) (block_num : nat)
    (target : string) : list (list Trajectory.row) :=
  match filter (fun s => String.eqb (Sample.Target_Name s) target) data with
  | [] => []
  | _ :: _ => [target_rows pid block_num target data]
  end.

Definition session_frames (parse_float : string -> option Qc)
    (read_raw : string -> nat -> option (list Raw.row))
    (pid : string) (block_num : nat) (target : string)
  : list (list Trajectory.row) :=
  match read_raw pid block_num with
  | None => []
  | Some csv =>
      match process_raw_data parse_float csv with
      | inr data => frames_of data pid block_num target
      | inl _ => []
      end
  end.

(** One participant with the raw file of block 1 only. *)
Definition one_session (pid : string) (k : nat) : option (list Raw.row) :=
  if String.eqb pid "BNC01" && Nat.eqb k 1 then Some steady_csv else None.

Definition one_session_files
  : list (nat * string * list Trajectory.row)
    * list (string * list Trajectory.row) :=
  match extract_target_trajectories parse_nonempty one_session
                                    ["BNC01"%string] with
  | inr files => files
  | inl _ => ([], [])
  end.

(** A session whose X angle text is a lone bracket. *)
Definition broken_session (pid : string) (k : nat) : option (list Raw.row) :=
  if Nat.eqb k 2
  then Some [ raw_row 0 "" 0 0; raw_row 0 "" 0 0; raw_row 0 "" 0 0;
              Raw.mk (Q2Qc 1) "Bank" 0%Qc 0%Qc "(" 0%Qc "0.0)" ]
  else None.

(** ** Organizer: [organize_and_rename_files] *)

Section Organizer.

(** What a path of the file system holds. *)
Variable File : Type.

(** [os.path.join] *)
Variable path_join : string -> string -> string.

Definition file_system : Type := string -> option File.

(** [shutil.move(src, dest)] where [dest] is not a directory: the
    content of [src] is then found at [dest], and [src] is gone. *)
Definition move (src dest : string) (fs : file_system) : file_system :=
  fun p =>
    if String.eqb p dest then fs src
    else if String.eqb p src then None
    else fs p.

(** The dictionary [results]. *)
Definition results : Type := list (string * option string).

(** [results[key] = v] *)
Fixpoint results_set (key : string) (v : option string) (r : results)
  : results :=
  match r with
  | [] => [(key, v)]
  | (k, w) :: t =>
      if String.eqb k key then (k, v) :: t else (k, w) :: results_set key v t
  end.

(** [results.get(key)] *)
Definition results_get (key : string) (r : results) : option string :=
  match find (fun kv => String.eqb (fst kv) key) r with
  | Some (_, v) => v
  | None => None
  end.

(** The body of the two loops, for the files of [folder]. *)
Definition organize_step (folder data_folder : string)
    (st : file_system * results) (entry : string * string)
  : file_system * results :=
  let '(file_type, prefix) := entry in
  let src := path_join folder (file_type ++ "_results.csv") in
  let dest :=
    path_join data_folder (prefix ++ "_" ++ file_type ++ "_results.csv") in
  match fst st src with
  | Some _ =>     (* os.path.exists(src) *)
      (move src dest (fst st),
       results_set (prefix ++ "_" ++ file_type) (Some dest) (snd st))
  | None =>
      (fst st, results_set (prefix ++ "_" ++ file_type) None (snd st))
  end.

Definition organize_and_rename_files (data_folder ya_subfolder
    oa_subfolder : string) (fs : file_system)
  : file_system
    * (option string * option string * option string * option string) :=
  let ya_folder := path_join data_folder ya_subfolder in
  let oa_folder := path_join data_folder oa_subfolder in
  let st := (fs, []) in
  let st := fold_left (organize_step ya_folder data_folder)
                      [("merged", "ya"); ("averaged", "ya")]%string st in
  let st := fold_left (organize_step oa_folder data_folder)
                      [("merged", "oa"); ("averaged", "oa")]%string st in
  (fst st,
   (results_get "ya_merged" (snd st), results_get "ya_averaged" (snd st),
    results_get "oa_merged" (snd st), results_get "oa_averaged" (snd st))).

(** Source and destination of one of the four files. *)
Definition source_path (data_folder subfolder file_type : string) : string :=
  path_join (path_join data_folder subfolder) (file_type ++ "_results.csv").

Definition dest_path (data_folder prefix file_type : string) : string :=
  path_join data_folder (prefix ++ "_" ++ file_type ++ "_results.csv").

(** Where a path that exists is moved to. *)
Definition moved_to (fs : file_system) (src dest : string) : option string :=
  match fs src with
  | Some _ => Some dest
  | None => None
  end.

(** What is at [dest] after the move of [src], if [src] exists. *)
Definition after_move (fs : file_system) (src dest : string) : option File :=
  match fs src with
  | Some f => Some f
  | None => fs dest
  end.

End Organizer.

(** One move of the organizer on the file system alone. *)
Definition move_if_exists (File : Type) (src dest : string)
    (fs : file_system File) : file_system File :=
  match fs src with
  | Some _ => move src dest fs
  | None => fs
  end.

(** A file system with the two files of the young adults only. *)
Definition ya_only (p : string) : option nat :=
  if String.eqb p "data/YA_Data/merged_results.csv" then Some 1
  else if String.eqb p "data/YA_Data/averaged_results.csv" then Some 2
  else None.

Definition slash_join (a b : string) : string := a ++ "/" ++ b.

(** A block file whose only row has no orientation time. *)
Definition nan_block : list Block.row :=
  [ Block.mk "Pizzeria" (cells_of (Some (Q2Qc 20)) None 3) ].

(** ** The time statistics on binary64 numbers

    The time columns and the three time statistics of a group, on
    float64 values and with the operations of the program: [diff],
    [clip] and [fillna] of pandas for [Time_Diff], and for
    [Series.sum] the reduction [numpy.add.reduce], which adds a
    contiguous column by pairwise summation.  The angle columns and the
    statistics of the positions play no part in the three times and
    are left out.  A decimal numeral denotes the nearest binary64
    number, as it does in Python. *)
Module Float64.
Import PrimFloat.
Local Set Warnings "-inexact-float".

Fixpoint diff_from (prev : float) (l : list float) : list float :=
  match l with
  | [] => []
  | x :: t => (x - prev)%float :: diff_from x t
  end.

(** [Series.diff()]: the first entry is NaN. *)
Definition diff (l : list float) : list float :=
  match l with
  | [] => []
  | x :: t => nan :: diff_from x t
  end.

Definition isna (x : float) : bool := negb (x =? x)%float.

(** [clip(lower=lo)]: entries that are NaN or at least [lo] are kept. *)
Definition clip_lower (lo x : float) : float :=
  if isna x || (lo <=? x)%float then x else lo.

Definition fillna (d x : float) : float := if isna x then d else x.

(** [df['Time'].diff().clip(lower=0).fillna(0)] *)
Definition time_diff (time : list float) : list float :=
  map (fun x => fillna 0%float (clip_lower 0%float x)) (diff time).

(** [for (; i < n; i++) res += a[i]] *)
Definition add_seq (res : float) (a : list float) : float :=
  fold_left add a res.

(** [r[j] += a[i + j]] for the eight accumulators. *)
Fixpoint add_lanes (r a : list float) : list float :=
  match r, a with
  | x :: r', y :: a' => (x + y)%float :: add_lanes r' a'
  | _, _ => r
  end.

(** [k] turns of the loop that adds eight entries to the accumulators. *)
Fixpoint blocks (k : nat) (r a : list float) : list float * list float :=
  match k with
  | O => (r, a)
  | S k' => blocks k' (add_lanes r (firstn 8 a)) (skipn 8 a)
  end.

(** The branch [8 <= n <= 128] of the pairwise sum: eight accumulators
    over the whole blocks of eight, added as a tree, then the entries
    left over one after the other. *)
Definition unrolled (a : list float) : float :=
  let n := length a in
  let '(r, rest) := blocks (n / 8 - 1) (firstn 8 a) (skipn 8 a) in
  match r with
  | [r0; r1; r2; r3; r4; r5; r6; r7] =>
      add_seq (((r0 + r1) + (r2 + r3)) + ((r4 + r5) + (r6 + r7)))%float rest
  | _ => nan
  end.

(** [DOUBLE_pairwise_sum] of numpy; the recursion halves the length,
    so [length a] turns are enough.  The sign of a sum that is zero is
    not followed. *)
Fixpoint pairwise_sum (fuel : nat) (a : list float) : float :=
  let n := length a in
  if n <? 8 then add_seq 0%float a
  else if n <=? 128 then unrolled a
  else match fuel with
       | O => nan
       | S fuel' =>
           let n2 := n / 2 - (n / 2) mod 8 in
           (pairwise_sum fuel' (firstn n2 a)
            + pairwise_sum fuel' (skipn n2 a))%float
       end.

(** [numpy.add.reduce] on a contiguous column. *)
Definition sum (a : list float) : float :=
  (0 + pairwise_sum (length a) a)%float.

(** [Series.sum()], which takes NaN as 0. *)
Definition nansum (a : list float) : float := sum (map (fillna 0%float) a).

Module Raw.
Record row : Type := mk {
  Lapsed_Time : float;
  Target_Name : string;
  X : float;
  Z : float
}.
End Raw.

Module Sample.
Record row : Type := mk {
  Target_Name : string;
  X : float;
  Z : float;
  Time : float;
  Time_Diff : float
}.
End Sample.

Definition process_raw_data (csv : list Raw.row) : list Sample.row :=
  let df := skipn 3 csv in
  let td := time_diff (map Raw.Lapsed_Time df) in
  let rows :=
    map (fun '(r, d) =>
           Sample.mk (Raw.Target_Name r) (Raw.X r) (Raw.Z r)
                     (Raw.Lapsed_Time r) d)
        (combine df td) in
  filter (fun s => negb (String.eqb (Sample.Target_Name s) MISSION_COMPLETE))
         rows.

Definition START_X : float := 0%float.
Definition START_Z : float := (-4.1)%float.

Definition at_start (s : Sample.row) : bool :=
  (Sample.X s =? START_X)%float && (Sample.Z s =? START_Z)%float.

Definition total_time (group : list Sample.row) : float :=
  nansum (map Sample.Time_Diff group).

Definition orientation_time (group : list Sample.row) : float :=
  nansum (map Sample.Time_Diff (filter at_start group)).

Definition navigation_time (group : list Sample.row) : float :=
  (total_time group - orientation_time group)%float.

(** [Total_Time] of every group of [data.groupby('Target_Name')]. *)
Definition total_times (data : list Sample.row) : list (string * float) :=
  map (fun '(name, group) => (name, total_time group))
      (groupby String.eqb String.leb Sample.Target_Name data).

Definition raw_row (t : float) (name : string) (x z : float) : Raw.row :=
  Raw.mk t name x z.

Definition metadata : list Raw.row :=
  [ raw_row 0 "" 0 0; raw_row 0 "" 0 0; raw_row 0 "" 0 0 ]%float.

(** A session to the bank whose clock steps back once, at the one
    sample that is not at the start. *)
Definition glitch_session : list Raw.row :=
  metadata
  ++ [ raw_row 0.0 "Bank" 0 (-4.1); raw_row 0.1 "Bank" 0 (-4.1);
       raw_row 0.3 "Bank" 0 (-4.1); raw_row 0.4 "Bank" 0 (-4.1);
       raw_row 0.5 "Bank" 0 (-4.1); raw_row 0.3 "Bank" 1 (-4.1);
       raw_row 0.6 "Bank" 0 (-4.1); raw_row 0.7 "Bank" 0 (-4.1) ]%float.

(** A session to the bank with a clock that only advances; the first
    sample is not at the start, the others are. *)
Definition steady_session : list Raw.row :=
  metadata
  ++ [ raw_row 0.0 "Bank" 1 (-4.1); raw_row 0.3 "Bank" 0 (-4.1);
       raw_row 0.4 "Bank" 0 (-4.1); raw_row 0.5 "Bank" 0 (-4.1);
       raw_row 0.6 "Bank" 0 (-4.1); raw_row 0.9 "Bank" 0 (-4.1);
       raw_row 1.1 "Bank" 0 (-4.1); raw_row 1.4 "Bank" 0 (-4.1);
       raw_row 1.7 "Bank" 0 (-4.1); raw_row 1.8 "Bank" 0 (-4.1) ]%float.

(** Four samples of an advancing clock. *)
Definition short_session : list Raw.row :=
  metadata
  ++ [ raw_row 0.1 "Bank" 0 (-4.1); raw_row 0.8 "Bank" 0 (-4.1);
       raw_row 1.3 "Bank" 0 (-4.1); raw_row 1.6 "Bank" 0 (-4.1) ]%float.

Definition sample_with (name : string) (d : float) : Sample.row :=
  Sample.mk name 0 0 0 d.

(** A frame of two destinations whose samples alternate. *)
Definition two_targets : list Sample.row :=
  [ sample_with "Bank" 0.3; sample_with "Bank" 1.0;
    sample_with "Automobile shop" 0.7; sample_with "Bank" 0.5;
    sample_with "Bank" 0.5; sample_with "Automobile shop" 0.7 ]%float.

End Float64.

(** * Properties *)

(** ** Equality tests *)

Lemma Qc_eq_bool_iff (x y : Qc) : Qc_eq_bool x y = true <-> x = y.
Proof.
  unfold Qc_eq_bool.
  destruct (Qc_eq_dec x y) as [e | n]; split; intro H;
    try reflexivity; try assumption; try discriminate.
  contradiction.
Qed.

Lemma pos_eqb_iff (p q : pos) : pos_eqb p q = true <-> p = q.
Proof.
  destruct p as [px pz], q as [qx qz]; unfold pos_eqb; simpl.
  rewrite andb_true_iff, !Qc_eq_bool_iff.
  split.
  - intros [-> ->]; reflexivity.
  - intro H; inversion H; split; reflexivity.
Qed.

(** ** Keep-first de-duplication and group-by *)

Section FrameFacts.

Variables (A K : Type).
Variable eqb : K -> K -> bool.
Variable key : A -> K.
Hypothesis eqb_iff : forall a b, eqb a b = true <-> a = b.

Lemma existsb_eqb_In (k : K) (l : list K) :
  existsb (eqb k) l = true <-> In k l.
Proof.
  rewrite existsb_exists; split.
  - intros [x [Hx E]]; apply eqb_iff in E; subst; exact Hx.
  - intro H; exists k; split; [exact H | apply eqb_iff; reflexivity].
Qed.

Lemma existsb_eqb_ext (k : K) (l l' : list K) :
  (forall x, In x l <-> In x l') ->
  existsb (eqb k) l = existsb (eqb k) l'.
Proof.
  intro H.
  destruct (existsb (eqb k) l) eqn:E1, (existsb (eqb k) l') eqn:E2;
    try reflexivity.
  - apply existsb_eqb_In, H, existsb_eqb_In in E1; congruence.
  - apply existsb_eqb_In, H, existsb_eqb_In in E2; congruence.
Qed.

Lemma keep_first_from_keys (seen : list K) (l : list A) (k : K) :
  In k (map key (keep_first_from eqb key seen l)) <->
  In k (map key l) /\ ~ In k seen.
Proof.
  revert seen; induction l as [| a t IH]; intro seen; simpl.
  - tauto.
  - destruct (existsb (eqb (key a)) seen) eqn:E.
    + apply existsb_eqb_In in E.
      rewrite IH; split.
      * intros [H1 H2]; split; [right; exact H1 | exact H2].
      * intros [[H1 | H1] H2]; [subst; contradiction | split; assumption].
    + assert (Hn : ~ In (key a) seen)
        by (intro H; apply existsb_eqb_In in H; congruence).
      simpl; rewrite IH; simpl; split.
      * intros [H | [H1 H2]].
        -- subst; split; [left; reflexivity | exact Hn].
        -- split; [right; exact H1 | tauto].
      * intros [[H | H] H2]; [left; exact H |].
        destruct (eqb (key a) k) eqn:Ek.
        -- left; apply eqb_iff; exact Ek.
        -- right; split; [exact H |].
           intros [H3 | H3]; [| contradiction].
           apply eqb_iff in H3; congruence.
Qed.

Lemma keep_first_from_NoDup (seen : list K) (l : list A) :
  NoDup (map key (keep_first_from eqb key seen l)).
Proof.
  revert seen; induction l as [| a t IH]; intro seen; simpl.
  - constructor.
  - destruct (existsb (eqb (key a)) seen).
    + apply IH.
    + simpl; constructor; [| apply IH].
      rewrite keep_first_from_keys; simpl; tauto.
Qed.

Lemma keep_first_from_incl (seen : list K) (l : list A) :
  incl (keep_first_from eqb key seen l) l.
Proof.
  revert seen; induction l as [| a t IH]; intro seen; simpl.
  - apply incl_refl.
  - destruct (existsb (eqb (key a)) seen).
    + apply incl_tl, IH.
    + apply incl_cons; [left; reflexivity | apply incl_tl, IH].
Qed.

Lemma drop_duplicates_keys (l : list A) (k : K) :
  In k (map key (drop_duplicates eqb key l)) <-> In k (map key l).
Proof.
  unfold drop_duplicates; rewrite keep_first_from_keys; simpl; tauto.
Qed.

Lemma drop_duplicates_nil_inv (l : list A) :
  drop_duplicates eqb key l = [] -> l = [].
Proof.
  destruct l as [| a t]; [reflexivity | discriminate].
Qed.

(** If every row has the same key, at most one row is kept. *)
Lemma keep_first_from_constant (k : K) (seen : list K) (l : list A) :
  (forall a, In a l -> key a = k) ->
  length (keep_first_from eqb key seen l) <= 1.
Proof.
  revert seen; induction l as [| a t IH]; intros seen H; simpl.
  - lia.
  - destruct (existsb (eqb (key a)) seen) eqn:E.
    + apply IH; intros; apply H; right; assumption.
    + simpl.
      assert (Hnil : keep_first_from eqb key (key a :: seen) t = []).
      { clear IH E.
        assert (Ht : forall b, In b t -> key b = key a).
        { intros b Hb; rewrite (H a (or_introl eq_refl));
            apply H; right; exact Hb. }
        clear H; induction t as [| b u IHu]; simpl; [reflexivity |].
        rewrite (Ht b (or_introl eq_refl)).
        assert (Ea : eqb (key a) (key a) = true) by (apply eqb_iff; reflexivity).
        rewrite Ea; simpl.
        apply IHu; intros; apply Ht; right; assumption. }
      rewrite Hnil; simpl; lia.
Qed.

(** De-duplicating rows by key and de-duplicating the column of keys
    keep the same keys in the same order. *)
Lemma keep_first_from_map (seen : list K) (l : list A) :
  map key (keep_first_from eqb key seen l)
  = keep_first_from eqb (fun k : K => k) seen (map key l).
Proof.
  revert seen; induction l as [| a t IH]; intro seen; simpl; [reflexivity |].
  destruct (existsb (eqb (key a)) seen); simpl; rewrite IH; reflexivity.
Qed.

End FrameFacts.

Section GroupFacts.

Variables (A K : Type).
Variable eqb : K -> K -> bool.
Variable leb : K -> K -> bool.
Variable key : A -> K.
Hypothesis eqb_iff : forall a b, eqb a b = true <-> a = b.

Lemma insert_key_In (k x : K) (l : list K) :
  In x (insert_key leb k l) <-> x = k \/ In x l.
Proof.
  induction l as [| h t IH]; simpl.
  - intuition.
  - destruct (leb k h); simpl; [intuition |].
    rewrite IH; intuition.
Qed.

Lemma sort_keys_In (x : K) (l : list K) :
  In x (sort_keys leb l) <-> In x l.
Proof.
  induction l as [| h t IH]; simpl; [tauto |].
  rewrite insert_key_In, IH; intuition.
Qed.

Lemma insert_key_length (k : K) (l : list K) :
  length (insert_key leb k l) = S (length l).
Proof.
  induction l as [| h t IH]; simpl; [reflexivity |].
  destruct (leb k h); simpl; [reflexivity | rewrite IH; reflexivity].
Qed.

Lemma sort_keys_length (l : list K) :
  length (sort_keys leb l) = length l.
Proof.
  induction l as [| h t IH]; simpl; [reflexivity |].
  rewrite insert_key_length, IH; reflexivity.
Qed.

(** The keys of the groups are the keys of the rows. *)
Lemma groupby_keys (l : list A) (k : K) :
  In k (map fst (groupby eqb leb key l)) <-> In k (map key l).
Proof.
  unfold groupby; rewrite map_map; simpl; rewrite map_id.
  rewrite sort_keys_In; apply drop_duplicates_keys; exact eqb_iff.
Qed.

Lemma groupby_In (l : list A) (k : K) (g : list A) :
  In (k, g) (groupby eqb leb key l) -> g = rows_of eqb key k l.
Proof.
  unfold groupby; rewrite in_map_iff.
  intros [k' [E _]]; inversion E; reflexivity.
Qed.

Lemma groupby_length (l : list A) :
  length (groupby eqb leb key l) = length (drop_duplicates eqb key l).
Proof.
  unfold groupby; rewrite !length_map, sort_keys_length, length_map.
  reflexivity.
Qed.

Lemma groupby_nil_inv (l : list A) :
  groupby eqb leb key l = [] -> l = [].
Proof.
  intro H; apply (@drop_duplicates_nil_inv A K eqb key).
  apply length_zero_iff_nil; rewrite <- groupby_length, H; reflexivity.
Qed.

End GroupFacts.

(** ** First occurrences, stated by index *)

Section FirstOccurrence.

Variables (A K : Type).
Variable eqb : K -> K -> bool.
Variable key : A -> K.
Hypothesis eqb_iff : forall a b, eqb a b = true <-> a = b.

Lemma firstn_length_app (pre l : list A) :
  firstn (length pre) (pre ++ l) = pre.
Proof.
  induction pre as [| a t IH]; simpl; [| rewrite IH]; reflexivity.
Qed.

Lemma seen_test (a : A) (pre : list A) (seen : list K) :
  (forall k, In k seen <-> In k (map key pre)) ->
  existsb (fun b => eqb (key b) (key a)) pre = existsb (eqb (key a)) seen.
Proof.
  intro H.
  destruct (existsb (eqb (key a)) seen) eqn:E.
  - apply (existsb_eqb_In eqb eqb_iff), H, in_map_iff in E.
    destruct E as [b [Eb Hb]].
    apply existsb_exists; exists b; split; [exact Hb |].
    apply eqb_iff; exact Eb.
  - destruct (existsb (fun b => eqb (key b) (key a)) pre) eqn:E'; [| reflexivity].
    apply existsb_exists in E'; destruct E' as [b [Hb Eb]].
    apply eqb_iff in Eb.
    assert (Hin : In (key a) seen)
      by (apply H, in_map_iff; exists b; split; assumption).
    apply (existsb_eqb_In eqb eqb_iff) in Hin; congruence.
Qed.

Lemma keep_first_from_by_index (l pre : list A) (seen : list K) :
  (forall k, In k seen <-> In k (map key pre)) ->
  keep_first_from eqb key seen l =
  map snd
    (filter
       (fun ia =>
          negb (existsb (fun b => eqb (key b) (key (snd ia)))
                        (firstn (fst ia) (pre ++ l))))
       (combine (seq (length pre) (length l)) l)).
Proof.
  revert pre seen; induction l as [| a t IH]; intros pre seen H.
  - reflexivity.
  - cbn [keep_first_from length seq combine filter fst snd].
    rewrite firstn_length_app, (@seen_test a pre seen H).
    assert (Elen : length (pre ++ [a]) = S (length pre))
      by (rewrite length_app; simpl; lia).
    assert (Eapp : (pre ++ [a]) ++ t = pre ++ a :: t)
      by (rewrite <- app_assoc; reflexivity).
    destruct (existsb (eqb (key a)) seen) eqn:E; cbn [negb map snd].
    + rewrite (IH (pre ++ [a]) seen), Elen, Eapp; [reflexivity |].
      intro k; rewrite map_app, in_app_iff, <- H; simpl.
      apply (existsb_eqb_In eqb eqb_iff) in E.
      split; [tauto |].
      intros [Hk | [Hk | []]]; [exact Hk | subst; exact E].
    + rewrite (IH (pre ++ [a]) (key a :: seen)), Elen, Eapp; [reflexivity |].
      intro k; rewrite map_app, in_app_iff, <- H; simpl; tauto.
Qed.

Lemma drop_duplicates_first_occurrences (l : list A) :
  drop_duplicates eqb key l = first_occurrences eqb key l.
Proof.
  unfold drop_duplicates, first_occurrences.
  apply (@keep_first_from_by_index l [] []); simpl; tauto.
Qed.

End FirstOccurrence.

(** ** Path length *)

Lemma dist_nonneg (p q : pos) : (0 <= dist p q)%R.
Proof. apply sqrt_pos. Qed.

Lemma path_length_nonneg (ps : list pos) : (0 <= path_length ps)%R.
Proof.
  induction ps as [| p t IH]; simpl; [lra |].
  destruct t as [| q u]; [lra |].
  pose proof (dist_nonneg p q); lra.
Qed.

Lemma path_length_short (ps : list pos) :
  length ps <= 1 -> path_length ps = 0%R.
Proof.
  destruct ps as [| p [| q u]]; simpl; intro H; try reflexivity; lia.
Qed.

Lemma diff_path (s : Sample.row) (u : list Sample.row) :
  Series.rsum_skipna
    (map (fun '(a, b) => sqrt_sq_sum a b)
         (combine (Series.diff_from (Sample.X s) (map Sample.X u))
                  (Series.diff_from (Sample.Z s) (map Sample.Z u))))
  = path_length (position s :: map position u).
Proof.
  revert s; induction u as [| s' u IH]; intro s.
  - reflexivity.
  - cbn [map Series.diff_from combine sqrt_sq_sum path_length].
    unfold Series.rsum_skipna in *.
    cbn [Series.rdropna Series.rsum fold_right].
    fold (Series.rsum
            (Series.rdropna
               (map (fun '(a, b) => sqrt_sq_sum a b)
                    (combine (Series.diff_from (Sample.X s') (map Sample.X u))
                             (Series.diff_from (Sample.Z s') (map Sample.Z u)))))).
    rewrite IH; reflexivity.
Qed.

(** The column computation of [Distance] is the path length over the
    rows that [drop_duplicates] keeps. *)
Lemma distance_path (group : list Sample.row) :
  distance group
  = path_length (map position (drop_duplicates pos_eqb position group)).
Proof.
  unfold distance.
  destruct (drop_duplicates pos_eqb position group) as [| s u].
  - reflexivity.
  - cbn [map Series.diff combine].
    unfold Series.rsum_skipna; cbn [sqrt_sq_sum Series.rdropna].
    apply diff_path.
Qed.

(** ** Sums of time contributions *)

Lemma sum_nonneg (l : list Qc) :
  Forall (fun x => (0 <= x)%Qc) l -> (0 <= Series.sum l)%Qc.
Proof.
  induction 1 as [| x t Hx _ IH]; simpl.
  - apply Qcle_refl.
  - rewrite <- (Qcplus_0_l 0%Qc); apply Qcplus_le_compat; assumption.
Qed.

(** A selection of non-negative contributions sums to no more than all
    of them. *)
Lemma sum_filter_le (A : Type) (f : A -> Qc) (sel : A -> bool) (l : list A) :
  Forall (fun a => (0 <= f a)%Qc) l ->
  (Series.sum (map f (filter sel l)) <= Series.sum (map f l))%Qc.
Proof.
  induction 1 as [| a t Ha _ IH]; simpl.
  - apply Qcle_refl.
  - destruct (sel a); simpl.
    + apply Qcplus_le_compat; [apply Qcle_refl | exact IH].
    + rewrite <- (Qcplus_0_l (Series.sum (map f (filter sel t)))).
      apply Qcplus_le_compat; assumption.
Qed.

Lemma navigation_time_nonneg (name : string) (group : list Sample.row) :
  Forall (fun s => (0 <= Sample.Time_Diff s)%Qc) group ->
  (0 <= Metrics.Navigation_Time (target_metrics name group))%Qc.
Proof.
  intro H; simpl; unfold Qcminus.
  apply (proj1 (Qcle_minus_iff _ _)), sum_filter_le; exact H.
Qed.

(** ** The statistics of one destination group *)

(** C3: the total time of a group is the sum of its time deltas, its
    orientation time is the sum of the time deltas of the samples that
    sit exactly on the starting coordinate pair, and the total time is
    the orientation time plus the navigation time. *)
Theorem total_time_splits (name : string) (group : list Sample.row) :
  let m := target_metrics name group in
  Metrics.Total_Time m
  = (Metrics.Orientation_Time m + Metrics.Navigation_Time m)%Qc
  /\ Metrics.Total_Time m = Series.sum (map Sample.Time_Diff group)
  /\ Metrics.Orientation_Time m
     = Series.sum
         (map Sample.Time_Diff
              (filter (fun s => if pos_eq_dec (position s) (START_X, START_Z)
                                then true else false)
                      group)).
Proof.
  cbn zeta; cbn [target_metrics Metrics.Total_Time Metrics.Orientation_Time
                 Metrics.Navigation_Time].
  split; [ring |].
  split; [reflexivity |].
  f_equal; f_equal; apply filter_ext; intro s.
  unfold at_start.
  destruct (pos_eq_dec (position s) (START_X, START_Z)) as [e | n].
  - apply (pos_eqb_iff (position s) (START_X, START_Z)); exact e.
  - destruct (Qc_eq_bool (Sample.X s) START_X && Qc_eq_bool (Sample.Z s) START_Z)
      eqn:E; [| reflexivity].
    exfalso; apply n.
    apply (pos_eqb_iff (position s) (START_X, START_Z)); exact E.
Qed.

Lemma teleportations_distinct (group : list Sample.row) :
  teleportations group = distinct_count (map position group).
Proof.
  unfold teleportations, distinct_count.
  apply Permutation_length, NoDup_Permutation.
  - rewrite <- (map_id (drop_duplicates _ _ _)).
    apply (@keep_first_from_NoDup _ _ pos_eqb _ pos_eqb_iff).
  - apply NoDup_nodup.
  - intro p; rewrite nodup_In.
    rewrite <- (map_id (drop_duplicates _ _ _)).
    rewrite (@drop_duplicates_keys _ _ pos_eqb _ pos_eqb_iff), map_id; tauto.
Qed.

Lemma distinct_count_ext (ps qs : list pos) :
  (forall p, In p ps <-> In p qs) -> distinct_count ps = distinct_count qs.
Proof.
  intro H; unfold distinct_count.
  apply Permutation_length, NoDup_Permutation; try apply NoDup_nodup.
  intro p; rewrite !nodup_In; apply H.
Qed.

(** C7: the teleport count of a group is the number of distinct (x,z)
    pairs that occur in it; two groups in which the same pairs occur,
    however often and in whatever order, have the same count. *)
Theorem teleport_count_distinct_pairs (name : string) (group : list Sample.row) :
  Metrics.Teleportations (target_metrics name group)
  = distinct_count (map position group)
  /\ (forall group' : list Sample.row,
        (forall p, In p (map position group) <-> In p (map position group')) ->
        Metrics.Teleportations (target_metrics name group')
        = Metrics.Teleportations (target_metrics name group))
  /\ (forall group' : list Sample.row,
        Permutation group group' ->
        Metrics.Teleportations (target_metrics name group')
        = Metrics.Teleportations (target_metrics name group)).
Proof.
  cbn [target_metrics Metrics.Teleportations].
  split; [apply teleportations_distinct |].
  assert (Hext : forall group' : list Sample.row,
            (forall p, In p (map position group) <-> In p (map position group')) ->
            teleportations group' = teleportations group).
  { intros group' H; rewrite !teleportations_distinct.
    symmetry; apply distinct_count_ext; exact H. }
  split; [exact Hext |].
  intros group' HP; apply Hext; intro p.
  split; apply Permutation_in, Permutation_map;
    [exact HP | apply Permutation_sym; exact HP].
Qed.

(** C4: the distance of a group is the sum of the Euclidean distances
    between consecutive positions of the samples kept by first
    occurrence (a sample is kept when no earlier sample of the group
    has its position); it is never negative, and it is zero for a
    group with exactly one distinct position. *)
Theorem distance_first_occurrence_path (name : string) (group : list Sample.row) :
  let m := target_metrics name group in
  Metrics.Distance m
  = path_length (map position (first_occurrences pos_eqb position group))
  /\ (0 <= Metrics.Distance m)%R
  /\ (distinct_count (map position group) = 1 -> Metrics.Distance m = 0%R).
Proof.
  cbn zeta; cbn [target_metrics Metrics.Distance].
  rewrite distance_path.
  split; [rewrite (@drop_duplicates_first_occurrences _ _ pos_eqb position pos_eqb_iff); reflexivity |].
  split; [apply path_length_nonneg |].
  intro H1; apply path_length_short; rewrite length_map.
  unfold distinct_count in H1.
  destruct (nodup pos_eq_dec (map position group)) as [| p [| q u]] eqn:E;
    try discriminate.
  apply (@keep_first_from_constant _ _ pos_eqb position pos_eqb_iff p).
  intros s Hs.
  assert (Hin : In (position s) (nodup pos_eq_dec (map position group)))
    by (apply nodup_In, in_map; exact Hs).
  rewrite E in Hin; destruct Hin as [Hp | []]; symmetry; exact Hp.
Qed.

(** C6: the speed of a group is its distance divided by its navigation
    time when the navigation time is positive, in which case the
    divisor is not zero, and is zero when the navigation time is zero
    or negative, whatever the distance. *)
Theorem speed_guarded (name : string) (group : list Sample.row) :
  let m := target_metrics name group in
  ((0 < Metrics.Navigation_Time m)%Qc ->
     Q2R (Metrics.Navigation_Time m) <> 0%R
     /\ Metrics.Speed m
        = (Metrics.Distance m / Q2R (Metrics.Navigation_Time m))%R)
  /\ ((Metrics.Navigation_Time m <= 0)%Qc -> Metrics.Speed m = 0%R).
Proof.
  cbn zeta;
    cbn [target_metrics Metrics.Navigation_Time Metrics.Speed Metrics.Distance].
  set (nav := (Series.sum (map Sample.Time_Diff group)
               - Series.sum (map Sample.Time_Diff (filter at_start group)))%Qc).
  unfold speed; destruct (Qclt_le_dec 0%Qc nav) as [Hpos | Hle]; split.
  - intros _; split; [| reflexivity].
    apply Rgt_not_eq, Rlt_gt.
    replace 0%R with (Q2R 0) by (unfold Q2R; simpl; lra).
    apply Qlt_Rlt; exact Hpos.
  - intro H; exfalso; exact (Qclt_not_le _ _ Hpos H).
  - intro H; exfalso; exact (Qclt_not_le _ _ H Hle).
  - reflexivity.
Qed.

(** ** The result frame *)

Lemma per_target_results_In (data : list Sample.row) (m : Metrics.row) :
  In m (per_target_results data) ->
  m = target_metrics (Metrics.Target_Name m)
                     (destination_group (Metrics.Target_Name m) data).
Proof.
  unfold per_target_results; rewrite in_map_iff.
  intros [[k g] [E Hin]]; subst m; simpl.
  apply groupby_In in Hin; subst g; reflexivity.
Qed.

Lemma index_of_per_target_results (data : list Sample.row) (t : string) :
  In t (index_of (per_target_results data)) <->
  In t (map Sample.Target_Name data).
Proof.
  unfold index_of, per_target_results; rewrite map_map; simpl.
  apply (groupby_keys String.eqb String.leb Sample.Target_Name String.eqb_eq).
Qed.

Lemma per_target_results_nil_inv (data : list Sample.row) :
  per_target_results data = [] -> data = [].
Proof.
  unfold per_target_results; intro H.
  apply map_eq_nil in H; apply groupby_nil_inv in H; exact H.
Qed.

Lemma find_by_name (results : list Metrics.row) (t : string) :
  In t (index_of results) ->
  exists m, find (fun m => String.eqb (Metrics.Target_Name m) t) results = Some m
            /\ In m results /\ Metrics.Target_Name m = t.
Proof.
  induction results as [| r rs IH]; simpl; [intros [] |].
  destruct (String.eqb (Metrics.Target_Name r) t) eqn:E.
  - intros _; exists r; apply String.eqb_eq in E; auto.
  - intros [H | H].
    + apply String.eqb_eq in H; congruence.
    + destruct (IH H) as [m [H1 [H2 H3]]]; exists m; auto.
Qed.

Lemma reindex_labels (labels : list string) (results : list Metrics.row) :
  map fst (reindex labels results) = labels.
Proof.
  unfold reindex; rewrite map_map; simpl; apply map_id.
Qed.

(** What a returned frame holds: rows for the listed destinations that
    occur in the data, each with the statistics of its group. *)
Lemma calculate_all_metrics_in_inr (order : list string)
    (data : list Sample.row) (rows : frame) :
  calculate_all_metrics_in order data = inr rows ->
  map fst rows
  = filter (fun t => existsb (String.eqb t) (map Sample.Target_Name data)) order
  /\ (forall t om, In (t, om) rows ->
        om = Some (target_metrics t (destination_group t data))).
Proof.
  unfold calculate_all_metrics_in.
  destruct (per_target_results data) as [| m ms] eqn:E; [discriminate |].
  rewrite <- E; clear E m ms; cbn [bind ret].
  intro H; injection H as <-; split.
  - rewrite reindex_labels; apply filter_ext; intro t.
    apply (existsb_eqb_ext String.eqb String.eqb_eq), index_of_per_target_results.
  - intros t om Hin; unfold reindex in Hin.
    apply in_map_iff in Hin; destruct Hin as [t' [Eq Hin]].
    injection Eq as -> <-.
    apply filter_In in Hin; destruct Hin as [_ Hex].
    apply (existsb_eqb_In String.eqb String.eqb_eq) in Hex.
    destruct (find_by_name _ _ Hex) as [m [Hf [Hm Hn]]].
    rewrite Hf; f_equal.
    rewrite (per_target_results_In _ _ Hm) at 1; rewrite Hn; reflexivity.
Qed.

Lemma calculate_all_metrics_in_returns (order : list string)
    (data : list Sample.row) :
  data <> [] -> exists rows, calculate_all_metrics_in order data = inr rows.
Proof.
  intro Hne; unfold calculate_all_metrics_in.
  destruct (per_target_results data) as [| m ms] eqn:E.
  - apply per_target_results_nil_inv in E; contradiction.
  - cbn [bind ret]; eexists; reflexivity.
Qed.

(** C5: on data that is not empty the engine returns a frame whose row
    labels are the entries of the canonical list that occur in the
    data, in the order of that list; a canonical destination that does
    not occur gets no row, and no row is filled with NaN: each row
    holds the statistics of the group of its label. *)
Theorem rows_follow_canonical_order (order : list string)
    (data : list Sample.row) :
  data <> [] ->
  exists rows,
    calculate_all_metrics_in order data = inr rows
    /\ map fst rows
       = filter (fun t => existsb (String.eqb t) (map Sample.Target_Name data))
                order
    /\ (forall t, In t order -> ~ In t (map Sample.Target_Name data) ->
                  ~ In t (map fst rows))
    /\ (forall t om, In (t, om) rows ->
          om = Some (target_metrics t (destination_group t data))).
Proof.
  intro Hne.
  destruct (calculate_all_metrics_in_returns order Hne) as [rows Hr].
  destruct (calculate_all_metrics_in_inr _ _ Hr) as [Hl Hrows].
  exists rows; split; [exact Hr |].
  split; [exact Hl |].
  split; [| exact Hrows].
  intros t _ Habs Hin; rewrite Hl in Hin.
  apply filter_In in Hin; destruct Hin as [_ Hex].
  apply (existsb_eqb_In String.eqb String.eqb_eq) in Hex; contradiction.
Qed.

(** ** Time deltas of the Normalizer *)

Lemma clamped_nonneg (c : Series.cell) :
  (0 <= Series.fillna 0%Qc (Series.clip_lower 0%Qc c))%Qc.
Proof.
  destruct c as [x |]; simpl; [| apply Qcle_refl].
  destruct (Qclt_le_dec x 0%Qc) as [_ | H]; [apply Qcle_refl | exact H].
Qed.

Lemma time_diff_nonneg (time : list Qc) :
  Forall (fun d => (0 <= d)%Qc) (time_diff time).
Proof.
  unfold time_diff; apply Forall_forall; intros d Hd.
  apply in_map_iff in Hd; destruct Hd as [c [<- _]]; apply clamped_nonneg.
Qed.

Lemma assemble_time_diff (df : list Raw.row) (td : list Qc)
    (xs ys zs : list (Qc * Qc * Qc)) (s : Sample.row) :
  In s (assemble df td xs ys zs) -> In (Sample.Time_Diff s) td.
Proof.
  unfold assemble; rewrite in_map_iff.
  intros [[[[[r d] [[xa xr] xd]] [[ya yr] yd]] [[za zr] zd]] [<- Hin]]; simpl.
  do 3 apply in_combine_l in Hin.
  apply in_combine_r in Hin; exact Hin.
Qed.

Lemma process_raw_data_time_diff (parse_float : string -> option Qc)
    (csv : list Raw.row) (data : list Sample.row) :
  process_raw_data parse_float csv = inr data ->
  Forall (fun s => (0 <= Sample.Time_Diff s)%Qc) data.
Proof.
  unfold process_raw_data.
  destruct (mapM _ (skipn 3 csv)) as [e | xe]; [discriminate |].
  cbn [bind].
  destruct (mapM _ (skipn 3 csv)) as [e | ze]; [discriminate |].
  cbn [bind ret]; intro H; injection H as <-.
  apply Forall_forall; intros s Hs.
  apply filter_In in Hs; destruct Hs as [Hs _].
  apply assemble_time_diff in Hs.
  pose proof (time_diff_nonneg (map Raw.Lapsed_Time (skipn 3 csv))) as Hall.
  rewrite Forall_forall in Hall; apply Hall; exact Hs.
Qed.

(** C10, for exact sums: in the frame that the Normalizer returns every
    time delta is non-negative, so in every destination group of that
    frame the orientation time, a sum over some of the group's
    samples, does not exceed the total time, and the navigation time
    is not negative, as long as the two sums are not rounded.  The
    binary64 sums of the program do not keep this, as the section on
    binary64 numbers below shows. *)
Theorem navigation_time_nonneg_for_exact_sums (parse_float : string -> option Qc)
    (csv : list Raw.row) (data : list Sample.row) :
  process_raw_data parse_float csv = inr data ->
  Forall (fun s => (0 <= Sample.Time_Diff s)%Qc) data
  /\ (forall name group,
        In (name, group)
           (groupby String.eqb String.leb Sample.Target_Name data) ->
        let m := target_metrics name group in
        (Metrics.Orientation_Time m <= Metrics.Total_Time m)%Qc
        /\ (0 <= Metrics.Navigation_Time m)%Qc).
Proof.
  intro H; pose proof (process_raw_data_time_diff _ _ H) as Hall.
  split; [exact Hall |].
  intros name group Hin.
  assert (Hg : Forall (fun s => (0 <= Sample.Time_Diff s)%Qc) group).
  { apply groupby_In in Hin; subst group; unfold rows_of.
    apply Forall_forall; intros s Hs; apply filter_In in Hs.
    rewrite Forall_forall in Hall; apply Hall, Hs. }
  cbn zeta; split.
  - cbn [target_metrics Metrics.Orientation_Time Metrics.Total_Time].
    apply sum_filter_le; exact Hg.
  - apply navigation_time_nonneg; exact Hg.
Qed.

(** ** The time statistics on binary64 numbers *)

Section Binary64.
Import PrimFloat.
Local Set Warnings "-inexact-float".

(** The clamp holds on binary64 numbers as well: no time delta of the
    Normalizer is negative or NaN, whatever the clock column holds. *)
Lemma float_time_diff_nonneg (time : list float) :
  Forall (fun d => (0 <=? d)%float = true) (Float64.time_diff time).
Proof.
  unfold Float64.time_diff; apply Forall_forall; intros d Hd.
  apply in_map_iff in Hd; destruct Hd as [x [<- _]].
  unfold Float64.fillna, Float64.clip_lower, Float64.isna.
  destruct (x =? x)%float eqn:Ex; cbn [negb orb].
  - destruct (0 <=? x)%float eqn:E0.
    + rewrite Ex; exact E0.
    + reflexivity.
  - rewrite Ex; reflexivity.
Qed.

(** C10, as the claim words it, fails on the binary64 sums of the
    program.  The session has one destination and eight samples, at
    times 0.0, 0.1, 0.3, 0.4, 0.5, 0.3, 0.6, 0.7, all at the start but
    the sixth.  No time delta is negative, and the sixth, the only one
    that the orientation time leaves out, is 0; yet the eight deltas
    added pairwise give 0.8999999999999999 and the seven added one
    after the other give 0.9, so the navigation time is negative. *)
Lemma navigation_time_negative_by_rounding :
  let data := Float64.process_raw_data Float64.glitch_session in
  groupby String.eqb String.leb Float64.Sample.Target_Name data
  = [("Bank"%string, data)]
  /\ map Float64.Sample.Time_Diff data
     = [0; 0.1; 0.19999999999999998; 0.10000000000000003;
        0.09999999999999998; 0; 0.3; 0.09999999999999998]%float
  /\ map Float64.at_start data
     = [true; true; true; true; true; false; true; true]
  /\ Float64.total_time data = 0.8999999999999999%float
  /\ Float64.orientation_time data = 0.9%float
  /\ Float64.navigation_time data = (-1.1102230246251565e-16)%float
  /\ (Float64.navigation_time data <? 0)%float = true.
Proof. vm_compute; repeat split. Qed.

(** The same on a clock that only advances: ten samples, the first
    one not at the start; every later delta is positive. *)
Lemma navigation_time_negative_on_steady_clock :
  let data := Float64.process_raw_data Float64.steady_session in
  groupby String.eqb String.leb Float64.Sample.Target_Name data
  = [("Bank"%string, data)]
  /\ forallb (fun d => (0 <? d)%float)
             (tl (map Float64.Sample.Time_Diff data)) = true
  /\ Float64.total_time data = 1.8%float
  /\ Float64.orientation_time data = 1.8000000000000003%float
  /\ Float64.navigation_time data = (-2.220446049250313e-16)%float
  /\ (Float64.navigation_time data <? 0)%float = true.
Proof. vm_compute; repeat split. Qed.

(** On binary64 numbers the time deltas of an advancing clock need not
    add up to the last time minus the first: here to
    1.5000000000000002, against 1.6 - 0.1 = 1.5. *)
Lemma float_time_diff_sum_is_rounded :
  let data := Float64.process_raw_data Float64.short_session in
  map Float64.Sample.Time data = [0.1; 0.8; 1.3; 1.6]%float
  /\ Float64.nansum (map Float64.Sample.Time_Diff data)
     = 1.5000000000000002%float
  /\ (1.6 - 0.1 = 1.5)%float.
Proof. vm_compute; repeat split. Qed.

(** On binary64 numbers the total times of the groups need not add up
    to the sum of all time deltas of the frame: here 1.4 and 2.3 add
    up to 3.6999999999999997, the six deltas to 3.7. *)
Lemma float_total_times_sum_is_rounded :
  Float64.total_times Float64.two_targets
  = [("Automobile shop"%string, 1.4%float); ("Bank"%string, 2.3%float)]
  /\ Float64.nansum (map snd (Float64.total_times Float64.two_targets))
     = 3.6999999999999997%float
  /\ Float64.nansum (map Float64.Sample.Time_Diff Float64.two_targets)
     = 3.7%float.
Proof. vm_compute; repeat split. Qed.

End Binary64.

(** ** Cells of a table row *)

Lemma get_set_same (c : Table.column) (v : Series.cell) (r : Table.cells) :
  Table.get c (Table.set c v r) = v.
Proof. destruct c; reflexivity. Qed.

Lemma get_set_other (c c' : Table.column) (v : Series.cell) (r : Table.cells) :
  c <> c' -> Table.get c' (Table.set c v r) = Table.get c' r.
Proof. destruct c, c'; intro H; try reflexivity; contradiction. Qed.

Lemma column_eqb_iff (a b : Table.column) :
  Table.column_eqb a b = true <-> a = b.
Proof. destruct a, b; simpl; split; intro H; congruence. Qed.

(** ** Averaging *)

Lemma dropna_app (l1 l2 : list Series.cell) :
  Series.dropna (l1 ++ l2) = Series.dropna l1 ++ Series.dropna l2.
Proof.
  induction l1 as [| [x |] t IH]; simpl; [reflexivity | rewrite IH | exact IH];
    reflexivity.
Qed.

Lemma mean_skipna_spec (l : list Series.cell) :
  Series.mean_skipna l
  = match Series.dropna l with
    | [] => None
    | vs => Some (Series.sum vs / Series.of_nat (length vs))%Qc
    end.
Proof.
  unfold Series.mean_skipna, Series.mean.
  destruct (Series.dropna l); reflexivity.
Qed.

Lemma average_row_get (pid : string) (block_num : nat) (df : list Block.row)
    (col : Table.column) :
  Table.get col (Averaged.stats (average_row pid block_num df))
  = column_mean col df.
Proof. destruct col; reflexivity. Qed.

Lemma average_metrics_In (read_csv : string -> nat -> option (list Block.row))
    (participant_ids : list string) (r : Averaged.row) :
  In r (average_metrics read_csv participant_ids) <->
  exists pid k df,
    In pid participant_ids /\ In k [1; 2; 3]
    /\ read_csv pid k = Some df /\ r = average_row pid k df.
Proof.
  unfold average_metrics; rewrite in_flat_map; split.
  - intros [pid [Hp Hin]]; apply in_flat_map in Hin.
    destruct Hin as [k [Hk Hin]].
    destruct (read_csv pid k) as [df |] eqn:E; [| destruct Hin].
    destruct Hin as [<- | []]; exists pid, k, df; auto.
  - intros [pid [k [df [Hp [Hk [E ->]]]]]].
    exists pid; split; [exact Hp |].
    apply in_flat_map; exists k; split; [exact Hk |].
    rewrite E; left; reflexivity.
Qed.

Lemma mean_singleton (v : Qc) : Series.mean [v] = v.
Proof.
  unfold Series.mean; simpl.
  replace (Series.of_nat 1) with 1%Qc by (apply Qc_is_canon; reflexivity).
  field; discriminate.
Qed.

(** C8: the averaged table has one row per (participant, block) whose
    file exists; each statistic of that row is the arithmetic mean of
    the numbers in that column of the block's destination rows, NaN
    left out.  A destination row with NaN in one column does not count
    in that column's mean (so the NaN is not read as zero), and its
    number in any other column still counts in that other column's
    mean. *)
Theorem average_excludes_nan_per_field
    (read_csv : string -> nat -> option (list Block.row))
    (participant_ids : list string) :
  (forall r, In r (average_metrics read_csv participant_ids) <->
             exists pid k df,
               In pid participant_ids /\ In k [1; 2; 3]
               /\ read_csv pid k = Some df /\ r = average_row pid k df)
  /\ (forall pid k df col,
        Table.get col (Averaged.stats (average_row pid k df))
        = match Series.dropna (map (fun r => Table.get col (Block.stats r)) df) with
          | [] => None
          | vs => Some (Series.sum vs / Series.of_nat (length vs))%Qc
          end)
  /\ (forall pid k pre x post col,
        Table.get col (Block.stats x) = None ->
        Table.get col (Averaged.stats (average_row pid k (pre ++ x :: post)))
        = Table.get col (Averaged.stats (average_row pid k (pre ++ post)))
        /\ (forall col' v,
              Table.get col' (Block.stats x) = Some v ->
              Table.get col' (Averaged.stats (average_row pid k (pre ++ x :: post)))
              = Some (Series.mean
                        (Series.dropna
                           (map (fun r => Table.get col' (Block.stats r)) pre)
                         ++ v ::
                         Series.dropna
                           (map (fun r => Table.get col' (Block.stats r)) post)))))
  /\ (forall v : Qc, Series.mean_skipna [Some v; None] = Some v).
Proof.
  split; [intro r; apply average_metrics_In |].
  split; [intros; rewrite average_row_get; apply mean_skipna_spec |].
  split.
  - intros pid k pre x post col Hnan; split.
    + rewrite !average_row_get; unfold column_mean, Series.mean_skipna.
      rewrite !map_app, !dropna_app; cbn [map]; rewrite Hnan; reflexivity.
    + intros col' v Hv.
      rewrite average_row_get; unfold column_mean, Series.mean_skipna.
      rewrite map_app, dropna_app; cbn [map]; rewrite Hv; cbn [Series.dropna].
      destruct (Series.dropna (map _ pre)); reflexivity.
  - intro v; unfold Series.mean_skipna; cbn [Series.dropna].
    rewrite mean_singleton; reflexivity.
Qed.

(** ** Correction *)

Lemma condition_update_stats (p : string) (b : nat) (t : string)
    (f : Table.cells -> Table.cells) (r : Merged.row) :
  condition p b t (update_stats f r) = condition p b t r.
Proof. reflexivity. Qed.

Lemma filter_none (A : Type) (sel : A -> bool) (l : list A) :
  (forall x, In x l -> sel x = false) -> filter sel l = [].
Proof.
  induction l as [| a t IH]; intro H; simpl; [reflexivity |].
  rewrite (H a (or_introl eq_refl)); apply IH.
  intros; apply H; right; assumption.
Qed.

Lemma loc_update_none (cond : Merged.row -> bool)
    (f : Table.cells -> Table.cells) (l : list Merged.row) :
  (forall x, In x l -> cond x = false) -> loc_update cond f l = l.
Proof.
  induction l as [| a t IH]; intro H; simpl; [reflexivity |].
  rewrite (H a (or_introl eq_refl)); f_equal; apply IH.
  intros; apply H; right; assumption.
Qed.

Lemma loc_update_single (cond : Merged.row -> bool)
    (f : Table.cells -> Table.cells) (pre post : list Merged.row)
    (r : Merged.row) :
  cond r = true ->
  (forall x, In x (pre ++ post) -> cond x = false) ->
  loc_update cond f (pre ++ r :: post) = pre ++ update_stats f r :: post.
Proof.
  intros Hr Hn; unfold loc_update; rewrite map_app; cbn [map]; rewrite Hr.
  fold (loc_update cond f pre); fold (loc_update cond f post).
  rewrite !loc_update_none; [reflexivity | |];
    intros; apply Hn, in_or_app; auto.
Qed.

(** The merged table after a call that finds the key. *)
Lemma fix_erroneous_data_merged (df_merged : list Merged.row)
    (df_averaged : list Averaged.row) (p : string) (b : nat) (t : string)
    (col : Table.column) :
  existsb (condition p b t) df_merged = true ->
  fst (fix_erroneous_data df_merged df_averaged p b t col)
  = loc_update (condition p b t) (Table.set col None)
      (if Table.column_eqb col Table.Orientation_Time then
         loc_update (condition p b t)
           (fun s => Table.set Table.Total_Time
                       (Table.sub (Table.total_time s)
                          match filter (condition p b t) df_merged with
                          | r :: _ => Table.orientation_time (Merged.stats r)
                          | [] => None
                          end) s)
           df_merged
       else df_merged).
Proof.
  intro H; unfold fix_erroneous_data; rewrite H; cbn [negb].
  repeat match goal with
         | |- context [if ?c then (_, _) else _] => destruct c
         end; reflexivity.
Qed.

(** C9: when exactly one record of the merged table has the key
    (participant, block, destination), the correction leaves every
    other record as it is and replaces that record by one with the same
    key in which the named field is null; when the field is the
    orientation time, the total time of the record is the number "old
    total time minus old orientation time" when both were numbers, and
    null when either was null; every other field of the record keeps
    its value. *)
Theorem correction_frame (pre post : list Merged.row) (r : Merged.row)
    (df_averaged : list Averaged.row) (p : string) (b : nat) (t : string)
    (col : Table.column) :
  condition p b t r = true ->
  (forall x, In x (pre ++ post) -> condition p b t x = false) ->
  exists r',
    fst (fix_erroneous_data (pre ++ r :: post) df_averaged p b t col)
    = pre ++ r' :: post
    /\ Merged.Participant r' = Merged.Participant r
    /\ Merged.Block_Num r' = Merged.Block_Num r
    /\ Merged.Target_Name r' = Merged.Target_Name r
    /\ Table.get col (Merged.stats r') = None
    /\ (col = Table.Orientation_Time ->
        (forall x y : Qc,
           Table.total_time (Merged.stats r) = Some x ->
           Table.orientation_time (Merged.stats r) = Some y ->
           Table.total_time (Merged.stats r') = Some (x - y)%Qc)
        /\ (Table.total_time (Merged.stats r) = None
            \/ Table.orientation_time (Merged.stats r) = None ->
            Table.total_time (Merged.stats r') = None))
    /\ (forall c, c <> col ->
                  (col = Table.Orientation_Time -> c <> Table.Total_Time) ->
                  Table.get c (Merged.stats r') = Table.get c (Merged.stats r)).
Proof.
  intros Hr Hn.
  assert (Hex : existsb (condition p b t) (pre ++ r :: post) = true).
  { rewrite existsb_app; cbn [existsb]; rewrite Hr.
    rewrite orb_true_r; reflexivity. }
  assert (Hfirst : filter (condition p b t) (pre ++ r :: post)
                   = r :: filter (condition p b t) post).
  { rewrite filter_app; cbn [filter]; rewrite Hr.
    rewrite filter_none; [reflexivity |].
    intros; apply Hn, in_or_app; auto. }
  rewrite fix_erroneous_data_merged by exact Hex; rewrite Hfirst.
  destruct (Table.column_eqb col Table.Orientation_Time) eqn:Ec.
  - apply column_eqb_iff in Ec; subst col.
    rewrite loc_update_single by first [exact Hr | exact Hn].
    rewrite loc_update_single by first [exact Hr | exact Hn].
    eexists; split; [reflexivity |].
    do 4 (split; [reflexivity |]).
    cbn [update_stats Merged.stats Table.set Table.total_time].
    split.
    + intros _; split.
      * intros x y Hx Hy; rewrite Hx, Hy; reflexivity.
      * intros [H | H]; rewrite H; [reflexivity |].
        destruct (Table.total_time (Merged.stats r)); reflexivity.
    + intros c Hc Ht; specialize (Ht eq_refl).
      destruct c; try reflexivity; contradiction.
  - rewrite loc_update_single by first [exact Hr | exact Hn].
    eexists; split; [reflexivity |].
    do 3 (split; [reflexivity |]).
    split; [apply get_set_same |].
    split.
    + intro E; subst col; discriminate.
    + intros c Hc _; apply get_set_other; congruence.
Qed.

(** ** The worked example of the specification *)

Lemma example_group_kept :
  drop_duplicates pos_eqb position example_group
  = [ sample_at "Bank" start_position 0 1;
      sample_at "Bank" far_position 3 1 ].
Proof. vm_compute; reflexivity. Qed.

Lemma example_unique_positions :
  unique_positions example_group = [start_position; far_position].
Proof. vm_compute; reflexivity. Qed.

Lemma example_teleportations : teleportations example_group = 2.
Proof. vm_compute; reflexivity. Qed.

Lemma example_distance :
  distance example_group = dist start_position far_position.
Proof.
  rewrite distance_path, example_group_kept.
  cbn [map path_length].
  change (position (sample_at "Bank" start_position 0 1)) with start_position.
  change (position (sample_at "Bank" far_position 3 1)) with far_position.
  lra.
Qed.

Lemma example_mean_teleport_distance :
  mean_teleport_distance example_group = dist start_position far_position.
Proof.
  unfold mean_teleport_distance; rewrite example_unique_positions.
  cbn [length Nat.ltb Nat.leb teleport_distances].
  unfold Series.rmean; cbn [Series.rsum fold_right length INR].
  field.
Qed.

Lemma example_dist_positive : (0 < dist start_position far_position)%R.
Proof.
  unfold dist; apply sqrt_lt_R0.
  replace 0%R with (Q2R 0) by (unfold Q2R; simpl; lra).
  apply Qlt_Rlt; vm_compute; reflexivity.
Qed.

(** C1, as the specification words it, fails on the engine: the group
    has two distinct positions, not three; the repeated visit of
    (0,-4.1) is not a third entry of the first-occurrence sequence, and
    the distance is one hop, not two. *)
Lemma example_counts_three_refuted :
  let m := target_metrics "Bank" example_group in
  Metrics.Teleportations m <> 3
  /\ unique_positions example_group
     <> [start_position; far_position; start_position]
  /\ Metrics.Distance m <> (2 * dist start_position far_position)%R.
Proof.
  cbn zeta; cbn [target_metrics Metrics.Teleportations Metrics.Distance].
  rewrite example_teleportations, example_unique_positions, example_distance.
  pose proof example_dist_positive.
  repeat split; try discriminate; lra.
Qed.

(** C1, amended: on the example group the engine returns a teleport
    count of 2, the first-occurrence sequence [(0,-4.1); (5,5)], the
    distance of the single hop between the two positions, and that
    same distance as the mean teleport distance. *)
Theorem example_group_metrics :
  let m := target_metrics "Bank" example_group in
  Metrics.Teleportations m = 2
  /\ unique_positions example_group = [start_position; far_position]
  /\ Metrics.Distance m = dist start_position far_position
  /\ Metrics.Mean_Teleport_Distance m = dist start_position far_position.
Proof.
  cbn zeta;
    cbn [target_metrics Metrics.Teleportations Metrics.Distance
         Metrics.Mean_Teleport_Distance].
  auto using example_teleportations, example_unique_positions,
    example_distance, example_mean_teleport_distance.
Qed.

(** ** Dwell buckets *)

Lemma dwell_times_length (group : list Sample.row) :
  length (dwell_times group) = distinct_count (map position group).
Proof.
  unfold dwell_times; rewrite length_map, groupby_length.
  rewrite <- teleportations_distinct; unfold teleportations, drop_duplicates.
  rewrite <- keep_first_from_map, length_map; reflexivity.
Qed.

(** With fewer than two distinct positions there is no bucket to
    average and the mean dwell is 0. *)
Lemma mean_dwell_fewer_than_two (name : string) (group : list Sample.row) :
  distinct_count (map position group) < 2 ->
  Metrics.Mean_Dwell (target_metrics name group) = 0%Qc.
Proof.
  intro H; cbn [target_metrics Metrics.Mean_Dwell]; unfold mean_dwell.
  rewrite dwell_times_length.
  destruct (1 <? distinct_count (map position group)) eqn:E; [| reflexivity].
  apply Nat.ltb_lt in E; lia.
Qed.

(** C2 on [dwell_group]: [groupby] hands the buckets over in ascending
    (X, Z) order, so the bucket that is left out is the one of (-5,5),
    not the one of the starting position: the engine's mean dwell is 2
    (the dwell at the start), where leaving out the first bucket met
    gives 7. *)
Theorem mean_dwell_drops_smallest_key :
  dwell_times dwell_group = [Q2Qc 7; Q2Qc 2]
  /\ dwell_times_by_first_encounter dwell_group = [Q2Qc 2; Q2Qc 7]
  /\ Metrics.Mean_Dwell (target_metrics "Bank" dwell_group) = Q2Qc 2
  /\ mean_dwell_by_first_encounter dwell_group = Q2Qc 7.
Proof.
  cbn [target_metrics Metrics.Mean_Dwell].
  assert (Hq : forall l l' : list Qc,
            forallb (fun xy => Qc_eq_bool (fst xy) (snd xy)) (combine l l') = true ->
            length l = length l' -> l = l').
  { induction l as [| x t IH]; destruct l' as [| y u]; simpl;
      intros H1 H2; try reflexivity; try discriminate.
    apply andb_true_iff in H1; destruct H1 as [Hx Ht].
    apply Qc_eq_bool_iff in Hx; subst y; f_equal; apply IH; auto. }
  split; [| split; [| split]].
  - apply Hq; vm_compute; reflexivity.
  - apply Hq; vm_compute; reflexivity.
  - apply Qc_is_canon; vm_compute; reflexivity.
  - apply Qc_is_canon; vm_compute; reflexivity.
Qed.

(** ** Instances on concrete data *)

Lemma distance_first_occurrence_path_witness :
  distinct_count (map position still_group) = 1
  /\ Metrics.Distance (target_metrics "Bank" still_group) = 0%R.
Proof.
  assert (H : distinct_count (map position still_group) = 1)
    by (vm_compute; reflexivity).
  split; [exact H |].
  exact (proj2 (proj2 (distance_first_occurrence_path "Bank" still_group)) H).
Defined.

Lemma teleport_count_distinct_pairs_witness :
  Metrics.Teleportations (target_metrics "Bank" shuffled_group)
  = Metrics.Teleportations (target_metrics "Bank" example_group).
Proof.
  apply (proj1 (proj2 (teleport_count_distinct_pairs "Bank" example_group))).
  intro p; simpl; tauto.
Defined.

Lemma speed_guarded_witness :
  (0 < Metrics.Navigation_Time (target_metrics "Bank" example_group))%Qc
  /\ Metrics.Speed (target_metrics "Bank" example_group)
     = (Metrics.Distance (target_metrics "Bank" example_group)
        / Q2R (Metrics.Navigation_Time (target_metrics "Bank" example_group)))%R.
Proof.
  assert (H : (0 < Metrics.Navigation_Time
                     (target_metrics "Bank" example_group))%Qc).
  { cbn [target_metrics Metrics.Navigation_Time].
    unfold Qclt, Qlt; vm_compute; reflexivity. }
  split; [exact H |].
  exact (proj2 (proj1 (speed_guarded "Bank" example_group) H)).
Defined.

Lemma rows_follow_canonical_order_witness :
  exists rows,
    calculate_all_metrics_in ["D1"; "D2"; "D3"]%string d3_d1_data = inr rows
    /\ map fst rows = ["D1"; "D3"]%string.
Proof.
  assert (Hne : d3_d1_data <> []) by discriminate.
  destruct (rows_follow_canonical_order ["D1"; "D2"; "D3"]%string Hne)
    as [rows [Hr [Hl _]]].
  exists rows; split; [exact Hr | rewrite Hl; reflexivity].
Defined.

Lemma navigation_time_nonneg_for_exact_sums_witness :
  process_raw_data parse_zero glitch_csv = inr glitch_data
  /\ (0 <= Metrics.Navigation_Time
             (target_metrics "Bank"
                (rows_of String.eqb Sample.Target_Name "Bank"%string glitch_data)))%Qc.
Proof.
  assert (H : process_raw_data parse_zero glitch_csv = inr glitch_data)
    by (vm_compute; reflexivity).
  split; [exact H |].
  apply (proj2 (navigation_time_nonneg_for_exact_sums parse_zero glitch_csv H)
               "Bank"%string
               (rows_of String.eqb Sample.Target_Name "Bank"%string glitch_data)).
  vm_compute; left; reflexivity.
Defined.

Lemma average_excludes_nan_per_field_witness :
  Table.get Table.Orientation_Time
    (Averaged.stats (average_row "BNC01" 1 block_table))
  = Table.get Table.Orientation_Time
      (Averaged.stats
         (average_row "BNC01" 1
            [ Block.mk "Bank" (cells_of (Some (Q2Qc 10)) (Some (Q2Qc 2)) 1);
              Block.mk "High School"
                       (cells_of (Some (Q2Qc 30)) (Some (Q2Qc 4)) 5) ])).
Proof.
  exact (proj1
           (proj1 (proj2 (proj2 (average_excludes_nan_per_field
                                   (fun _ _ => None) [])))
                  "BNC01"%string 1
                  [Block.mk "Bank" (cells_of (Some (Q2Qc 10)) (Some (Q2Qc 2)) 1)]
                  (Block.mk "Pizzeria" (cells_of (Some (Q2Qc 20)) None 3))
                  [Block.mk "High School"
                            (cells_of (Some (Q2Qc 30)) (Some (Q2Qc 4)) 5)]
                  Table.Orientation_Time eq_refl)).
Defined.

Lemma correction_frame_witness :
  exists r',
    fst (fix_erroneous_data merged_table [] "BNC39" 1 "Pawn Shop"
                            Table.Orientation_Time)
    = [ Merged.mk "BNC39" 1 "Bank" (cells_of (Some (Q2Qc 10)) (Some (Q2Qc 2)) 1);
        r';
        Merged.mk "BNC39" 2 "Pawn Shop" (cells_of (Some (Q2Qc 9)) (Some (Q2Qc 1)) 5) ]
    /\ Table.orientation_time (Merged.stats r') = None
    /\ Table.total_time (Merged.stats r') = Some (Q2Qc 10).
Proof.
  destruct (@correction_frame
              [Merged.mk "BNC39" 1 "Bank"
                         (cells_of (Some (Q2Qc 10)) (Some (Q2Qc 2)) 1)]
              [Merged.mk "BNC39" 2 "Pawn Shop"
                         (cells_of (Some (Q2Qc 9)) (Some (Q2Qc 1)) 5)]
              (Merged.mk "BNC39" 1 "Pawn Shop"
                         (cells_of (Some (Q2Qc 50)) (Some (Q2Qc 40)) 3))
              [] "BNC39"%string 1 "Pawn Shop"%string Table.Orientation_Time)
    as [r' [H1 [_ [_ [_ [H2 [H3 _]]]]]]].
  - reflexivity.
  - intros x [<- | [<- | []]]; reflexivity.
  - exists r'; split; [exact H1 |].
    split; [exact H2 |].
    rewrite (proj1 (H3 eq_refl) (Q2Qc 50) (Q2Qc 40) eq_refl eq_refl).
    f_equal; apply Qc_is_canon; reflexivity.
Defined.

(** * Further properties of the code *)

(** Order facts on [Qc] are decided on the underlying rationals. *)
Ltac qc_arith :=
  unfold Qcle, Qclt, Qcminus, Qcopp, Qcplus, Qcmult, Q2Qc in *;
  cbn [this] in *;
  repeat match goal with
         | H : context [Qred ?q] |- _ => rewrite (Qred_correct q) in H
         | |- context [Qred ?q] => rewrite (Qred_correct q)
         end;
  Lqa.lra.

(** ** Angle wrap *)

(** X1: an angle between 0 and 360 is revalued into the half-open range
    from -180 (excluded) to 180 (included), and the revalued angle is
    the angle itself or the angle minus a full turn. *)
Theorem revalue_range (x : Qc) :
  (0 <= x)%Qc -> (x <= Q2Qc 360)%Qc ->
  (- Q2Qc 180 < revalue x)%Qc /\ (revalue x <= Q2Qc 180)%Qc
  /\ (revalue x = x \/ revalue x = (x - Q2Qc 360)%Qc).
Proof.
  intros H0 H1; unfold revalue.
  destruct (Qclt_le_dec (Q2Qc 180) x) as [H | H].
  - split; [qc_arith |]. split; [qc_arith |]. right; ring.
  - split; [qc_arith |]. split; [exact H | left; reflexivity].
Qed.

Lemma revalue_range_witness :
  (- Q2Qc 180 < revalue (Q2Qc 270))%Qc /\ (revalue (Q2Qc 270) <= Q2Qc 180)%Qc
  /\ (revalue (Q2Qc 270) = Q2Qc 270
      \/ revalue (Q2Qc 270) = (Q2Qc 270 - Q2Qc 360)%Qc).
Proof.
  apply (@revalue_range (Q2Qc 270)); unfold Qcle; vm_compute; discriminate.
Defined.

(** ** Shape of the normalized frame *)

Lemma mapM_inr_length (A B : Type) (f : A -> result B) (l : list A)
    (l' : list B) :
  mapM f l = inr l' -> length l' = length l.
Proof.
  revert l'; induction l as [| a t IH]; intros l' H; simpl in H.
  - injection H as <-; reflexivity.
  - destruct (f a) as [e | b]; [discriminate |]; simpl in H.
    destruct (mapM f t) as [e | bs]; [discriminate |]; simpl in H.
    injection H as <-; simpl; f_equal; apply IH; reflexivity.
Qed.

Lemma mapM_inr_iff (A B : Type) (f : A -> result B) (l : list A) :
  (exists l', mapM f l = inr l') <-> (forall a, In a l -> exists b, f a = inr b).
Proof.
  induction l as [| a t IH]; simpl.
  - split; [intros _ a [] | intros _; eexists; reflexivity].
  - split.
    + intros [l' H] x Hx.
      destruct (f a) as [e | b] eqn:Ea; [discriminate |]; simpl in H.
      destruct (mapM f t) as [e | bs] eqn:Et; [discriminate |].
      destruct Hx as [<- | Hx]; [exists b; exact Ea |].
      apply (proj1 IH); [exists bs; reflexivity | exact Hx].
    + intro H.
      destruct (H a (or_introl eq_refl)) as [b Eb]; rewrite Eb; simpl.
      destruct (proj2 IH (fun x Hx => H x (or_intror Hx))) as [bs Ebs].
      rewrite Ebs; simpl; eexists; reflexivity.
Qed.

Lemma mapM_inl (A B : Type) (f : A -> result B) (l : list A) (e : Error) :
  mapM f l = inl e -> exists a, In a l /\ f a = inl e.
Proof.
  induction l as [| a t IH]; simpl; [discriminate |].
  destruct (f a) as [e' | b] eqn:Ea; simpl.
  - intro H; injection H as ->; exists a; auto.
  - destruct (mapM f t) as [e' | bs]; simpl; [| discriminate].
    intro H; injection H as ->.
    destruct (IH eq_refl) as [x [Hx Ex]]; exists x; auto.
Qed.

Lemma diff_from_length (prev : Qc) (l : list Qc) :
  length (Series.diff_from prev l) = length l.
Proof.
  revert prev; induction l as [| x t IH]; intro prev; simpl;
    [| rewrite IH]; reflexivity.
Qed.

Lemma diff_length (l : list Qc) : length (Series.diff l) = length l.
Proof. destruct l; simpl; [| rewrite diff_from_length]; reflexivity. Qed.

Lemma time_diff_length (l : list Qc) : length (time_diff l) = length l.
Proof. unfold time_diff; rewrite length_map; apply diff_length. Qed.

Lemma angle_columns_length (a : list Qc) :
  length (angle_columns a) = length a.
Proof.
  unfold angle_columns.
  rewrite !length_combine, !length_map, diff_length, length_map; lia.
Qed.

Lemma map_fst_combine (A B : Type) (l : list A) (l' : list B) :
  length l = length l' -> map fst (combine l l') = l.
Proof.
  revert l'; induction l as [| a t IH]; intros [| b u] H; simpl in *;
    try reflexivity; try discriminate.
  f_equal; apply IH; lia.
Qed.

(** With columns of the right length no row is lost in the assembly. *)
Lemma assemble_raw_rows (df : list Raw.row) (td : list Qc)
    (xs ys zs : list (Qc * Qc * Qc)) :
  length td = length df -> length xs = length df ->
  length ys = length df -> length zs = length df ->
  map (fun q => fst (fst (fst (fst q))))
      (combine (combine (combine (combine df td) xs) ys) zs) = df.
Proof.
  intros H1 H2 H3 H4.
  transitivity
    (map fst (map fst (map fst (map fst
       (combine (combine (combine (combine df td) xs) ys) zs)))));
    [rewrite !map_map; reflexivity |].
  rewrite !map_fst_combine; try reflexivity;
    rewrite ?length_combine; lia.
Qed.

Lemma filter_map_comm (A B : Type) (f : A -> B) (p : B -> bool) (l : list A) :
  filter p (map f l) = map f (filter (fun a => p (f a)) l).
Proof.
  induction l as [| a t IH]; simpl; [reflexivity |].
  destruct (p (f a)); simpl; rewrite IH; reflexivity.
Qed.

(** X2: a frame returned by the Normalizer holds, in their order, the
    rows of the file after its first three, without the rows of the
    sentinel destination "Mission complete"; destination, position and
    time of each row are those of the file. *)
Theorem process_raw_data_rows (parse_float : string -> option Qc)
    (csv : list Raw.row) (data : list Sample.row) :
  process_raw_data parse_float csv = inr data ->
  map sample_fields data
  = map raw_fields
      (filter (fun r => negb (String.eqb (Raw.Target_Name r) MISSION_COMPLETE))
              (skipn 3 csv))
  /\ (forall s, In s data -> Sample.Target_Name s <> MISSION_COMPLETE).
Proof.
  unfold process_raw_data.
  match goal with
  | |- bind ?m _ = _ -> _ => destruct m as [e | xe] eqn:Ex
  end; [discriminate |].
  cbn [bind].
  match goal with
  | |- bind ?m _ = _ -> _ => destruct m as [e | ze] eqn:Ez
  end; [discriminate |].
  cbn [bind ret]; intro H; injection H as <-.
  apply mapM_inr_length in Ex, Ez.
  split.
  - unfold assemble; rewrite filter_map_comm, map_map.
    set (zipped := combine _ _).
    assert (Hz : map (fun q => fst (fst (fst (fst q)))) zipped = skipn 3 csv).
    { apply assemble_raw_rows;
        rewrite ?time_diff_length, ?angle_columns_length, ?length_map;
        auto. }
    assert (Hf : forall q : Raw.row * Qc * (Qc * Qc * Qc) * (Qc * Qc * Qc)
                            * (Qc * Qc * Qc),
               sample_fields
                 (let '(r, d, (xa, xr, xd), (ya, yr, yd), (za, zr, zd)) := q in
                  Sample.mk (Raw.Target_Name r) (Raw.X r) (Raw.Z r)
                            xa xr xd ya yr yd za zr zd (Raw.Lapsed_Time r) d)
               = raw_fields (fst (fst (fst (fst q))))).
    { intros [[[[r d] [[xa xr] xd]] [[ya yr] yd]] [[za zr] zd]]; reflexivity. }
    assert (Hp : forall q : Raw.row * Qc * (Qc * Qc * Qc) * (Qc * Qc * Qc)
                            * (Qc * Qc * Qc),
               Sample.Target_Name
                 (let '(r, d, (xa, xr, xd), (ya, yr, yd), (za, zr, zd)) := q in
                  Sample.mk (Raw.Target_Name r) (Raw.X r) (Raw.Z r)
                            xa xr xd ya yr yd za zr zd (Raw.Lapsed_Time r) d)
               = Raw.Target_Name (fst (fst (fst (fst q))))).
    { intros [[[[r d] [[xa xr] xd]] [[ya yr] yd]] [[za zr] zd]]; reflexivity. }
    transitivity
      (map (fun q => raw_fields (fst (fst (fst (fst q)))))
           (filter (fun q => negb (String.eqb
                                     (Raw.Target_Name (fst (fst (fst (fst q)))))
                                     MISSION_COMPLETE))
                   zipped)).
    { erewrite filter_ext; [apply map_ext; exact Hf |].
      intro q; cbv beta; rewrite Hp; reflexivity. }
    rewrite <- Hz, filter_map_comm, map_map; reflexivity.
  - intros s Hs; apply filter_In in Hs; destruct Hs as [_ Hs].
    apply negb_true_iff, String.eqb_neq in Hs; exact Hs.
Qed.

Lemma process_raw_data_rows_witness :
  map sample_fields glitch_data
  = map raw_fields
      (filter (fun r => negb (String.eqb (Raw.Target_Name r) MISSION_COMPLETE))
              (skipn 3 glitch_csv)).
Proof.
  assert (H : process_raw_data parse_zero glitch_csv = inr glitch_data)
    by (vm_compute; reflexivity).
  exact (proj1 (process_raw_data_rows parse_zero glitch_csv H)).
Defined.

(** ** Failure of the Normalizer *)

Lemma astype_float_inl (parse_float : string -> option Qc) (s : string)
    (e : Error) :
  astype_float parse_float s = inl e -> e = ValueError /\ parse_float s = None.
Proof.
  unfold astype_float; destruct (parse_float s); [discriminate |].
  intro H; injection H as <-; auto.
Qed.

Lemma astype_float_inr (parse_float : string -> option Qc) (s : string) :
  parse_float s <> None -> exists q, astype_float parse_float s = inr q.
Proof.
  unfold astype_float; destruct (parse_float s) as [q |]; [| congruence].
  intros _; exists q; reflexivity.
Qed.

Lemma process_raw_data_inl (parse_float : string -> option Qc)
    (csv : list Raw.row) (e : Error) :
  process_raw_data parse_float csv = inl e ->
  e = ValueError
  /\ exists r, In r (skipn 3 csv)
       /\ (parse_float (str_drop_first (Raw.X_Euler_Angle r)) = None
           \/ parse_float (str_drop_last (Raw.Z_Euler_Angle r)) = None).
Proof.
  unfold process_raw_data.
  match goal with
  | |- bind ?m _ = _ -> _ => destruct m as [e' | xe] eqn:Ex
  end; cbn [bind].
  - intro H; injection H as ->.
    apply mapM_inl in Ex; destruct Ex as [r [Hr Er]].
    apply astype_float_inl in Er; destruct Er as [-> Er].
    split; [reflexivity | exists r; auto].
  - match goal with
    | |- bind ?m _ = _ -> _ => destruct m as [e' | ze] eqn:Ez
    end; cbn [bind ret]; [| discriminate].
    intro H; injection H as ->.
    apply mapM_inl in Ez; destruct Ez as [r [Hr Er]].
    apply astype_float_inl in Er; destruct Er as [-> Er].
    split; [reflexivity | exists r; auto].
Qed.

Lemma process_raw_data_total (parse_float : string -> option Qc)
    (csv : list Raw.row) :
  (forall r, In r (skipn 3 csv) ->
     parse_float (str_drop_first (Raw.X_Euler_Angle r)) <> None
     /\ parse_float (str_drop_last (Raw.Z_Euler_Angle r)) <> None) ->
  exists data, process_raw_data parse_float csv = inr data.
Proof.
  intro Hall; unfold process_raw_data.
  destruct (proj2 (mapM_inr_iff
                     (fun r => astype_float parse_float
                                 (str_drop_first (Raw.X_Euler_Angle r)))
                     (skipn 3 csv))) as [xe Ex].
  { intros r Hr; apply astype_float_inr, (Hall r Hr). }
  destruct (proj2 (mapM_inr_iff
                     (fun r => astype_float parse_float
                                 (str_drop_last (Raw.Z_Euler_Angle r)))
                     (skipn 3 csv))) as [ze Ez].
  { intros r Hr; apply astype_float_inr, (Hall r Hr). }
  rewrite Ex; cbn [bind]; rewrite Ez; cbn [bind ret].
  eexists; reflexivity.
Qed.

(** X3: for a session file that has all its columns, with numbers in
    the time, position and Y angle columns and text in the X and Z
    angle columns (the rows of [Raw.row]; a file that is not so is
    outside the model), the Normalizer returns a frame exactly when,
    in every row after the first three, the X angle without its first
    character and the Z angle without its last are numbers, and it
    raises [ValueError] exactly when one of these texts is not a
    number.  The angle texts of the three leading rows are never
    read. *)
Theorem process_raw_data_fails_on_angle_text
    (parse_float : string -> option Qc) (csv : list Raw.row) :
  ((exists data, process_raw_data parse_float csv = inr data)
   <-> (forall r, In r (skipn 3 csv) ->
          parse_float (str_drop_first (Raw.X_Euler_Angle r)) <> None
          /\ parse_float (str_drop_last (Raw.Z_Euler_Angle r)) <> None))
  /\ (process_raw_data parse_float csv = inl ValueError
      <-> (exists r, In r (skipn 3 csv)
             /\ (parse_float (str_drop_first (Raw.X_Euler_Angle r)) = None
                 \/ parse_float (str_drop_last (Raw.Z_Euler_Angle r)) = None))).
Proof.
  assert (Hret :
            (exists data, process_raw_data parse_float csv = inr data) ->
            forall r, In r (skipn 3 csv) ->
              parse_float (str_drop_first (Raw.X_Euler_Angle r)) <> None
              /\ parse_float (str_drop_last (Raw.Z_Euler_Angle r)) <> None).
  { intros [data H] r Hr.
    destruct (process_raw_data parse_float csv) as [e | d] eqn:E;
      [discriminate |].
    split; intro Hnone.
    - assert (Hbad : exists e, process_raw_data parse_float csv = inl e).
      { unfold process_raw_data.
        destruct (mapM (fun r0 => astype_float parse_float
                                    (str_drop_first (Raw.X_Euler_Angle r0)))
                       (skipn 3 csv)) as [e | xe] eqn:Ex;
          [eexists; reflexivity |].
        exfalso.
        destruct (proj1 (mapM_inr_iff _ _) (ex_intro _ xe Ex) r Hr) as [q Eq].
        unfold astype_float in Eq; rewrite Hnone in Eq; discriminate. }
      destruct Hbad as [e He]; congruence.
    - assert (Hbad : exists e, process_raw_data parse_float csv = inl e).
      { unfold process_raw_data.
        destruct (mapM (fun r0 => astype_float parse_float
                                    (str_drop_first (Raw.X_Euler_Angle r0)))
                       (skipn 3 csv)) as [e | xe];
          [eexists; reflexivity |]; cbn [bind].
        destruct (mapM (fun r0 => astype_float parse_float
                                    (str_drop_last (Raw.Z_Euler_Angle r0)))
                       (skipn 3 csv)) as [e | ze] eqn:Ez;
          [eexists; reflexivity |].
        exfalso.
        destruct (proj1 (mapM_inr_iff _ _) (ex_intro _ ze Ez) r Hr) as [q Eq].
        unfold astype_float in Eq; rewrite Hnone in Eq; discriminate. }
      destruct Hbad as [e He]; congruence. }
  split; split.
  - exact Hret.
  - apply process_raw_data_total.
  - intro H; apply (process_raw_data_inl _ _ H).
  - intros [r [Hr Hbad]].
    destruct (process_raw_data parse_float csv) as [e | data] eqn:E.
    + destruct (process_raw_data_inl _ _ E) as [-> _]; reflexivity.
    + exfalso.
      destruct (Hret (ex_intro _ data eq_refl) r Hr) as [Hx Hz].
      destruct Hbad; contradiction.
Qed.

Lemma process_raw_data_fails_on_angle_text_witness :
  exists data, process_raw_data parse_nonempty steady_csv = inr data.
Proof.
  apply (proj2 (proj1 (process_raw_data_fails_on_angle_text
                         parse_nonempty steady_csv))).
  intros r Hr; vm_compute in Hr.
  repeat (destruct Hr as [<- | Hr]; [split; discriminate |]).
  destruct Hr.
Defined.

(** ** Angle columns of the normalized frame *)

Lemma In_combine_map (A B : Type) (f : A -> B) (l : list A) (a : A) (b : B) :
  In (a, b) (combine l (map f l)) -> b = f a.
Proof.
  induction l as [| x t IH]; simpl; [intros [] |].
  intros [H | H]; [injection H as <- <-; reflexivity | apply IH, H].
Qed.

Lemma In_angle_columns (l : list Qc) (a r d : Qc) :
  In (a, r, d) (angle_columns l) -> r = revalue a /\ (0 <= d)%Qc.
Proof.
  unfold angle_columns; intro H; split.
  - apply in_combine_l in H; apply In_combine_map in H; exact H.
  - apply in_combine_r in H; apply in_map_iff in H.
    destruct H as [c [<- _]]; destruct c as [x |]; simpl.
    + apply Qcabs_nonneg.
    + apply Qcle_refl.
Qed.

(** X4: in every row of a frame returned by the Normalizer the revalued
    angle of each axis is the revaluation of that row's own angle, and
    the angle step of each axis is not negative. *)
Theorem process_raw_data_angles (parse_float : string -> option Qc)
    (csv : list Raw.row) (data : list Sample.row) (s : Sample.row) :
  process_raw_data parse_float csv = inr data ->
  In s data ->
  Sample.X_A_Rev s = revalue (Sample.X_A s)
  /\ Sample.Y_A_Rev s = revalue (Sample.Y_A s)
  /\ Sample.Z_A_Rev s = revalue (Sample.Z_A s)
  /\ (0 <= Sample.X_A_Rev_Diff s)%Qc
  /\ (0 <= Sample.Y_A_Rev_Diff s)%Qc
  /\ (0 <= Sample.Z_A_Rev_Diff s)%Qc.
Proof.
  unfold process_raw_data.
  match goal with
  | |- bind ?m _ = _ -> _ => destruct m as [e | xe]
  end; [discriminate |]; cbn [bind].
  match goal with
  | |- bind ?m _ = _ -> _ => destruct m as [e | ze]
  end; [discriminate |]; cbn [bind ret].
  intros H Hs; injection H as <-.
  apply filter_In in Hs; destruct Hs as [Hs _].
  unfold assemble in Hs; apply in_map_iff in Hs.
  destruct Hs as [[[[[r d] [[xa xr] xd]] [[ya yr] yd]] [[za zr] zd]] [<- Hin]].
  cbn [Sample.X_A Sample.X_A_Rev Sample.X_A_Rev_Diff
       Sample.Y_A Sample.Y_A_Rev Sample.Y_A_Rev_Diff
       Sample.Z_A Sample.Z_A_Rev Sample.Z_A_Rev_Diff].
  pose proof (in_combine_r _ _ _ _ Hin) as Hz.
  apply in_combine_l in Hin.
  pose proof (in_combine_r _ _ _ _ Hin) as Hy.
  apply in_combine_l in Hin.
  pose proof (in_combine_r _ _ _ _ Hin) as Hx.
  apply In_angle_columns in Hx, Hy, Hz.
  tauto.
Qed.

Lemma process_raw_data_angles_witness :
  Sample.X_A_Rev steady_first = revalue (Sample.X_A steady_first)
  /\ (0 <= Sample.X_A_Rev_Diff steady_first)%Qc.
Proof.
  assert (H : process_raw_data parse_nonempty steady_csv = inr steady_data)
    by (vm_compute; reflexivity).
  assert (Hs : In steady_first steady_data)
    by (vm_compute; left; reflexivity).
  destruct (@process_raw_data_angles parse_nonempty steady_csv steady_data
              steady_first H Hs) as [H1 [_ [_ [H2 _]]]].
  split; assumption.
Defined.

(** ** Inversion of a successful normalization *)

Lemma process_raw_data_inr (parse_float : string -> option Qc)
    (csv : list Raw.row) (data : list Sample.row) :
  process_raw_data parse_float csv = inr data ->
  exists xe ze,
    length xe = length (skipn 3 csv) /\ length ze = length (skipn 3 csv)
    /\ data
       = filter (fun s => negb (String.eqb (Sample.Target_Name s)
                                           MISSION_COMPLETE))
           (assemble (skipn 3 csv)
              (time_diff (map Raw.Lapsed_Time (skipn 3 csv)))
              (angle_columns xe)
              (angle_columns (map Raw.Y_Euler_Angle (skipn 3 csv)))
              (angle_columns ze)).
Proof.
  unfold process_raw_data.
  match goal with
  | |- bind ?m _ = _ -> _ => destruct m as [e | xe] eqn:Ex
  end; [discriminate |]; cbn [bind].
  match goal with
  | |- bind ?m _ = _ -> _ => destruct m as [e | ze] eqn:Ez
  end; [discriminate |]; cbn [bind ret].
  intro H; injection H as <-.
  apply mapM_inr_length in Ex, Ez.
  exists xe, ze; auto.
Qed.

Lemma map_snd_combine (A B : Type) (l : list A) (l' : list B) :
  length l = length l' -> map snd (combine l l') = l'.
Proof.
  revert l'; induction l as [| a t IH]; intros [| b u] H; simpl in *;
    try reflexivity; try discriminate.
  f_equal; apply IH; lia.
Qed.

Lemma assemble_time_diffs (df : list Raw.row) (td : list Qc)
    (xs ys zs : list (Qc * Qc * Qc)) :
  length td = length df -> length xs = length df ->
  length ys = length df -> length zs = length df ->
  map Sample.Time_Diff (assemble df td xs ys zs) = td.
Proof.
  intros H1 H2 H3 H4; unfold assemble; rewrite map_map.
  transitivity
    (map snd (map fst (map fst (map fst
       (combine (combine (combine (combine df td) xs) ys) zs))))).
  - rewrite !map_map; apply map_ext.
    intros [[[[r d] [[xa xr] xd]] [[ya yr] yd]] [[za zr] zd]]; reflexivity.
  - rewrite !map_fst_combine, map_snd_combine; try reflexivity;
      rewrite ?length_combine; lia.
Qed.

Lemma assemble_target_names (df : list Raw.row) (td : list Qc)
    (xs ys zs : list (Qc * Qc * Qc)) (s : Sample.row) :
  In s (assemble df td xs ys zs) ->
  exists r, In r df /\ Sample.Target_Name s = Raw.Target_Name r.
Proof.
  unfold assemble; rewrite in_map_iff.
  intros [[[[[r d] [[xa xr] xd]] [[ya yr] yd]] [[za zr] zd]] [<- Hin]].
  do 3 apply in_combine_l in Hin; apply in_combine_l in Hin.
  exists r; split; [exact Hin | reflexivity].
Qed.

Lemma filter_all (A : Type) (p : A -> bool) (l : list A) :
  (forall a, In a l -> p a = true) -> filter p l = l.
Proof.
  induction l as [| a t IH]; intro H; simpl; [reflexivity |].
  rewrite (H a (or_introl eq_refl)); f_equal; apply IH.
  intros; apply H; right; assumption.
Qed.

(** ** Time deltas add up to the length of the session *)

Lemma last_cons (x d : Qc) (t : list Qc) : last (x :: t) d = last t x.
Proof.
  revert x d; induction t as [| y u IH]; intros x d; [reflexivity |].
  change (last (x :: y :: u) d) with (last (y :: u) d).
  rewrite (IH y d), (IH y x); reflexivity.
Qed.

Lemma sum_diff_from_sorted (prev : Qc) (l : list Qc) :
  Sorted Qcle (prev :: l) ->
  Series.sum
    (map (fun c => Series.fillna 0%Qc (Series.clip_lower 0%Qc c))
         (Series.diff_from prev l))
  = (last l prev - prev)%Qc.
Proof.
  revert prev; induction l as [| x t IH]; intros prev H.
  - simpl; ring.
  - inversion H as [| ? ? Hs Hrel]; subst.
    inversion Hrel as [| ? ? Hle]; subst.
    cbn [Series.diff_from map Series.sum fold_right
         Series.clip_lower option_map Series.fillna].
    fold (Series.sum
            (map (fun c => Series.fillna 0%Qc (Series.clip_lower 0%Qc c))
                 (Series.diff_from x t))).
    rewrite (IH x Hs), last_cons.
    destruct (Qclt_le_dec (x - prev) 0)%Qc as [Hneg | _].
    + exfalso; clear - Hle Hneg; qc_arith.
    + ring.
Qed.

(** X5, for exact sums: when the file has no sentinel row after its
    first three rows and its clock never steps back, the time deltas
    of the returned frame add up to the last time minus the first, as
    long as no subtraction and no addition is rounded.  On binary64
    numbers the two sides can differ by a rounding error, as the
    section on binary64 numbers shows on the times 0.1, 0.8, 1.3,
    1.6. *)
Theorem time_diff_telescopes (parse_float : string -> option Qc)
    (csv : list Raw.row) (data : list Sample.row) :
  process_raw_data parse_float csv = inr data ->
  (forall r, In r (skipn 3 csv) -> Raw.Target_Name r <> MISSION_COMPLETE) ->
  Sorted Qcle (map Raw.Lapsed_Time (skipn 3 csv)) ->
  Series.sum (map Sample.Time_Diff data)
  = (last (map Raw.Lapsed_Time (skipn 3 csv)) 0
     - hd 0 (map Raw.Lapsed_Time (skipn 3 csv)))%Qc.
Proof.
  intros H Hns Hsorted.
  destruct (process_raw_data_inr _ _ H) as [xe [ze [Hx [Hz ->]]]].
  rewrite filter_all.
  - rewrite assemble_time_diffs;
      rewrite ?time_diff_length, ?angle_columns_length, ?length_map; auto.
    unfold time_diff.
    destruct (map Raw.Lapsed_Time (skipn 3 csv)) as [| t0 ts].
    + simpl; ring.
    + cbn [Series.diff map Series.clip_lower option_map Series.fillna hd].
      cbn [Series.sum fold_right].
      fold (Series.sum
              (map (fun c => Series.fillna 0%Qc (Series.clip_lower 0%Qc c))
                   (Series.diff_from t0 ts))).
      rewrite (sum_diff_from_sorted Hsorted), last_cons; ring.
  - intros s Hs; apply assemble_target_names in Hs.
    destruct Hs as [r [Hr ->]].
    apply negb_true_iff, String.eqb_neq, Hns, Hr.
Qed.

Lemma time_diff_telescopes_witness :
  Series.sum (map Sample.Time_Diff steady_data)
  = (last (map Raw.Lapsed_Time (skipn 3 steady_csv)) 0
     - hd 0 (map Raw.Lapsed_Time (skipn 3 steady_csv)))%Qc.
Proof.
  apply (@time_diff_telescopes parse_nonempty steady_csv steady_data).
  - vm_compute; reflexivity.
  - intros r Hr; vm_compute in Hr.
    repeat (destruct Hr as [<- | Hr]; [discriminate |]).
    destruct Hr.
  - cbn [steady_csv skipn map raw_row Raw.Lapsed_Time].
    repeat constructor; unfold Qcle; vm_compute; discriminate.
Defined.

(** ** A session without samples *)

Lemma calculate_all_metrics_in_nil (order : list string) :
  calculate_all_metrics_in order [] = inl KeyError.
Proof. reflexivity. Qed.

(** X6: on a frame in which every row names a destination (an empty
    destination cell is NaN in pandas, and the group-by leaves such
    rows out, which the model does not follow), the engine raises
    [KeyError] exactly when the frame has no rows; so the metrics of a
    block whose file has, after its first three rows, only rows of the
    sentinel destination (or no row at all) are a [KeyError], not an
    empty table. *)
Theorem empty_session_is_key_error (parse_float : string -> option Qc)
    (read_raw : string -> nat -> option (list Raw.row))
    (order : list string) (data : list Sample.row) :
  ((forall s, In s data -> Sample.Target_Name s <> ""%string) ->
   (calculate_all_metrics_in order data = inl KeyError <-> data = []))
  /\ (forall pid k csv,
        read_raw pid k = Some csv ->
        (forall r, In r (skipn 3 csv) ->
           Raw.Target_Name r = MISSION_COMPLETE
           /\ parse_float (str_drop_first (Raw.X_Euler_Angle r)) <> None
           /\ parse_float (str_drop_last (Raw.Z_Euler_Angle r)) <> None) ->
        calculate_block_metrics parse_float read_raw pid k
        = Some (inl KeyError)).
Proof.
  split.
  - intros _; split.
    + intro H; destruct data as [| s t]; [reflexivity |].
      assert (Hne : s :: t <> []) by discriminate.
      destruct (calculate_all_metrics_in_returns order Hne) as [rows Hr].
      congruence.
    + intros ->; apply calculate_all_metrics_in_nil.
  - intros pid k csv Hread Hall; unfold calculate_block_metrics.
    rewrite Hread; f_equal.
    destruct (@process_raw_data_total parse_float csv) as [d Hd].
    { intros r Hr; apply (Hall r Hr). }
    rewrite Hd; cbn [bind].
    destruct (process_raw_data_inr _ _ Hd) as [xe [ze [_ [_ ->]]]].
    rewrite filter_none; [reflexivity |].
    intros s Hs; apply assemble_target_names in Hs.
    destruct Hs as [r [Hr ->]].
    rewrite (proj1 (Hall r Hr)); unfold MISSION_COMPLETE; reflexivity.
Qed.

Lemma empty_session_is_key_error_witness :
  calculate_all_metrics_in TARGET_ORDER example_group <> inl KeyError
  /\ calculate_block_metrics parse_nonempty
       (fun _ _ => Some [ raw_row 0 "" 0 0; raw_row 0 "" 0 0; raw_row 0 "" 0 0;
                          raw_row 1 "Mission complete" 0 0 ])
       "BNC01" 1
     = Some (inl KeyError).
Proof.
  split.
  - intro H.
    assert (Hd : forall s, In s example_group ->
                           Sample.Target_Name s <> ""%string).
    { intros s Hs; vm_compute in Hs.
      repeat (destruct Hs as [<- | Hs]; [discriminate |]).
      destruct Hs. }
    pose proof (proj1 (proj1 (empty_session_is_key_error
                                parse_nonempty (fun _ _ => None)
                                TARGET_ORDER example_group) Hd) H) as E.
    discriminate E.
  - apply (proj2 (empty_session_is_key_error parse_nonempty
                    (fun _ _ => Some [ raw_row 0 "" 0 0; raw_row 0 "" 0 0;
                                       raw_row 0 "" 0 0;
                                       raw_row 1 "Mission complete" 0 0 ])
                    [] [])
                 "BNC01"%string 1
                 [ raw_row 0 "" 0 0; raw_row 0 "" 0 0; raw_row 0 "" 0 0;
                   raw_row 1 "Mission complete" 0 0 ] eq_refl).
    intros r [<- | []]; repeat split; discriminate.
Defined.

(** ** The groups partition the session *)

Lemma sum_map_plus (A : Type) (g h : A -> Qc) (l : list A) :
  Series.sum (map (fun a => (g a + h a)%Qc) l)
  = (Series.sum (map g l) + Series.sum (map h l))%Qc.
Proof.
  induction l as [| a t IH]; simpl; [ring |].
  fold (Series.sum (map (fun a => (g a + h a)%Qc) t)).
  fold (Series.sum (map g t)); fold (Series.sum (map h t)).
  rewrite IH; ring.
Qed.

Section Partition.

Variables (A K : Type).
Variable eqb : K -> K -> bool.
Variable key : A -> K.
Variable f : A -> Qc.
Hypothesis eqb_iff : forall a b, eqb a b = true <-> a = b.

Lemma sum_indicator_absent (k0 : K) (v : Qc) (ks : list K) :
  ~ In k0 ks ->
  Series.sum (map (fun k => if eqb k0 k then v else 0%Qc) ks) = 0%Qc.
Proof.
  induction ks as [| k t IH]; intro H; simpl; [reflexivity |].
  fold (Series.sum (map (fun k => if eqb k0 k then v else 0%Qc) t)).
  destruct (eqb k0 k) eqn:E.
  - apply eqb_iff in E; subst; exfalso; apply H; left; reflexivity.
  - rewrite IH; [ring | intro Hin; apply H; right; exact Hin].
Qed.

Lemma sum_indicator (k0 : K) (v : Qc) (ks : list K) :
  NoDup ks -> In k0 ks ->
  Series.sum (map (fun k => if eqb k0 k then v else 0%Qc) ks) = v.
Proof.
  induction 1 as [| k t Hk Hnd IH]; intro Hin; [destruct Hin |]; simpl.
  fold (Series.sum (map (fun k => if eqb k0 k then v else 0%Qc) t)).
  destruct (eqb k0 k) eqn:E.
  - apply eqb_iff in E; subst k.
    rewrite sum_indicator_absent by exact Hk; ring.
  - destruct Hin as [-> | Hin].
    + assert (eqb k0 k0 = true) by (apply eqb_iff; reflexivity); congruence.
    + rewrite (IH Hin); ring.
Qed.

(** Summing group by group over distinct keys that cover the rows gives
    the sum over the rows. *)
Lemma sum_by_groups (ks : list K) (l : list A) :
  NoDup ks -> (forall a, In a l -> In (key a) ks) ->
  Series.sum (map (fun k => Series.sum (map f (rows_of eqb key k l))) ks)
  = Series.sum (map f l).
Proof.
  intros Hnd; induction l as [| a t IH]; intro Hcov.
  - clear Hnd Hcov; induction ks as [| k u IHu]; [reflexivity |].
    unfold Series.sum in *; simpl in *; rewrite IHu; ring.
  - transitivity
      (Series.sum
         (map (fun k => ((if eqb (key a) k then f a else 0)
                         + Series.sum (map f (rows_of eqb key k t)))%Qc) ks)).
    + f_equal; apply map_ext; intro k; unfold rows_of; simpl.
      destruct (eqb (key a) k); simpl; ring.
    + rewrite sum_map_plus, sum_indicator, IH; try assumption.
      * reflexivity.
      * intros x Hx; apply Hcov; right; exact Hx.
      * apply Hcov; left; reflexivity.
Qed.

End Partition.

Lemma frame_rows_explicit (order : list string) (data : list Sample.row)
    (rows : frame) :
  calculate_all_metrics_in order data = inr rows ->
  rows
  = map (fun t => (t, Some (target_metrics t (destination_group t data))))
        (filter (fun t => existsb (String.eqb t) (map Sample.Target_Name data))
                order).
Proof.
  intro H; destruct (calculate_all_metrics_in_inr _ _ H) as [Hl Hrows].
  rewrite <- Hl; clear Hl H.
  induction rows as [| [t om] rest IH]; [reflexivity |].
  simpl; f_equal.
  - rewrite (Hrows t om (or_introl eq_refl)); reflexivity.
  - apply IH; intros t' om' Hin; apply Hrows; right; exact Hin.
Qed.

(** X7, for exact sums: when the canonical list has no repetition and
    names every destination of the data, the total times of the rows
    of the result frame add up to the sum of all time deltas of the
    data, as long as no addition is rounded: every sample counts in
    exactly one row.  On binary64 numbers the two sides add the same
    deltas in different orders and can differ by a rounding error, as
    the section on binary64 numbers shows on two destinations. *)
Theorem total_times_partition_session (order : list string)
    (data : list Sample.row) (rows : frame) :
  calculate_all_metrics_in order data = inr rows ->
  NoDup order ->
  (forall s, In s data -> In (Sample.Target_Name s) order) ->
  Series.sum (map Metrics.Total_Time (frame_metrics rows))
  = Series.sum (map Sample.Time_Diff data).
Proof.
  intros H Hnd Hcov; rewrite (frame_rows_explicit _ _ H).
  set (avail := filter _ order).
  assert (Hm : frame_metrics
                 (map (fun t => (t, Some (target_metrics t
                                            (destination_group t data))))
                      avail)
               = map (fun t => target_metrics t (destination_group t data))
                     avail).
  { unfold frame_metrics; induction avail as [| t u IH]; simpl;
      [| rewrite IH]; reflexivity. }
  rewrite Hm, map_map; cbn [target_metrics Metrics.Total_Time].
  apply (sum_by_groups String.eqb Sample.Target_Name Sample.Time_Diff
                       String.eqb_eq).
  - apply NoDup_filter, Hnd.
  - intros s Hs; apply filter_In; split; [apply Hcov, Hs |].
    apply (existsb_eqb_In String.eqb String.eqb_eq), in_map, Hs.
Qed.

Lemma total_times_partition_session_witness :
  exists rows,
    calculate_all_metrics_in ["D1"; "D2"; "D3"]%string d3_d1_data = inr rows
    /\ Series.sum (map Metrics.Total_Time (frame_metrics rows))
       = Series.sum (map Sample.Time_Diff d3_d1_data).
Proof.
  assert (Hne : d3_d1_data <> []) by discriminate.
  destruct (calculate_all_metrics_in_returns ["D1"; "D2"; "D3"]%string Hne)
    as [rows Hr].
  exists rows; split; [exact Hr |].
  apply (@total_times_partition_session ["D1"; "D2"; "D3"]%string
           d3_d1_data rows Hr).
  - repeat constructor; simpl; intuition discriminate.
  - intros s Hs; simpl in Hs.
    repeat (destruct Hs as [<- | Hs]; [simpl; tauto |]).
    destruct Hs.
Defined.

(** ** The index of the result frame *)

Lemma TARGET_ORDER_NoDup : NoDup TARGET_ORDER.
Proof.
  unfold TARGET_ORDER; repeat constructor; simpl; intuition discriminate.
Qed.

(** X8: the frame that [calculate_all_metrics] returns has pairwise
    different row labels and at most eight rows; every label is one of
    the eight canonical destinations and is the destination of some
    sample, so samples of any other destination leave no row. *)
Theorem calculate_all_metrics_index (data : list Sample.row) (rows : frame) :
  calculate_all_metrics data = inr rows ->
  NoDup (map fst rows)
  /\ length rows <= 8
  /\ (forall t, In t (map fst rows) ->
        In t TARGET_ORDER /\ exists s, In s data /\ Sample.Target_Name s = t).
Proof.
  unfold calculate_all_metrics; intro H.
  destruct (calculate_all_metrics_in_inr _ _ H) as [Hl _].
  split; [| split].
  - rewrite Hl; apply NoDup_filter, TARGET_ORDER_NoDup.
  - rewrite <- (length_map fst), Hl.
    change 8 with (length TARGET_ORDER); apply filter_length_le.
  - intros t Ht; rewrite Hl in Ht; apply filter_In in Ht.
    destruct Ht as [Ht Hex]; split; [exact Ht |].
    apply (existsb_eqb_In String.eqb String.eqb_eq), in_map_iff in Hex.
    destruct Hex as [s [Es Hs]]; exists s; auto.
Qed.

Lemma calculate_all_metrics_index_witness :
  exists rows,
    calculate_all_metrics example_group = inr rows
    /\ NoDup (map fst rows) /\ length rows <= 8.
Proof.
  assert (Hne : example_group <> []) by discriminate.
  destruct (calculate_all_metrics_in_returns TARGET_ORDER Hne) as [rows Hr].
  exists rows; split; [exact Hr |].
  destruct (@calculate_all_metrics_index example_group rows Hr) as [H1 [H2 _]].
  split; assumption.
Defined.

(** ** Distance, teleport count and mean teleport distance *)

Lemma teleport_distances_path (ps : list pos) :
  Series.rsum (teleport_distances ps) = path_length ps.
Proof.
  induction ps as [| p [| q u] IH]; try reflexivity.
  change (teleport_distances (p :: q :: u))
    with (dist p q :: teleport_distances (q :: u)).
  change (path_length (p :: q :: u))
    with (dist p q + path_length (q :: u))%R.
  cbn [Series.rsum fold_right].
  fold (Series.rsum (teleport_distances (q :: u))).
  rewrite IH; reflexivity.
Qed.

Lemma teleport_distances_length (ps : list pos) :
  length (teleport_distances ps) = length ps - 1.
Proof.
  induction ps as [| p [| q u] IH]; try reflexivity.
  change (teleport_distances (p :: q :: u))
    with (dist p q :: teleport_distances (q :: u)).
  cbn [length] in *; rewrite IH; lia.
Qed.

Lemma unique_positions_length (group : list Sample.row) :
  length (unique_positions group) = teleportations group.
Proof.
  unfold unique_positions, teleportations, drop_duplicates.
  rewrite keep_first_from_map; reflexivity.
Qed.

Lemma distance_unique_positions (group : list Sample.row) :
  distance group = path_length (unique_positions group).
Proof. rewrite distance_path; reflexivity. Qed.

(** X9, for exact real numbers: in the statistics of any group the
    distance is the mean teleport distance times the number of hops,
    which is the teleport count minus one (no hop, and both statistics
    0, for a count below two).  The square roots, the sum and the
    division are those of the real numbers here; the binary64 values
    of the program round each of them and are outside this
    statement. *)
Theorem distance_is_mean_hop_times_hops (name : string)
    (group : list Sample.row) :
  let m := target_metrics name group in
  Metrics.Distance m
  = (Metrics.Mean_Teleport_Distance m
     * INR (Metrics.Teleportations m - 1))%R.
Proof.
  cbn zeta;
    cbn [target_metrics Metrics.Distance Metrics.Mean_Teleport_Distance
         Metrics.Teleportations].
  rewrite distance_unique_positions, <- unique_positions_length.
  unfold mean_teleport_distance.
  destruct (1 <? length (unique_positions group)) eqn:E.
  - apply Nat.ltb_lt in E; unfold Series.rmean.
    rewrite teleport_distances_path, teleport_distances_length.
    field; apply not_0_INR; lia.
  - apply Nat.ltb_ge in E; rewrite path_length_short by exact E; lra.
Qed.

(** ** Signs of the statistics *)

Lemma rsum_nonneg (l : list R) :
  Forall (fun x => (0 <= x)%R) l -> (0 <= Series.rsum l)%R.
Proof.
  induction 1 as [| x t Hx _ IH]; simpl; [lra |].
  fold (Series.rsum t); lra.
Qed.

Lemma teleport_distances_nonneg (ps : list pos) :
  Forall (fun x => (0 <= x)%R) (teleport_distances ps).
Proof.
  induction ps as [| p [| q u] IH]; try constructor.
  - apply dist_nonneg.
  - exact IH.
Qed.

Lemma keep_first_from_length_le (A K : Type) (eqb : K -> K -> bool)
    (key : A -> K) (seen : list K) (l : list A) :
  length (keep_first_from eqb key seen l) <= length l.
Proof.
  revert seen; induction l as [| a t IH]; intro seen; simpl; [lia |].
  destruct (existsb (eqb (key a)) seen); simpl.
  - specialize (IH seen); lia.
  - specialize (IH (key a :: seen)); lia.
Qed.

(** X10: for every group the speed and the mean teleport distance are
    not negative, and the teleport count is at most the number of
    samples; a group with at least one sample has a teleport count of
    at least one. *)
Theorem statistics_signs (name : string) (group : list Sample.row) :
  let m := target_metrics name group in
  (0 <= Metrics.Speed m)%R
  /\ (0 <= Metrics.Mean_Teleport_Distance m)%R
  /\ Metrics.Teleportations m <= length group
  /\ (group <> [] -> 1 <= Metrics.Teleportations m).
Proof.
  cbn zeta;
    cbn [target_metrics Metrics.Speed Metrics.Mean_Teleport_Distance
         Metrics.Teleportations].
  split; [| split; [| split]].
  - unfold speed.
    destruct (Qclt_le_dec 0%Qc _) as [Hpos | _]; [| lra].
    apply Rmult_le_pos.
    + rewrite distance_path; apply path_length_nonneg.
    + apply Rlt_le, Rinv_0_lt_compat.
      replace 0%R with (Q2R 0) by (unfold Q2R; simpl; lra).
      apply Qlt_Rlt; exact Hpos.
  - unfold mean_teleport_distance.
    destruct (1 <? length (unique_positions group)) eqn:E; [| lra].
    apply Nat.ltb_lt in E; unfold Series.rmean.
    apply Rmult_le_pos.
    + apply rsum_nonneg, teleport_distances_nonneg.
    + apply Rlt_le, Rinv_0_lt_compat, lt_0_INR.
      rewrite teleport_distances_length; lia.
  - unfold teleportations, drop_duplicates.
    rewrite <- (length_map position group).
    apply keep_first_from_length_le.
  - intro Hne; unfold teleportations, drop_duplicates.
    destruct group as [| s t]; [contradiction |]; simpl; lia.
Qed.

Lemma statistics_signs_witness :
  1 <= Metrics.Teleportations (target_metrics "Bank" example_group).
Proof.
  apply (proj2 (proj2 (proj2 (statistics_signs "Bank" example_group)))).
  discriminate.
Defined.

(** ** Order of the dwell buckets *)

Section SortFacts.

Variable K : Type.
Variable leb : K -> K -> bool.

Lemma insert_key_perm (k : K) (l : list K) :
  Permutation (insert_key leb k l) (k :: l).
Proof.
  induction l as [| h t IH]; simpl; [apply Permutation_refl |].
  destruct (leb k h); [apply Permutation_refl |].
  apply perm_trans with (h :: k :: t);
    [apply perm_skip, IH | apply perm_swap].
Qed.

Lemma sort_keys_perm (l : list K) : Permutation (sort_keys leb l) l.
Proof.
  induction l as [| h t IH]; simpl; [apply Permutation_refl |].
  apply perm_trans with (h :: sort_keys leb t);
    [apply insert_key_perm | apply perm_skip, IH].
Qed.

Lemma insert_key_least (k : K) (l : list K) :
  (forall x, In x l -> leb k x = true) -> insert_key leb k l = k :: l.
Proof.
  destruct l as [| h t]; intro H; simpl; [reflexivity |].
  rewrite (H h (or_introl eq_refl)); reflexivity.
Qed.

Lemma sort_keys_least_first (k : K) (l : list K) :
  (forall x, In x l -> leb k x = true) ->
  sort_keys leb (k :: l) = k :: sort_keys leb l.
Proof.
  intro H; simpl; apply insert_key_least.
  intros x Hx; apply H.
  apply (Permutation_in x (sort_keys_perm l)); exact Hx.
Qed.

End SortFacts.

Lemma sum_perm (l l' : list Qc) :
  Permutation l l' -> Series.sum l = Series.sum l'.
Proof.
  induction 1 as [| x l l' _ IH | x y l | l l' l'' _ IH1 _ IH2]; simpl.
  - reflexivity.
  - fold (Series.sum l); fold (Series.sum l'); rewrite IH; reflexivity.
  - fold (Series.sum l); ring.
  - congruence.
Qed.

Lemma mean_perm (l l' : list Qc) :
  Permutation l l' -> Series.mean l = Series.mean l'.
Proof.
  intro H; unfold Series.mean.
  rewrite (sum_perm H), (Permutation_length H); reflexivity.
Qed.

Lemma dwell_times_sorted_keys (group : list Sample.row) :
  dwell_times group
  = map (bucket_dwell group)
        (sort_keys pos_leb
           (map position (drop_duplicates pos_eqb position group))).
Proof.
  unfold dwell_times, groupby; rewrite map_map; reflexivity.
Qed.

Lemma dwell_times_first_keys (group : list Sample.row) :
  dwell_times_by_first_encounter group
  = map (bucket_dwell group)
        (map position (drop_duplicates pos_eqb position group)).
Proof.
  unfold dwell_times_by_first_encounter; rewrite map_map; reflexivity.
Qed.

(** X11: the dwell list of the engine holds the same bucket dwells as
    the list in order of first encounter, in another order; and when no
    position of the group has a smaller (X, Z) key than the position of
    its first sample, the engine's mean dwell is the mean that leaves
    out the first bucket met. *)
Theorem mean_dwell_agrees_when_start_is_least (name : string)
    (s0 : Sample.row) (rest : list Sample.row) :
  Permutation (dwell_times (s0 :: rest))
              (dwell_times_by_first_encounter (s0 :: rest))
  /\ ((forall s, In s rest -> pos_leb (position s0) (position s) = true) ->
      Metrics.Mean_Dwell (target_metrics name (s0 :: rest))
      = mean_dwell_by_first_encounter (s0 :: rest)).
Proof.
  rewrite dwell_times_sorted_keys, dwell_times_first_keys.
  split; [apply Permutation_map, sort_keys_perm |].
  intro Hleast.
  cbn [target_metrics Metrics.Mean_Dwell].
  unfold mean_dwell, mean_dwell_by_first_encounter.
  rewrite dwell_times_sorted_keys, dwell_times_first_keys.
  unfold drop_duplicates; cbn [keep_first_from existsb map].
  set (ks := map position
               (keep_first_from pos_eqb position [position s0] rest)).
  rewrite sort_keys_least_first.
  - cbn [map length tl]; rewrite !length_map, sort_keys_length.
    destruct (1 <? S (length ks)); [| reflexivity].
    apply mean_perm, Permutation_map, sort_keys_perm.
  - intros k Hk; unfold ks in Hk; apply in_map_iff in Hk.
    destruct Hk as [s [<- Hs]].
    apply Hleast, (keep_first_from_incl pos_eqb position _ _ s Hs).
Qed.

Lemma mean_dwell_agrees_when_start_is_least_witness :
  Metrics.Mean_Dwell (target_metrics "Bank" example_group)
  = mean_dwell_by_first_encounter example_group.
Proof.
  apply (proj2 (mean_dwell_agrees_when_start_is_least "Bank"
                  (sample_at "Bank" start_position 0 1)
                  (tl example_group))).
  intros s Hs; cbn [example_group tl] in Hs.
  repeat (destruct Hs as [<- | Hs]; [vm_compute; reflexivity |]).
  destruct Hs.
Defined.

(** ** Sign of the mean dwell *)

Lemma StronglySorted_filter_map (A : Type) (f : A -> Qc) (p : A -> bool)
    (l : list A) :
  StronglySorted Qcle (map f l) -> StronglySorted Qcle (map f (filter p l)).
Proof.
  induction l as [| a t IH]; simpl; intro H; [constructor |].
  inversion H as [| ? ? Hs Hall]; subst.
  destruct (p a); simpl; [| apply IH, Hs].
  constructor; [apply IH, Hs |].
  rewrite Forall_forall in *; intros x Hx; apply Hall.
  apply in_map_iff in Hx; destruct Hx as [b [<- Hb]].
  apply in_map, (proj1 (filter_In p b t) Hb).
Qed.

Lemma last_In (d : Qc) (l : list Qc) : l <> [] -> In (last l d) l.
Proof.
  induction l as [| x t IH]; intro H; [contradiction |].
  destruct t as [| y u]; [left; reflexivity |].
  right; apply IH; discriminate.
Qed.

Lemma StronglySorted_hd_last (l : list Qc) :
  StronglySorted Qcle l -> (hd 0 l <= last l 0)%Qc.
Proof.
  destruct l as [| x t]; intro H; [apply Qcle_refl |].
  inversion H as [| ? ? _ Hall]; subst.
  rewrite last_cons; cbn [hd].
  destruct t as [| y u]; [apply Qcle_refl |].
  rewrite Forall_forall in Hall; apply Hall, last_In; discriminate.
Qed.

Lemma Qcle_trans_instance : Relations_1.Transitive Qcle.
Proof. intros x y z; apply Qcle_trans. Qed.

Lemma of_nat_nonneg (n : nat) : (0 <= Series.of_nat n)%Qc.
Proof.
  unfold Series.of_nat, Qcle, Q2Qc; cbn [this]; rewrite !Qred_correct.
  unfold Qle; simpl; lia.
Qed.

Lemma Qcinv_nonneg (x : Qc) : (0 <= x)%Qc -> (0 <= / x)%Qc.
Proof.
  unfold Qcinv, Qcle, Q2Qc; cbn [this]; rewrite !Qred_correct.
  apply Qinv_le_0_compat.
Qed.

Lemma mean_nonneg (l : list Qc) :
  Forall (fun x => (0 <= x)%Qc) l -> (0 <= Series.mean l)%Qc.
Proof.
  intro H; unfold Series.mean, Qcdiv.
  rewrite <- (Qcmult_0_l (/ Series.of_nat (length l))).
  apply Qcmult_le_compat_r; [apply sum_nonneg, H |].
  apply Qcinv_nonneg, of_nat_nonneg.
Qed.

(** X12: when the times of a group never decrease along its samples,
    its mean dwell is not negative. *)
Theorem mean_dwell_nonneg (name : string) (group : list Sample.row) :
  Sorted Qcle (map Sample.Time group) ->
  (0 <= Metrics.Mean_Dwell (target_metrics name group))%Qc.
Proof.
  intro Hs; cbn [target_metrics Metrics.Mean_Dwell]; unfold mean_dwell.
  destruct (1 <? length (dwell_times group)); [| apply Qcle_refl].
  apply mean_nonneg.
  assert (Hall : Forall (fun x => (0 <= x)%Qc) (dwell_times group)).
  { rewrite dwell_times_sorted_keys; apply Forall_forall; intros d Hd.
    apply in_map_iff in Hd; destruct Hd as [k [<- _]].
    unfold bucket_dwell, dwell, rows_of, Qcminus.
    apply (proj1 (Qcle_minus_iff _ _)), StronglySorted_hd_last.
    apply StronglySorted_filter_map, Sorted_StronglySorted;
      [exact Qcle_trans_instance | exact Hs]. }
  destruct (dwell_times group) as [| d ds]; [constructor |].
  inversion Hall; assumption.
Qed.

Lemma mean_dwell_nonneg_witness :
  (0 <= Metrics.Mean_Dwell (target_metrics "Bank" example_group))%Qc.
Proof.
  apply mean_dwell_nonneg.
  cbn [example_group map sample_at Sample.Time].
  repeat constructor; unfold Qcle; vm_compute; discriminate.
Defined.

(** ** The merged table *)

Lemma filter_flat_map (A B : Type) (p : B -> bool) (f : A -> list B)
    (l : list A) :
  filter p (flat_map f l) = flat_map (fun a => filter p (f a)) l.
Proof.
  induction l as [| a t IH]; simpl; [reflexivity |].
  rewrite filter_app, IH; reflexivity.
Qed.

Lemma flat_map_nil (A B : Type) (f : A -> list B) (l : list A) :
  (forall a, In a l -> f a = []) -> flat_map f l = [].
Proof.
  induction l as [| a t IH]; intro H; simpl; [reflexivity |].
  rewrite (H a (or_introl eq_refl)), IH; [reflexivity |].
  intros; apply H; right; assumption.
Qed.

Lemma filter_tag_rows_same (pid : string) (k : nat) (df : list Block.row) :
  filter (tagged pid k) (tag_rows pid k df) = tag_rows pid k df.
Proof.
  apply filter_all; intros r Hr; unfold tag_rows in Hr.
  apply in_map_iff in Hr; destruct Hr as [x [<- _]]; unfold tagged; simpl.
  rewrite String.eqb_refl, Nat.eqb_refl; reflexivity.
Qed.

Lemma filter_tag_rows_other (pid pid' : string) (k k' : nat)
    (df : list Block.row) :
  pid' <> pid \/ k' <> k ->
  filter (tagged pid k) (tag_rows pid' k' df) = [].
Proof.
  intro H; apply filter_none; intros r Hr; unfold tag_rows in Hr.
  apply in_map_iff in Hr; destruct Hr as [x [<- _]]; unfold tagged; simpl.
  destruct H as [H | H].
  - apply String.eqb_neq in H; rewrite H; reflexivity.
  - apply Nat.eqb_neq in H; rewrite H; apply andb_false_r.
Qed.

Section MergeFacts.

Variable read_csv : string -> nat -> option (list Block.row).

Lemma merge_block_results_flat (participant_ids : list string) :
  merge_block_results read_csv participant_ids
  = flat_map (participant_rows read_csv) participant_ids.
Proof.
  unfold merge_block_results.
  assert (H : concat (all_results read_csv participant_ids)
              = flat_map (participant_rows read_csv) participant_ids).
  { unfold all_results.
    set (g := fun pid : string => flat_map _ [1; 2; 3]).
    induction participant_ids as [| pid t IH]; [reflexivity |].
    cbn [flat_map]; rewrite concat_app, IH; f_equal.
    unfold g, participant_rows, block_of; cbn [flat_map].
    destruct (read_csv pid 1), (read_csv pid 2), (read_csv pid 3);
      simpl; rewrite ?app_nil_r; reflexivity. }
  rewrite <- H; destruct (all_results read_csv participant_ids); reflexivity.
Qed.

Lemma participant_rows_other (pid pid' : string) (k : nat) :
  pid' <> pid -> filter (tagged pid k) (participant_rows read_csv pid') = [].
Proof.
  intro H; unfold participant_rows; rewrite filter_flat_map.
  apply flat_map_nil; intros k' _.
  apply filter_tag_rows_other; left; exact H.
Qed.

Lemma participant_rows_block (pid : string) (k : nat) :
  In k [1; 2; 3] ->
  filter (tagged pid k) (participant_rows read_csv pid)
  = tag_rows pid k (block_of read_csv pid k).
Proof.
  intro Hk; unfold participant_rows; rewrite filter_flat_map; cbn [flat_map].
  destruct Hk as [<- | [<- | [<- | []]]];
    rewrite filter_tag_rows_same, !filter_tag_rows_other by (right; lia);
    rewrite ?app_nil_r; reflexivity.
Qed.

Lemma participant_rows_no_block (pid : string) (k : nat) :
  ~ In k [1; 2; 3] -> filter (tagged pid k) (participant_rows read_csv pid) = [].
Proof.
  intro Hk; unfold participant_rows; rewrite filter_flat_map.
  apply flat_map_nil; intros k' Hk'.
  apply filter_tag_rows_other; right; intros ->; contradiction.
Qed.

(** The rows of the merged table with the tags of one block are the
    rows of that block's file, tagged. *)
Lemma merged_rows_of_block (participant_ids : list string) (pid : string)
    (k : nat) :
  NoDup participant_ids -> In pid participant_ids -> In k [1; 2; 3] ->
  filter (tagged pid k) (merge_block_results read_csv participant_ids)
  = tag_rows pid k (block_of read_csv pid k).
Proof.
  intros Hnd Hin Hk; rewrite merge_block_results_flat, filter_flat_map.
  induction Hnd as [| p t Hp Hnd IH]; [destruct Hin |]; cbn [flat_map].
  destruct Hin as [-> | Hin].
  - rewrite participant_rows_block by exact Hk.
    rewrite flat_map_nil; [apply app_nil_r |].
    intros p' Hp'; apply participant_rows_other.
    intros ->; contradiction.
  - rewrite participant_rows_other, IH by
      (try exact Hin; intros ->; contradiction).
    reflexivity.
Qed.

Lemma merged_rows_absent (participant_ids : list string) (pid : string)
    (k : nat) :
  ~ In pid participant_ids \/ ~ In k [1; 2; 3] ->
  filter (tagged pid k) (merge_block_results read_csv participant_ids) = [].
Proof.
  intro H; rewrite merge_block_results_flat, filter_flat_map.
  apply flat_map_nil; intros p Hp.
  destruct H as [H | H].
  - apply participant_rows_other; intros ->; contradiction.
  - destruct (String.eqb_spec p pid) as [-> | Hne].
    + apply participant_rows_no_block, H.
    + apply participant_rows_other, Hne.
Qed.

End MergeFacts.

Lemma untag_tag_rows (pid : string) (k : nat) (df : list Block.row) :
  map untag (tag_rows pid k df) = df.
Proof.
  unfold tag_rows; rewrite map_map.
  rewrite <- (map_id df) at 2; apply map_ext; intros [t c]; reflexivity.
Qed.

(** X13: with pairwise different participant identifiers, selecting
    from the merged table the rows of one listed participant and one
    block from 1 to 3 and dropping the two tags gives back the rows of
    that block's file, in their order, and no row if the file is
    missing; no row of the merged table carries another participant or
    another block number. *)
Theorem merge_select_round_trip
    (read_csv : string -> nat -> option (list Block.row))
    (participant_ids : list string) (pid : string) (k : nat) :
  NoDup participant_ids ->
  (In pid participant_ids -> In k [1; 2; 3] ->
   map untag
       (filter (tagged pid k) (merge_block_results read_csv participant_ids))
   = block_of read_csv pid k)
  /\ (~ In pid participant_ids \/ ~ In k [1; 2; 3] ->
      filter (tagged pid k) (merge_block_results read_csv participant_ids)
      = []).
Proof.
  intro Hnd; split.
  - intros Hin Hk.
    rewrite merged_rows_of_block by assumption.
    apply untag_tag_rows.
  - apply merged_rows_absent.
Qed.

Lemma merge_select_round_trip_witness :
  map untag
      (filter (tagged "BNC01" 1)
              (merge_block_results two_participants ["BNC01"; "BNC02"]%string))
  = block_table.
Proof.
  apply (proj1 (@merge_select_round_trip two_participants
                  ["BNC01"; "BNC02"]%string "BNC01"%string 1
                  ltac:(repeat constructor; simpl; intuition discriminate))).
  - left; reflexivity.
  - left; reflexivity.
Defined.

Lemma filter_filter (A : Type) (p q : A -> bool) (l : list A) :
  filter p (filter q l) = filter (fun a => q a && p a) l.
Proof.
  induction l as [| a t IH]; simpl; [reflexivity |].
  destruct (q a); simpl; [destruct (p a); rewrite IH |]; auto.
Qed.

Lemma filter_name_NoDup (t : string) (df : list Block.row) :
  NoDup (map Block.Target_Name df) ->
  length (filter (fun r => String.eqb (Block.Target_Name r) t) df) <= 1.
Proof.
  induction df as [| r u IH]; simpl; intro H; [lia |].
  inversion H as [| ? ? Hr Hu]; subst.
  destruct (String.eqb_spec (Block.Target_Name r) t) as [E | _];
    [| apply IH, Hu].
  rewrite filter_none; [simpl; lia |].
  intros x Hx; apply String.eqb_neq; intro Ex.
  apply Hr; rewrite E, <- Ex; apply in_map, Hx.
Qed.

(** X14: when the participant identifiers are pairwise different and in
    every block file the destination names are pairwise different, at
    most one record of the merged table has a given key (participant,
    block, destination). *)
Theorem merged_key_is_unique
    (read_csv : string -> nat -> option (list Block.row))
    (participant_ids : list string) (p : string) (b : nat) (t : string) :
  NoDup participant_ids ->
  (forall pid k df, read_csv pid k = Some df ->
                    NoDup (map Block.Target_Name df)) ->
  length (filter (condition p b t)
                 (merge_block_results read_csv participant_ids)) <= 1.
Proof.
  intros Hnd Hnames.
  assert (E : filter (condition p b t)
                (merge_block_results read_csv participant_ids)
              = filter (fun r => String.eqb (Merged.Target_Name r) t)
                  (filter (tagged p b)
                     (merge_block_results read_csv participant_ids))).
  { rewrite filter_filter; apply filter_ext; intro r; reflexivity. }
  rewrite E; clear E.
  destruct (in_dec string_dec p participant_ids) as [Hp | Hp];
    [| rewrite merged_rows_absent by (left; exact Hp); simpl; lia].
  destruct (in_dec Nat.eq_dec b [1; 2; 3]) as [Hb | Hb];
    [| rewrite merged_rows_absent by (right; exact Hb); simpl; lia].
  rewrite merged_rows_of_block by assumption.
  unfold tag_rows; rewrite filter_map_comm, length_map; cbn [Merged.Target_Name].
  apply filter_name_NoDup.
  unfold block_of; destruct (read_csv p b) as [df |] eqn:Er;
    [apply (Hnames p b df Er) | constructor].
Qed.

Lemma two_participants_names (pid : string) (k : nat) (df : list Block.row) :
  two_participants pid k = Some df -> NoDup (map Block.Target_Name df).
Proof.
  unfold two_participants.
  destruct (String.eqb pid "BNC01"); [destruct (Nat.eqb k 2) |];
    [discriminate | | destruct (String.eqb pid "BNC02"); [| discriminate]];
    intro H; injection H as <-;
    repeat constructor; simpl; intuition discriminate.
Qed.

Lemma merged_key_is_unique_witness :
  length (filter (condition "BNC01" 1 "Bank")
                 (merge_block_results two_participants
                                      ["BNC01"; "BNC02"]%string)) <= 1.
Proof.
  apply merged_key_is_unique.
  - repeat constructor; simpl; intuition discriminate.
  - exact two_participants_names.
Defined.

(** ** The averaged table and the merged table *)

(** X15: with pairwise different participant identifiers, each
    statistic of the averaged row of an existing block file is the mean,
    NaN left out, of that column over the rows of the merged table that
    carry the participant and the block. *)
Theorem average_is_mean_of_merged_rows
    (read_csv : string -> nat -> option (list Block.row))
    (participant_ids : list string) (pid : string) (k : nat)
    (df : list Block.row) (col : Table.column) :
  NoDup participant_ids -> In pid participant_ids -> In k [1; 2; 3] ->
  read_csv pid k = Some df ->
  In (average_row pid k df) (average_metrics read_csv participant_ids)
  /\ Table.get col (Averaged.stats (average_row pid k df))
     = Series.mean_skipna
         (map (fun r => Table.get col (Merged.stats r))
              (filter (tagged pid k)
                      (merge_block_results read_csv participant_ids))).
Proof.
  intros Hnd Hin Hk Hread; split.
  - apply average_metrics_In; exists pid, k, df; auto.
  - rewrite merged_rows_of_block by assumption.
    unfold block_of; rewrite Hread, average_row_get.
    unfold column_mean, tag_rows; rewrite map_map; reflexivity.
Qed.

Lemma average_is_mean_of_merged_rows_witness :
  Table.get Table.Total_Time
            (Averaged.stats (average_row "BNC01" 1 block_table))
  = Series.mean_skipna
      (map (fun r => Table.get Table.Total_Time (Merged.stats r))
           (filter (tagged "BNC01" 1)
                   (merge_block_results two_participants
                                        ["BNC01"; "BNC02"]%string))).
Proof.
  apply (@average_is_mean_of_merged_rows two_participants
           ["BNC01"; "BNC02"]%string "BNC01"%string 1 block_table
           Table.Total_Time).
  - repeat constructor; simpl; intuition discriminate.
  - left; reflexivity.
  - left; reflexivity.
  - reflexivity.
Defined.

Lemma dropna_nil_iff (l : list Series.cell) :
  Series.dropna l = [] <-> forall c, In c l -> c = None.
Proof.
  induction l as [| [x |] t IH]; simpl.
  - split; [intros _ c [] | reflexivity].
  - split; [discriminate |].
    intro H; specialize (H (Some x) (or_introl eq_refl)); discriminate.
  - rewrite IH; split.
    + intros H c [<- | Hc]; [reflexivity | apply H, Hc].
    + intros H c Hc; apply H; right; exact Hc.
Qed.

(** X16: a statistic of an averaged row is NaN exactly when no
    destination row of the block file has a number in that column; in
    particular a block file without rows gives a row of NaN, not a
    failure and not zeros. *)
Theorem average_is_nan_iff_column_is_empty (pid : string) (k : nat)
    (df : list Block.row) (col : Table.column) :
  (Table.get col (Averaged.stats (average_row pid k df)) = None
   <-> forall r, In r df -> Table.get col (Block.stats r) = None)
  /\ Averaged.stats (average_row pid k []) = Table.nan_cells.
Proof.
  split; [| reflexivity].
  rewrite average_row_get; unfold column_mean, Series.mean_skipna.
  destruct (Series.dropna (map _ df)) as [| v vs] eqn:E.
  - split; [intros _ | reflexivity].
    intros r Hr; apply (proj1 (dropna_nil_iff _) E).
    apply (in_map (fun r => Table.get col (Block.stats r))), Hr.
  - split; [discriminate |].
    intro H; exfalso.
    assert (E' : Series.dropna
                   (map (fun r => Table.get col (Block.stats r)) df) = []).
    { apply dropna_nil_iff; intros c Hc; apply in_map_iff in Hc.
      destruct Hc as [r [<- Hr]]; apply H, Hr. }
    congruence.
Qed.

(** ** More on the correction *)

Lemma loc_update_keys (cond : Merged.row -> bool)
    (f : Table.cells -> Table.cells) (df : list Merged.row) :
  map merged_key (loc_update cond f df) = map merged_key df.
Proof.
  unfold loc_update; rewrite map_map; apply map_ext; intro r.
  destruct (cond r); reflexivity.
Qed.

Lemma loc_update_others (p : string) (b : nat) (t : string)
    (f : Table.cells -> Table.cells) (df : list Merged.row) :
  filter (fun r => negb (condition p b t r))
         (loc_update (condition p b t) f df)
  = filter (fun r => negb (condition p b t r)) df.
Proof.
  induction df as [| r u IH]; simpl; [reflexivity |].
  destruct (condition p b t r) eqn:E; simpl.
  - rewrite condition_update_stats, E; simpl; exact IH.
  - rewrite E; simpl; rewrite IH; reflexivity.
Qed.

Lemma fix_erroneous_data_not_found (df_merged : list Merged.row)
    (df_averaged : list Averaged.row) (p : string) (b : nat) (t : string)
    (col : Table.column) :
  existsb (condition p b t) df_merged = false ->
  fix_erroneous_data df_merged df_averaged p b t col
  = (df_merged, df_averaged).
Proof. intro H; unfold fix_erroneous_data; rewrite H; reflexivity. Qed.

(** X17: for any merged table, with or without the key in it and with
    or without repeated keys, the correction keeps the number, the
    order and the keys of the records and leaves every record with
    another key as it is; when no record has the key, both tables are
    returned unchanged. *)
Theorem correction_keeps_records (df_merged : list Merged.row)
    (df_averaged : list Averaged.row) (p : string) (b : nat) (t : string)
    (col : Table.column) :
  let merged' := fst (fix_erroneous_data df_merged df_averaged p b t col) in
  map merged_key merged' = map merged_key df_merged
  /\ filter (fun r => negb (condition p b t r)) merged'
     = filter (fun r => negb (condition p b t r)) df_merged
  /\ (existsb (condition p b t) df_merged = false ->
      fix_erroneous_data df_merged df_averaged p b t col
      = (df_merged, df_averaged)).
Proof.
  cbn zeta.
  destruct (existsb (condition p b t) df_merged) eqn:E.
  - rewrite fix_erroneous_data_merged by exact E.
    split; [| split; [| discriminate]].
    + rewrite loc_update_keys.
      destruct (Table.column_eqb col Table.Orientation_Time);
        [apply loc_update_keys | reflexivity].
    + rewrite loc_update_others.
      destruct (Table.column_eqb col Table.Orientation_Time);
        [apply loc_update_others | reflexivity].
  - rewrite fix_erroneous_data_not_found by exact E.
    repeat split.
Qed.

Lemma correction_keeps_records_witness :
  fix_erroneous_data merged_table [] "BNC40" 1 "Pawn Shop"
                     Table.Orientation_Time
  = (merged_table, []).
Proof.
  apply (proj2 (proj2 (correction_keeps_records merged_table []
                         "BNC40" 1 "Pawn Shop" Table.Orientation_Time))).
  reflexivity.
Defined.

Lemma fix_erroneous_data_single (pre post : list Merged.row) (r : Merged.row)
    (df_averaged : list Averaged.row) (p : string) (b : nat) (t : string)
    (col : Table.column) :
  condition p b t r = true ->
  (forall x, In x (pre ++ post) -> condition p b t x = false) ->
  fst (fix_erroneous_data (pre ++ r :: post) df_averaged p b t col)
  = pre ++ update_stats (corrected_cells col) r :: post.
Proof.
  intros Hr Hn.
  assert (Hex : existsb (condition p b t) (pre ++ r :: post) = true).
  { rewrite existsb_app; cbn [existsb]; rewrite Hr.
    rewrite orb_true_r; reflexivity. }
  assert (Hfirst : filter (condition p b t) (pre ++ r :: post)
                   = r :: filter (condition p b t) post).
  { rewrite filter_app; cbn [filter]; rewrite Hr.
    rewrite filter_none; [reflexivity |].
    intros; apply Hn, in_or_app; auto. }
  rewrite fix_erroneous_data_merged by exact Hex; rewrite Hfirst.
  unfold corrected_cells.
  destruct (Table.column_eqb col Table.Orientation_Time).
  - rewrite loc_update_single by first [exact Hr | exact Hn].
    rewrite loc_update_single by first [exact Hr | exact Hn].
    reflexivity.
  - rewrite loc_update_single by first [exact Hr | exact Hn].
    reflexivity.
Qed.

Lemma sub_nan (c : Series.cell) : Table.sub c None = None.
Proof. destruct c; reflexivity. Qed.

(** X18: when exactly one record has the key, correcting a field other
    than the orientation time a second time changes nothing more in the
    merged table, but correcting the orientation time a second time
    turns the total time of the record into NaN, because the
    orientation time that is subtracted is by then NaN. *)
Theorem correction_repeated (pre post : list Merged.row) (r : Merged.row)
    (avg avg' : list Averaged.row) (p : string) (b : nat) (t : string)
    (col : Table.column) :
  condition p b t r = true ->
  (forall x, In x (pre ++ post) -> condition p b t x = false) ->
  let once := fst (fix_erroneous_data (pre ++ r :: post) avg p b t col) in
  let twice := fst (fix_erroneous_data once avg' p b t col) in
  (col <> Table.Orientation_Time -> twice = once)
  /\ (col = Table.Orientation_Time ->
      exists r2, twice = pre ++ r2 :: post
                 /\ Table.total_time (Merged.stats r2) = None
                 /\ Table.orientation_time (Merged.stats r2) = None).
Proof.
  intros Hr Hn; cbn zeta.
  rewrite (@fix_erroneous_data_single pre post r avg p b t col Hr Hn).
  rewrite (@fix_erroneous_data_single pre post
             (update_stats (corrected_cells col) r) avg' p b t col Hr Hn).
  split.
  - intro Hc; do 2 f_equal.
    destruct r as [rp rb rt s]; unfold update_stats; simpl; f_equal.
    destruct col; try reflexivity; contradiction.
  - intros ->; eexists; split; [reflexivity |].
    cbn [update_stats Merged.stats corrected_cells Table.column_eqb
         Table.set Table.total_time Table.orientation_time].
    split; [apply sub_nan | reflexivity].
Qed.

Lemma correction_repeated_witness :
  exists r2,
    fst (fix_erroneous_data
           (fst (fix_erroneous_data merged_table [] "BNC39" 1 "Pawn Shop"
                                    Table.Orientation_Time))
           [] "BNC39" 1 "Pawn Shop" Table.Orientation_Time)
    = [ Merged.mk "BNC39" 1 "Bank" (cells_of (Some (Q2Qc 10)) (Some (Q2Qc 2)) 1);
        r2;
        Merged.mk "BNC39" 2 "Pawn Shop" (cells_of (Some (Q2Qc 9)) (Some (Q2Qc 1)) 5) ]
    /\ Table.total_time (Merged.stats r2) = None.
Proof.
  destruct (@correction_repeated
              [Merged.mk "BNC39" 1 "Bank"
                         (cells_of (Some (Q2Qc 10)) (Some (Q2Qc 2)) 1)]
              [Merged.mk "BNC39" 2 "Pawn Shop"
                         (cells_of (Some (Q2Qc 9)) (Some (Q2Qc 1)) 5)]
              (Merged.mk "BNC39" 1 "Pawn Shop"
                         (cells_of (Some (Q2Qc 50)) (Some (Q2Qc 40)) 3))
              [] [] "BNC39"%string 1 "Pawn Shop"%string Table.Orientation_Time)
    as [_ H].
  - reflexivity.
  - intros x [<- | [<- | []]]; reflexivity.
  - destruct (H eq_refl) as [r2 [H1 [H2 _]]].
    exists r2; split; [exact H1 | exact H2].
Defined.

Lemma map_if_none (A : Type) (sel : A -> bool) (f : A -> A) (l : list A) :
  existsb sel l = false -> map (fun a => if sel a then f a else a) l = l.
Proof.
  induction l as [| a t IH]; simpl; intro H; [reflexivity |].
  apply orb_false_iff in H; destruct H as [Ha Ht].
  rewrite Ha, (IH Ht); reflexivity.
Qed.

(** X19: when the key is in the merged table, the correction writes
    into the corrected column of every row of that participant in the
    averaged table, whatever its block, one and the same value: the
    mean of the numbers left in that column over all records of the
    participant in the corrected merged table.  Rows of other
    participants, and all rows when no number is left, stay as they
    are. *)
Theorem correction_updates_average (df_merged : list Merged.row)
    (df_averaged : list Averaged.row) (p : string) (b : nat) (t : string)
    (col : Table.column) :
  existsb (condition p b t) df_merged = true ->
  let res := fix_erroneous_data df_merged df_averaged p b t col in
  let valid :=
    Series.dropna
      (map (fun r => Table.get col (Merged.stats r))
           (filter (fun r => String.eqb (Merged.Participant r) p) (fst res))) in
  snd res
  = match valid with
    | [] => df_averaged
    | _ :: _ =>
        map (fun a => if String.eqb (Averaged.Participant a) p
                      then with_average col (Series.mean valid) a
                      else a)
            df_averaged
    end.
Proof.
  intro E; cbn zeta.
  rewrite (fix_erroneous_data_merged df_merged df_averaged p b t col E).
  unfold fix_erroneous_data; rewrite E; cbn [negb].
  set (m' := loc_update _ _ _).
  set (valid := Series.dropna _).
  destruct valid as [| v vs]; [reflexivity |].
  cbn [length Nat.ltb Nat.leb].
  destruct (existsb _ df_averaged) eqn:Ea; cbn [snd]; [reflexivity |].
  symmetry; apply (map_if_none _ _ _ Ea).
Qed.

Lemma correction_updates_average_witness :
  map (fun a => Table.orientation_time (Averaged.stats a))
      (snd (fix_erroneous_data merged_table averaged_table
                               "BNC39" 1 "Pawn Shop" Table.Orientation_Time))
  = [ Some (Series.mean [Q2Qc 2; Q2Qc 1]);
      Some (Series.mean [Q2Qc 2; Q2Qc 1]);
      Some (Q2Qc 3) ].
Proof.
  rewrite (@correction_updates_average merged_table averaged_table
             "BNC39" 1 "Pawn Shop" Table.Orientation_Time eq_refl).
  reflexivity.
Defined.

(** ** The list of participants *)

Section SortedFacts.

Variable K : Type.
Variable leb : K -> K -> bool.
Hypothesis leb_total : forall a b, leb a b = true \/ leb b a = true.

Lemma insert_key_sorted (k : K) (l : list K) :
  Sorted (fun a b => leb a b = true) l ->
  Sorted (fun a b => leb a b = true) (insert_key leb k l).
Proof.
  induction 1 as [| h t Hs IH Hrel]; simpl.
  - repeat constructor.
  - destruct (leb k h) eqn:E.
    + constructor; [constructor; assumption | constructor; exact E].
    + constructor; [exact IH |].
      assert (Hhk : leb h k = true)
        by (destruct (leb_total k h) as [H | H]; congruence).
      destruct t as [| y u]; simpl; [constructor; exact Hhk |].
      inversion Hrel; subst.
      destruct (leb k y); constructor; assumption.
Qed.

Lemma sort_keys_sorted (l : list K) :
  Sorted (fun a b => leb a b = true) (sort_keys leb l).
Proof.
  induction l as [| h t IH]; simpl; [constructor |].
  apply insert_key_sorted, IH.
Qed.

End SortedFacts.

(** X20: the participant list holds exactly the names of the listing
    that are directories and begin with BNC or NAV, each as often as
    the listing has it, in ascending order. *)
Theorem get_participant_ids_sorted_selection (entries : list (string * bool)) :
  Sorted (fun a b => String.leb a b = true) (get_participant_ids entries)
  /\ Permutation
       (get_participant_ids entries)
       (map fst
            (filter (fun e => snd e
                              && (String.prefix "BNC" (fst e)
                                  || String.prefix "NAV" (fst e)))
                    entries))
  /\ (forall name,
        In name (get_participant_ids entries) <->
        In (name, true) entries
        /\ (String.prefix "BNC" name = true
            \/ String.prefix "NAV" name = true)).
Proof.
  unfold get_participant_ids; split; [| split].
  - apply sort_keys_sorted, String.leb_total.
  - apply sort_keys_perm.
  - intro name; rewrite sort_keys_In, in_map_iff; split.
    + intros [[n d] [<- H]]; apply filter_In in H; destruct H as [Hin Hp].
      simpl in Hp; apply andb_true_iff in Hp; destruct Hp as [-> Hp].
      apply orb_true_iff in Hp; simpl; auto.
    + intros [Hin Hp]; exists (name, true); split; [reflexivity |].
      apply filter_In; split; [exact Hin |]; simpl.
      apply orb_true_iff; exact Hp.
Qed.

(** ** Keep-last de-duplication *)

Section KeepLastFacts.

Variables (A K : Type).
Variable eqb : K -> K -> bool.
Variable key : A -> K.
Hypothesis eqb_iff : forall a b, eqb a b = true <-> a = b.

Lemma later_test (a : A) (l : list A) :
  existsb (fun b => eqb (key b) (key a)) l = true <-> In (key a) (map key l).
Proof.
  rewrite existsb_exists, in_map_iff; split.
  - intros [b [Hb E]]; exists b; split; [apply eqb_iff, E | exact Hb].
  - intros [b [E Hb]]; exists b; split; [exact Hb | apply eqb_iff, E].
Qed.

Lemma drop_duplicates_last_keys (l : list A) (k : K) :
  In k (map key (drop_duplicates_last eqb key l)) <-> In k (map key l).
Proof.
  induction l as [| a t IH]; simpl; [tauto |].
  destruct (existsb (fun b => eqb (key b) (key a)) t) eqn:E; simpl.
  - apply later_test in E; rewrite IH; split; [auto |].
    intros [<- | H]; assumption.
  - rewrite IH; tauto.
Qed.

Lemma drop_duplicates_last_NoDup (l : list A) :
  NoDup (map key (drop_duplicates_last eqb key l)).
Proof.
  induction l as [| a t IH]; simpl; [constructor |].
  destruct (existsb (fun b => eqb (key b) (key a)) t) eqn:E; simpl;
    [exact IH |].
  constructor; [| exact IH].
  rewrite drop_duplicates_last_keys; intro H.
  apply later_test in H; congruence.
Qed.

Lemma drop_duplicates_last_incl (l : list A) :
  incl (drop_duplicates_last eqb key l) l.
Proof.
  induction l as [| a t IH]; simpl; [apply incl_refl |].
  destruct (existsb (fun b => eqb (key b) (key a)) t).
  - apply incl_tl, IH.
  - apply incl_cons; [left; reflexivity | apply incl_tl, IH].
Qed.

Lemma drop_duplicates_last_nil_inv (l : list A) :
  drop_duplicates_last eqb key l = [] -> l = [].
Proof.
  intro H; destruct l as [| a t]; [reflexivity |].
  assert (Hin : In (key a) (map key (drop_duplicates_last eqb key (a :: t))))
    by (apply drop_duplicates_last_keys; left; reflexivity).
  rewrite H in Hin; destruct Hin.
Qed.

End KeepLastFacts.

Lemma drop_duplicates_last_ext (A K K' : Type) (eqb : K -> K -> bool)
    (eqb' : K' -> K' -> bool) (key : A -> K) (key' : A -> K') (l : list A) :
  (forall a b, In a l -> In b l ->
               eqb (key b) (key a) = eqb' (key' b) (key' a)) ->
  drop_duplicates_last eqb key l = drop_duplicates_last eqb' key' l.
Proof.
  induction l as [| a t IH]; intro H; simpl; [reflexivity |].
  assert (E : existsb (fun b => eqb (key b) (key a)) t
              = existsb (fun b => eqb' (key' b) (key' a)) t).
  { clear IH; induction t as [| b u IHu]; simpl; [reflexivity |].
    rewrite (H a b) by (simpl; auto).
    f_equal; apply IHu; intros x y Hx Hy.
    apply H; simpl in *; intuition. }
  rewrite E, IH; [reflexivity |].
  intros x y Hx Hy; apply H; right; assumption.
Qed.

Lemma target_rows_positions (pid : string) (k : nat) (t : string)
    (data : list Sample.row) :
  map trajectory_position (target_rows pid k t data)
  = map position
        (drop_duplicates_last pos_eqb position (destination_group t data)).
Proof.
  unfold target_rows; fold (destination_group t data); rewrite map_map.
  rewrite (@drop_duplicates_last_ext _ _ _ trajectory_key_eqb pos_eqb
             trajectory_key position (destination_group t data)).
  - apply map_ext; intro s; reflexivity.
  - intros a b Ha Hb; unfold trajectory_key_eqb, trajectory_key; simpl.
    apply filter_In in Ha, Hb; destruct Ha as [_ Ha], Hb as [_ Hb].
    apply String.eqb_eq in Ha, Hb; rewrite Ha, Hb, String.eqb_refl.
    apply andb_true_r.
Qed.

(** X21: the trajectory rows of one session and one destination name
    each position of that destination's group exactly once, so there
    are as many rows as the engine's teleport count of the group; each
    row carries the participant, the block and the destination. *)
Theorem target_rows_distinct_positions (pid : string) (k : nat) (t : string)
    (data : list Sample.row) :
  let group := destination_group t data in
  let rows := target_rows pid k t data in
  NoDup (map trajectory_position rows)
  /\ (forall p, In p (map trajectory_position rows)
                <-> In p (map position group))
  /\ length rows = Metrics.Teleportations (target_metrics t group)
  /\ (forall r, In r rows ->
        Trajectory.Participant r = pid /\ Trajectory.Block_num r = k
        /\ Trajectory.Target_Name r = t).
Proof.
  cbn zeta.
  assert (Hnd : NoDup (map trajectory_position (target_rows pid k t data))).
  { rewrite target_rows_positions.
    apply (drop_duplicates_last_NoDup pos_eqb position pos_eqb_iff). }
  assert (Hin : forall p, In p (map trajectory_position
                                    (target_rows pid k t data))
                          <-> In p (map position (destination_group t data))).
  { intro p; rewrite target_rows_positions.
    apply (drop_duplicates_last_keys pos_eqb position pos_eqb_iff). }
  split; [exact Hnd |]. split; [exact Hin |]. split.
  - cbn [target_metrics Metrics.Teleportations].
    rewrite teleportations_distinct; unfold distinct_count.
    rewrite <- (length_map trajectory_position).
    apply Permutation_length, NoDup_Permutation;
      [exact Hnd | apply NoDup_nodup |].
    intro p; rewrite nodup_In; apply Hin.
  - intros r Hr; unfold target_rows in Hr; apply in_map_iff in Hr.
    destruct Hr as [s [<- Hs]]; simpl.
    apply (drop_duplicates_last_incl trajectory_key_eqb trajectory_key) in Hs.
    apply filter_In in Hs; destruct Hs as [_ Hs].
    apply String.eqb_eq in Hs; auto.
Qed.

(** ** The loops of the trajectory extraction *)

Lemma append_target_block (pid : string) (bn : nat) (data : list Sample.row)
    (c : containers) (target : string) (k : nat) (t : string) :
  block_data (append_target pid bn data c target) k t
  = block_data c k t
    ++ (if Nat.eqb k bn && String.eqb t target
        then frames_of data pid bn t else []).
Proof.
  unfold append_target, frames_of.
  destruct (String.eqb_spec t target) as [-> | Hne].
  - destruct (filter _ data); cbn [block_data].
    + destruct (Nat.eqb k bn); simpl; rewrite app_nil_r; reflexivity.
    + rewrite String.eqb_refl; destruct (Nat.eqb k bn); simpl;
        rewrite ?app_nil_r; reflexivity.
  - rewrite andb_false_r, app_nil_r.
    destruct (filter _ data); cbn [block_data]; [reflexivity |].
    apply String.eqb_neq in Hne; rewrite Hne, andb_false_r; reflexivity.
Qed.

Lemma append_target_all (pid : string) (bn : nat) (data : list Sample.row)
    (c : containers) (target : string) (t : string) :
  all_data (append_target pid bn data c target) t
  = all_data c t
    ++ (if String.eqb t target then frames_of data pid bn t else []).
Proof.
  unfold append_target, frames_of.
  destruct (String.eqb_spec t target) as [-> | Hne].
  - destruct (filter _ data); cbn [all_data].
    + rewrite app_nil_r; reflexivity.
    + rewrite String.eqb_refl; reflexivity.
  - rewrite app_nil_r.
    destruct (filter _ data); cbn [all_data]; [reflexivity |].
    apply String.eqb_neq in Hne; rewrite Hne; reflexivity.
Qed.

Lemma fold_targets_block (pid : string) (bn : nat) (data : list Sample.row)
    (targets : list string) (c : containers) (k : nat) (t : string) :
  NoDup targets ->
  block_data (fold_left (append_target pid bn data) targets c) k t
  = block_data c k t
    ++ (if Nat.eqb k bn && existsb (String.eqb t) targets
        then frames_of data pid bn t else []).
Proof.
  intro Hnd; revert c; induction Hnd as [| a ts Ha Hnd IH]; intro c.
  - simpl; rewrite andb_false_r, app_nil_r; reflexivity.
  - cbn [fold_left existsb]; rewrite IH, append_target_block, <- app_assoc.
    f_equal.
    destruct (Nat.eqb k bn); cbn [andb]; [| reflexivity].
    destruct (String.eqb_spec t a) as [-> | Hne]; cbn [orb].
    + replace (existsb (String.eqb a) ts) with false; [apply app_nil_r |].
      symmetry; apply not_true_is_false; intro H.
      apply (existsb_eqb_In String.eqb String.eqb_eq) in H; contradiction.
    + reflexivity.
Qed.

Lemma fold_targets_all (pid : string) (bn : nat) (data : list Sample.row)
    (targets : list string) (c : containers) (t : string) :
  NoDup targets ->
  all_data (fold_left (append_target pid bn data) targets c) t
  = all_data c t
    ++ (if existsb (String.eqb t) targets
        then frames_of data pid bn t else []).
Proof.
  intro Hnd; revert c; induction Hnd as [| a ts Ha Hnd IH]; intro c.
  - simpl; rewrite app_nil_r; reflexivity.
  - cbn [fold_left existsb]; rewrite IH, append_target_all, <- app_assoc.
    f_equal.
    destruct (String.eqb_spec t a) as [-> | Hne]; cbn [orb].
    + replace (existsb (String.eqb a) ts) with false; [apply app_nil_r |].
      symmetry; apply not_true_is_false; intro H.
      apply (existsb_eqb_In String.eqb String.eqb_eq) in H; contradiction.
    + reflexivity.
Qed.

Section TrajectoryFacts.

Variable parse_float : string -> option Qc.
Variable read_raw : string -> nat -> option (list Raw.row).

Lemma session_step_block (pid : string) (c c' : containers) (bn k : nat)
    (t : string) :
  session_step parse_float read_raw pid c bn = inr c' ->
  block_data c' k t
  = block_data c k t
    ++ (if Nat.eqb k bn && existsb (String.eqb t) TARGET_ORDER
        then session_frames parse_float read_raw pid bn t else []).
Proof.
  unfold session_step, session_frames.
  destruct (read_raw pid bn) as [csv |].
  - destruct (process_raw_data parse_float csv) as [e | data];
      cbn [bind ret]; [discriminate |].
    intro H.
    assert (E : c' = fold_left (append_target pid bn data) TARGET_ORDER c)
      by (injection H; intro E'; symmetry; exact E').
    rewrite E; apply fold_targets_block, TARGET_ORDER_NoDup.
  - intro H; injection H as <-.
    destruct (Nat.eqb k bn && existsb (String.eqb t) TARGET_ORDER); rewrite app_nil_r; reflexivity.
Qed.

Lemma session_step_all (pid : string) (c c' : containers) (bn : nat)
    (t : string) :
  session_step parse_float read_raw pid c bn = inr c' ->
  all_data c' t
  = all_data c t
    ++ (if existsb (String.eqb t) TARGET_ORDER
        then session_frames parse_float read_raw pid bn t else []).
Proof.
  unfold session_step, session_frames.
  destruct (read_raw pid bn) as [csv |].
  - destruct (process_raw_data parse_float csv) as [e | data];
      cbn [bind ret]; [discriminate |].
    intro H.
    assert (E : c' = fold_left (append_target pid bn data) TARGET_ORDER c)
      by (injection H; intro E'; symmetry; exact E').
    rewrite E; apply fold_targets_all, TARGET_ORDER_NoDup.
  - intro H; injection H as <-.
    destruct (existsb (String.eqb t) TARGET_ORDER); rewrite app_nil_r; reflexivity.
Qed.

(** A loop in the error monad that appends to an observed list. *)
Lemma foldM_appends (A S B : Type) (f : S -> A -> result S)
    (obs : S -> list B) (add : A -> list B) (l : list A) (s s' : S) :
  (forall s0 s1 a, f s0 a = inr s1 -> obs s1 = obs s0 ++ add a) ->
  foldM f l s = inr s' ->
  obs s' = obs s ++ flat_map add l.
Proof.
  intro Hstep; revert s; induction l as [| a t IH]; intros s H; simpl in H.
  - injection H as <-; simpl; rewrite app_nil_r; reflexivity.
  - destruct (f s a) as [e | s1] eqn:E; [discriminate |]; simpl in H.
    rewrite (IH _ H), (Hstep _ _ _ E), <- app_assoc; reflexivity.
Qed.

Lemma collect_block (participant_ids : list string) (c : containers)
    (k : nat) (t : string) :
  collect_trajectories parse_float read_raw participant_ids = inr c ->
  block_data c k t
  = flat_map
      (fun pid =>
         flat_map
           (fun bn => if Nat.eqb k bn && existsb (String.eqb t) TARGET_ORDER
                      then session_frames parse_float read_raw pid bn t
                      else [])
           [1; 2; 3])
      participant_ids.
Proof.
  unfold collect_trajectories; intro H.
  apply foldM_appends
    with (obs := fun c => block_data c k t)
         (add := fun pid =>
                   flat_map
                     (fun bn => if Nat.eqb k bn && existsb (String.eqb t) TARGET_ORDER
                                then session_frames parse_float read_raw pid bn t
                                else [])
                     [1; 2; 3]) in H; [exact H |].
  intros s0 s1 pid Hs.
  apply foldM_appends
    with (obs := fun c => block_data c k t)
         (add := fun bn => if Nat.eqb k bn && existsb (String.eqb t) TARGET_ORDER
                           then session_frames parse_float read_raw pid bn t
                           else []) in Hs; [exact Hs |].
  intros; apply session_step_block; assumption.
Qed.

Lemma collect_all (participant_ids : list string) (c : containers)
    (t : string) :
  collect_trajectories parse_float read_raw participant_ids = inr c ->
  all_data c t
  = flat_map
      (fun pid =>
         flat_map
           (fun bn => if existsb (String.eqb t) TARGET_ORDER
                      then session_frames parse_float read_raw pid bn t
                      else [])
           [1; 2; 3])
      participant_ids.
Proof.
  unfold collect_trajectories; intro H.
  apply foldM_appends
    with (obs := fun c => all_data c t)
         (add := fun pid =>
                   flat_map
                     (fun bn => if existsb (String.eqb t) TARGET_ORDER
                                then session_frames parse_float read_raw pid bn t
                                else [])
                     [1; 2; 3]) in H; [exact H |].
  intros s0 s1 pid Hs.
  apply foldM_appends
    with (obs := fun c => all_data c t)
         (add := fun bn => if existsb (String.eqb t) TARGET_ORDER
                           then session_frames parse_float read_raw pid bn t
                           else []) in Hs; [exact Hs |].
  intros; apply session_step_all; assumption.
Qed.

End TrajectoryFacts.

Lemma concat_flat_map (A B : Type) (f : A -> list (list B)) (l : list A) :
  concat (flat_map f l) = flat_map (fun a => concat (f a)) l.
Proof.
  induction l as [| a t IH]; simpl; [reflexivity |].
  rewrite concat_app, IH; reflexivity.
Qed.

Lemma Forall_flat_map (A B : Type) (P : B -> Prop) (f : A -> list B)
    (l : list A) :
  (forall a, In a l -> Forall P (f a)) -> Forall P (flat_map f l).
Proof.
  induction l as [| a t IH]; intro H; simpl; [constructor |].
  apply Forall_app; split; [apply H; left; reflexivity |].
  apply IH; intros; apply H; right; assumption.
Qed.

Lemma saved_In (frames : list (list Trajectory.row))
    (rows : list Trajectory.row) :
  Forall (fun fr => fr <> []) frames ->
  (In rows (saved frames) <-> rows <> [] /\ rows = concat frames).
Proof.
  intro H; destruct frames as [| f fs]; simpl.
  - split; [intros [] | intros [Hne ->]; apply Hne; reflexivity].
  - inversion H as [| ? ? Hf _]; subst; split.
    + intros [<- | []]; split; [| reflexivity].
      destruct f; [contradiction | discriminate].
    + intros [_ ->]; left; reflexivity.
Qed.

Lemma trajectory_key_eqb_iff (a b : pos * string) :
  trajectory_key_eqb a b = true <-> a = b.
Proof.
  destruct a as [pa na], b as [pb nb]; unfold trajectory_key_eqb; simpl.
  rewrite andb_true_iff, pos_eqb_iff, String.eqb_eq; split.
  - intros [-> ->]; reflexivity.
  - intro H; injection H as -> ->; auto.
Qed.

Lemma frames_of_nonempty (data : list Sample.row) (pid : string) (bn : nat)
    (t : string) :
  Forall (fun fr => fr <> []) (frames_of data pid bn t).
Proof.
  unfold frames_of.
  destruct (filter _ data) as [| s u] eqn:E; constructor; [| constructor].
  unfold target_rows; rewrite E; intro H.
  apply map_eq_nil in H.
  apply (drop_duplicates_last_nil_inv trajectory_key_eqb trajectory_key
           trajectory_key_eqb_iff) in H.
  discriminate.
Qed.

Lemma frames_of_concat (data : list Sample.row) (pid : string) (bn : nat)
    (t : string) :
  concat (frames_of data pid bn t) = target_rows pid bn t data.
Proof.
  unfold frames_of, target_rows.
  destruct (filter _ data); simpl; [reflexivity | apply app_nil_r].
Qed.

Section ExtractFacts.

Variable parse_float : string -> option Qc.
Variable read_raw : string -> nat -> option (list Raw.row).

Lemma session_frames_nonempty (pid : string) (bn : nat) (t : string) :
  Forall (fun fr => fr <> [])
         (session_frames parse_float read_raw pid bn t).
Proof.
  unfold session_frames.
  destruct (read_raw pid bn) as [csv |]; [| constructor].
  destruct (process_raw_data parse_float csv); [constructor |].
  apply frames_of_nonempty.
Qed.

Lemma session_frames_concat (pid : string) (bn : nat) (t : string) :
  concat (session_frames parse_float read_raw pid bn t)
  = session_rows parse_float read_raw pid bn t.
Proof.
  unfold session_frames, session_rows.
  destruct (read_raw pid bn) as [csv |]; [| reflexivity].
  destruct (process_raw_data parse_float csv); [reflexivity |].
  apply frames_of_concat.
Qed.

Lemma canonical_true (t : string) :
  In t TARGET_ORDER -> existsb (String.eqb t) TARGET_ORDER = true.
Proof. apply (existsb_eqb_In String.eqb String.eqb_eq). Qed.

Lemma block_frames (participant_ids : list string) (c : containers)
    (k : nat) (t : string) :
  collect_trajectories parse_float read_raw participant_ids = inr c ->
  In k [1; 2; 3] -> In t TARGET_ORDER ->
  block_data c k t
  = flat_map (fun pid => session_frames parse_float read_raw pid k t)
             participant_ids.
Proof.
  intros H Hk Ht; rewrite (collect_block _ _ _ k t H).
  apply flat_map_ext; intro pid.
  rewrite (canonical_true Ht); cbn [flat_map].
  destruct Hk as [<- | [<- | [<- | []]]]; simpl;
    rewrite ?app_nil_r; reflexivity.
Qed.

Lemma all_frames (participant_ids : list string) (c : containers)
    (t : string) :
  collect_trajectories parse_float read_raw participant_ids = inr c ->
  In t TARGET_ORDER ->
  all_data c t
  = flat_map
      (fun pid =>
         flat_map (fun bn => session_frames parse_float read_raw pid bn t)
                  [1; 2; 3])
      participant_ids.
Proof.
  intros H Ht; rewrite (collect_all _ _ _ t H).
  apply flat_map_ext; intro pid.
  rewrite (canonical_true Ht); reflexivity.
Qed.

End ExtractFacts.

(** X22: when the extraction returns, a block file exists exactly for
    the blocks 1 to 3 and the canonical destinations that have at least
    one trajectory row, and it holds the trajectory rows of that block
    and destination of all participants, participant after participant
    in the order of the list; an "all" file exists for the canonical
    destinations with at least one row and holds, participant after
    participant, the rows of blocks 1, 2 and 3. *)
Theorem extract_target_trajectories_files
    (parse_float : string -> option Qc)
    (read_raw : string -> nat -> option (list Raw.row))
    (participant_ids : list string)
    (block_files : list (nat * string * list Trajectory.row))
    (all_files : list (string * list Trajectory.row)) :
  extract_target_trajectories parse_float read_raw participant_ids
  = inr (block_files, all_files) ->
  (forall k t rows,
     In (k, t, rows) block_files <->
     In k [1; 2; 3] /\ In t TARGET_ORDER /\ rows <> []
     /\ rows = flat_map (fun pid => session_rows parse_float read_raw pid k t)
                        participant_ids)
  /\ (forall t rows,
        In (t, rows) all_files <->
        In t TARGET_ORDER /\ rows <> []
        /\ rows = flat_map
                    (fun pid =>
                       flat_map
                         (fun bn => session_rows parse_float read_raw pid bn t)
                         [1; 2; 3])
                    participant_ids).
Proof.
  unfold extract_target_trajectories.
  destruct (collect_trajectories parse_float read_raw participant_ids)
    as [e | c] eqn:Hc; cbn [bind ret]; [discriminate |].
  intro H.
  assert (Eb : block_files
               = flat_map
                   (fun bn =>
                      flat_map
                        (fun target =>
                           map (fun combined => (bn, target, combined))
                               (saved (block_data c bn target)))
                        TARGET_ORDER)
                   [1; 2; 3])
    by (injection H; intros _ E; symmetry; exact E).
  assert (Ea : all_files
               = flat_map
                   (fun target =>
                      map (fun combined => (target, combined))
                          (saved (all_data c target)))
                   TARGET_ORDER)
    by (injection H; intros E _; symmetry; exact E).
  clear H; split.
  - intros k t rows; rewrite Eb, in_flat_map; split.
    + intros [bn [Hbn Hin]]; apply in_flat_map in Hin.
      destruct Hin as [target [Ht Hin]]; apply in_map_iff in Hin.
      destruct Hin as [combined [E Hs]]; injection E as -> -> ->.
      rewrite (block_frames _ _ _ Hc Hbn Ht) in Hs.
      apply saved_In in Hs.
      * destruct Hs as [Hne ->]; repeat split; try assumption.
        rewrite concat_flat_map; apply flat_map_ext; intro pid.
        apply session_frames_concat.
      * apply Forall_flat_map; intros; apply session_frames_nonempty.
    + intros [Hk [Ht [Hne ->]]]; exists k; split; [exact Hk |].
      apply in_flat_map; exists t; split; [exact Ht |].
      apply in_map, saved_In.
      * rewrite (block_frames _ _ _ Hc Hk Ht).
        apply Forall_flat_map; intros; apply session_frames_nonempty.
      * split; [exact Hne |].
        rewrite (block_frames _ _ _ Hc Hk Ht), concat_flat_map.
        apply flat_map_ext; intro pid; symmetry.
        apply session_frames_concat.
  - intros t rows; rewrite Ea, in_flat_map; split.
    + intros [target [Ht Hin]]; apply in_map_iff in Hin.
      destruct Hin as [combined [E Hs]]; injection E as -> ->.
      rewrite (all_frames _ _ _ Hc Ht) in Hs.
      apply saved_In in Hs.
      * destruct Hs as [Hne ->]; repeat split; try assumption.
        rewrite concat_flat_map; apply flat_map_ext; intro pid.
        rewrite concat_flat_map; apply flat_map_ext; intro bn.
        apply session_frames_concat.
      * apply Forall_flat_map; intros; apply Forall_flat_map; intros.
        apply session_frames_nonempty.
    + intros [Ht [Hne ->]]; exists t; split; [exact Ht |].
      apply in_map, saved_In.
      * rewrite (all_frames _ _ _ Hc Ht).
        apply Forall_flat_map; intros; apply Forall_flat_map; intros.
        apply session_frames_nonempty.
      * split; [exact Hne |].
        rewrite (all_frames _ _ _ Hc Ht), concat_flat_map.
        apply flat_map_ext; intro pid.
        rewrite concat_flat_map; apply flat_map_ext; intro bn; symmetry.
        apply session_frames_concat.
Qed.

Lemma extract_target_trajectories_files_witness :
  In (1, "Bank"%string,
      flat_map (fun pid => session_rows parse_nonempty one_session pid 1 "Bank")
               ["BNC01"%string])
     (fst one_session_files).
Proof.
  assert (H : extract_target_trajectories parse_nonempty one_session
                                          ["BNC01"%string]
              = inr (fst one_session_files, snd one_session_files))
    by (vm_compute; reflexivity).
  apply (proj1 (extract_target_trajectories_files _ _ _ H)).
  split; [left; reflexivity |].
  split; [simpl; tauto |].
  split; [vm_compute; discriminate | reflexivity].
Defined.

(** ** Failure of the trajectory extraction *)

Lemma foldM_inl (A S : Type) (f : S -> A -> result S) (l : list A) (s : S)
    (e : Error) :
  foldM f l s = inl e -> exists a s0, In a l /\ f s0 a = inl e.
Proof.
  revert s; induction l as [| a t IH]; intros s H; simpl in H;
    [discriminate |].
  destruct (f s a) as [e' | s1] eqn:E; simpl in H.
  - injection H as ->; exists a, s; split; [left; reflexivity | exact E].
  - destruct (IH _ H) as [x [s0 [Hx Ex]]]; exists x, s0.
    split; [right; exact Hx | exact Ex].
Qed.

Lemma foldM_returns (A S : Type) (f : S -> A -> result S) (l : list A)
    (s : S) :
  (forall s0 a, In a l -> exists s1, f s0 a = inr s1) ->
  exists s', foldM f l s = inr s'.
Proof.
  revert s; induction l as [| a t IH]; intros s H; simpl.
  - eexists; reflexivity.
  - destruct (H s a (or_introl eq_refl)) as [s1 E]; rewrite E; simpl.
    apply IH; intros; apply H; right; assumption.
Qed.

Lemma foldM_inr_steps (A S : Type) (f : S -> A -> result S) (l : list A)
    (s s' : S) :
  foldM f l s = inr s' ->
  forall a, In a l -> exists s0 s1, f s0 a = inr s1.
Proof.
  revert s; induction l as [| x t IH]; intros s H a Ha; simpl in H;
    [destruct Ha |].
  destruct (f s x) as [e | s1] eqn:E; simpl in H; [discriminate |].
  destruct Ha as [<- | Ha].
  - exists s, s1; exact E.
  - apply (IH _ H a Ha).
Qed.

(** X23: for session files that have their columns, typed as the
    Normalizer's model has them, the extraction returns exactly when
    the Normalizer returns on the raw file of every listed participant
    and every block from 1 to 3 that exists (a missing file is passed
    over).  When the extraction fails it fails with an error that the
    Normalizer raised on such a file, since only the error of a
    missing file is caught, and no file is produced. *)
Theorem extraction_aborts_on_malformed_session
    (parse_float : string -> option Qc)
    (read_raw : string -> nat -> option (list Raw.row))
    (participant_ids : list string) :
  ((exists files,
      extract_target_trajectories parse_float read_raw participant_ids
      = inr files)
   <-> (forall pid k csv,
          In pid participant_ids -> In k [1; 2; 3] ->
          read_raw pid k = Some csv ->
          exists data, process_raw_data parse_float csv = inr data))
  /\ (forall e,
        extract_target_trajectories parse_float read_raw participant_ids
        = inl e ->
        exists pid k csv,
          In pid participant_ids /\ In k [1; 2; 3]
          /\ read_raw pid k = Some csv
          /\ process_raw_data parse_float csv = inl e).
Proof.
  unfold extract_target_trajectories, collect_trajectories; split; [split |].
  - intros [files H] pid k csv Hpid Hk Er.
    destruct (foldM _ participant_ids empty_containers) as [e' | c] eqn:Hc;
      cbn [bind ret] in H; [discriminate |].
    destruct (foldM_inr_steps _ _ _ Hc pid Hpid) as [c0 [c1 Hs]].
    destruct (foldM_inr_steps _ _ _ Hs k Hk) as [c2 [c3 Hstep]].
    unfold session_step in Hstep; rewrite Er in Hstep.
    destruct (process_raw_data parse_float csv) as [e' | data];
      cbn [bind ret] in Hstep; [discriminate |].
    exists data; reflexivity.
  - intro Hall.
    destruct (@foldM_returns _ _
                (fun c pid =>
                   foldM (session_step parse_float read_raw pid) [1; 2; 3] c)
                participant_ids empty_containers) as [c Hc].
    + intros c0 pid Hpid; apply foldM_returns; intros c1 k Hk.
      unfold session_step.
      destruct (read_raw pid k) as [csv |] eqn:Er;
        [| eexists; reflexivity].
      destruct (Hall pid k csv Hpid Hk Er) as [data Ed].
      rewrite Ed; cbn [bind ret]; eexists; reflexivity.
    + rewrite Hc; cbn [bind ret]; eexists; reflexivity.
  - intro e.
    destruct (foldM _ participant_ids empty_containers) as [e' | c] eqn:Hc;
      cbn [bind ret]; [| discriminate].
    intro H; injection H as ->.
    apply foldM_inl in Hc; destruct Hc as [pid [c0 [Hpid Hc]]].
    apply foldM_inl in Hc; destruct Hc as [k [c1 [Hk Hc]]].
    unfold session_step in Hc.
    destruct (read_raw pid k) as [csv |] eqn:Er; [| discriminate].
    destruct (process_raw_data parse_float csv) as [e' | data] eqn:Ep;
      cbn [bind ret] in Hc; [| discriminate].
    injection Hc as ->.
    exists pid, k, csv; auto.
Qed.

Lemma extraction_aborts_on_malformed_session_witness :
  (exists pid k csv,
     In pid ["BNC01"; "BNC02"]%string /\ In k [1; 2; 3]
     /\ broken_session pid k = Some csv
     /\ process_raw_data parse_nonempty csv = inl ValueError)
  /\ (exists files,
        extract_target_trajectories parse_nonempty
          (fun _ _ => @None (list Raw.row)) ["BNC01"; "BNC02"]%string
        = inr files).
Proof.
  split.
  - apply (proj2 (extraction_aborts_on_malformed_session parse_nonempty
                    broken_session ["BNC01"; "BNC02"]%string) ValueError).
    vm_compute; reflexivity.
  - apply (proj2 (proj1 (extraction_aborts_on_malformed_session
                           parse_nonempty (fun _ _ => @None (list Raw.row))
                           ["BNC01"; "BNC02"]%string))).
    intros pid k csv _ _ Er; discriminate Er.
Defined.

(** ** Moving the result files *)

Section OrganizerFacts.

Variable File : Type.
Variable path_join : string -> string -> string.

Lemma move_if_exists_other (src dest p : string) (fs : file_system File) :
  p <> src -> p <> dest -> move_if_exists src dest fs p = fs p.
Proof.
  intros Hs Hd; unfold move_if_exists, move.
  destruct (fs src); [| reflexivity].
  apply String.eqb_neq in Hs, Hd; rewrite Hs, Hd; reflexivity.
Qed.

Lemma move_if_exists_src (src dest : string) (fs : file_system File) :
  src <> dest -> move_if_exists src dest fs src = None.
Proof.
  intro H; unfold move_if_exists, move.
  destruct (fs src) eqn:E; [| exact E].
  apply String.eqb_neq in H; rewrite H, String.eqb_refl; reflexivity.
Qed.

Lemma move_if_exists_dest (src dest : string) (fs : file_system File) :
  move_if_exists src dest fs dest = after_move fs src dest.
Proof.
  unfold move_if_exists, move, after_move.
  destruct (fs src) eqn:E; [| reflexivity].
  rewrite String.eqb_refl; reflexivity.
Qed.

Lemma organize_step_effect (folder data_folder file_type prefix : string)
    (st : file_system File * results) :
  organize_step path_join folder data_folder st (file_type, prefix)
  = (move_if_exists
       (path_join folder (file_type ++ "_results.csv"))
       (dest_path path_join data_folder prefix file_type) (fst st),
     results_set (prefix ++ "_" ++ file_type)
       (moved_to (fst st)
          (path_join folder (file_type ++ "_results.csv"))
          (dest_path path_join data_folder prefix file_type))
       (snd st)).
Proof.
  unfold organize_step, move_if_exists, moved_to, dest_path.
  destruct (fst st (path_join folder (file_type ++ "_results.csv")));
    reflexivity.
Qed.

(** X24: when the four source paths and the four destination paths are
    pairwise different, each of the four result files that exists is
    afterwards at its destination with its content, and its source path
    is free; the returned entry is the destination path for a file that
    existed and [None] for one that did not; a destination whose source
    did not exist, and every other path, hold what they held. *)
Theorem organize_and_rename_files_moves (data_folder ya oa : string)
    (fs : file_system File) :
  let s1 := source_path path_join data_folder ya "merged" in
  let s2 := source_path path_join data_folder ya "averaged" in
  let s3 := source_path path_join data_folder oa "merged" in
  let s4 := source_path path_join data_folder oa "averaged" in
  let d1 := dest_path path_join data_folder "ya" "merged" in
  let d2 := dest_path path_join data_folder "ya" "averaged" in
  let d3 := dest_path path_join data_folder "oa" "merged" in
  let d4 := dest_path path_join data_folder "oa" "averaged" in
  let out := organize_and_rename_files path_join data_folder ya oa fs in
  NoDup [s1; s2; s3; s4; d1; d2; d3; d4] ->
  snd out = (moved_to fs s1 d1, moved_to fs s2 d2,
             moved_to fs s3 d3, moved_to fs s4 d4)
  /\ (fst out s1 = None /\ fst out s2 = None
      /\ fst out s3 = None /\ fst out s4 = None)
  /\ (fst out d1 = after_move fs s1 d1 /\ fst out d2 = after_move fs s2 d2
      /\ fst out d3 = after_move fs s3 d3 /\ fst out d4 = after_move fs s4 d4)
  /\ (forall p, ~ In p [s1; s2; s3; s4; d1; d2; d3; d4] ->
                fst out p = fs p).
Proof.
  cbn zeta; intro Hnd.
  unfold organize_and_rename_files.
  cbn [fold_left]; rewrite !organize_step_effect; cbn [fst snd].
  fold (source_path path_join data_folder ya "merged").
  fold (source_path path_join data_folder ya "averaged").
  fold (source_path path_join data_folder oa "merged").
  fold (source_path path_join data_folder oa "averaged").
  set (s1 := source_path path_join data_folder ya "merged") in *.
  set (s2 := source_path path_join data_folder ya "averaged") in *.
  set (s3 := source_path path_join data_folder oa "merged") in *.
  set (s4 := source_path path_join data_folder oa "averaged") in *.
  set (d1 := dest_path path_join data_folder "ya" "merged") in *.
  set (d2 := dest_path path_join data_folder "ya" "averaged") in *.
  set (d3 := dest_path path_join data_folder "oa" "merged") in *.
  set (d4 := dest_path path_join data_folder "oa" "averaged") in *.
  clearbody s1 s2 s3 s4 d1 d2 d3 d4.
  repeat (apply NoDup_cons_iff in Hnd; destruct Hnd as [? Hnd]).
  cbn [In] in *.
  assert (N12 : s1 <> s2) by (intro; intuition congruence).
  assert (N13 : s1 <> s3) by (intro; intuition congruence).
  assert (N14 : s1 <> s4) by (intro; intuition congruence).
  assert (N23 : s2 <> s3) by (intro; intuition congruence).
  assert (N24 : s2 <> s4) by (intro; intuition congruence).
  assert (N34 : s3 <> s4) by (intro; intuition congruence).
  assert (M11 : s1 <> d1) by (intro; intuition congruence).
  assert (M12 : s1 <> d2) by (intro; intuition congruence).
  assert (M13 : s1 <> d3) by (intro; intuition congruence).
  assert (M14 : s1 <> d4) by (intro; intuition congruence).
  assert (M21 : s2 <> d1) by (intro; intuition congruence).
  assert (M22 : s2 <> d2) by (intro; intuition congruence).
  assert (M23 : s2 <> d3) by (intro; intuition congruence).
  assert (M24 : s2 <> d4) by (intro; intuition congruence).
  assert (M31 : s3 <> d1) by (intro; intuition congruence).
  assert (M32 : s3 <> d2) by (intro; intuition congruence).
  assert (M33 : s3 <> d3) by (intro; intuition congruence).
  assert (M34 : s3 <> d4) by (intro; intuition congruence).
  assert (M41 : s4 <> d1) by (intro; intuition congruence).
  assert (M42 : s4 <> d2) by (intro; intuition congruence).
  assert (M43 : s4 <> d3) by (intro; intuition congruence).
  assert (M44 : s4 <> d4) by (intro; intuition congruence).
  assert (D12 : d1 <> d2) by (intro; intuition congruence).
  assert (D13 : d1 <> d3) by (intro; intuition congruence).
  assert (D14 : d1 <> d4) by (intro; intuition congruence).
  assert (D23 : d2 <> d3) by (intro; intuition congruence).
  assert (D24 : d2 <> d4) by (intro; intuition congruence).
  assert (D34 : d3 <> d4) by (intro; intuition congruence).
  split; [| split; [| split]].
  - unfold moved_to.
    rewrite !move_if_exists_other by congruence.
    destruct (fs s1), (fs s2), (fs s3), (fs s4); reflexivity.
  - repeat split.
    + rewrite !move_if_exists_other by congruence.
      apply move_if_exists_src; congruence.
    + rewrite !move_if_exists_other by congruence.
      rewrite move_if_exists_src by congruence; reflexivity.
    + rewrite move_if_exists_other by congruence.
      rewrite move_if_exists_src by congruence; reflexivity.
    + rewrite move_if_exists_src by congruence; reflexivity.
  - repeat split.
    + rewrite !move_if_exists_other by congruence.
      apply move_if_exists_dest.
    + rewrite !move_if_exists_other by congruence.
      rewrite move_if_exists_dest; unfold after_move.
      rewrite !move_if_exists_other by congruence; reflexivity.
    + rewrite move_if_exists_other by congruence.
      rewrite move_if_exists_dest; unfold after_move.
      rewrite !move_if_exists_other by congruence; reflexivity.
    + rewrite move_if_exists_dest; unfold after_move.
      rewrite !move_if_exists_other by congruence; reflexivity.
  - intros p Hp.
    rewrite !move_if_exists_other by (intro; subst; intuition); reflexivity.
Qed.

End OrganizerFacts.

Lemma organize_and_rename_files_moves_witness :
  snd (organize_and_rename_files slash_join "data" "YA_Data" "OA_Data" ya_only)
  = (Some "data/ya_merged_results.csv"%string,
     Some "data/ya_averaged_results.csv"%string, None, None).
Proof.
  apply (@organize_and_rename_files_moves nat slash_join
           "data" "YA_Data" "OA_Data" ya_only).
  vm_compute; repeat constructor; simpl; intuition discriminate.
Defined.

(** ** Further instances on concrete data *)

Lemma average_is_nan_iff_column_is_empty_witness :
  Table.get Table.Orientation_Time
            (Averaged.stats (average_row "BNC01" 1 nan_block))
  = None.
Proof.
  apply (proj2 (proj1 (average_is_nan_iff_column_is_empty
                         "BNC01" 1 nan_block Table.Orientation_Time))).
  intros r [<- | []]; reflexivity.
Defined.

Lemma get_participant_ids_sorted_selection_witness :
  In "BNC03"%string (get_participant_ids listing).
Proof.
  apply (proj2 (proj2 (get_participant_ids_sorted_selection listing))).
  split; [simpl; tauto | left; vm_compute; reflexivity].
Defined.

Lemma target_rows_distinct_positions_witness :
  length (target_rows "BNC01" 1 "Bank" example_group)
  = Metrics.Teleportations
      (target_metrics "Bank" (destination_group "Bank" example_group)).
Proof.
  exact (proj1 (proj2 (proj2 (target_rows_distinct_positions
                                "BNC01" 1 "Bank" example_group)))).
Defined.
